(** * Forecast-accuracy metrics: a Rocq model of [lib/evaluation/metrics.py]

    The module scores a table of (group, truth, forecast) rows with five
    error functions and formats the result for display.  The model below
    follows the Python source function by function:

    - numpy's float64 values are idealised as real numbers extended with
      [NaN]: rounding, overflow to an infinity and underflow to zero are
      not part of the tables below, and the columns "truth" and "forecast"
      are taken to be float64 columns (an int64 column wraps around where
      a float overflows).  Where a statement depends on these effects the
      error functions are also given on binary64 floats and on int64
      values as they are ([F64], [I64]);
    - exceptions are an error monad ([result]);
    - pandas data frames are Python objects: they live in a store and the
      program passes references to them around, so that in-place column
      assignment is visible through every alias.  *)

From Stdlib Require Import Reals Lra Lia ZArith String Ascii List.
From Stdlib Require Floats.
From stdpp Require Import gmap strings list fin_maps pretty sorting.

(** ** Python exceptions *)

Inductive exn : Type :=
| KeyError (k : string)
| IndexError
| ValueError
| TypeError
| BadReference (l : nat).

Inductive result (A : Type) : Type :=
| Ok (a : A)
| Raise (e : exn).
Arguments Ok {A} a.
Arguments Raise {A} e.

#[global] Instance result_ret : MRet result := @Ok.
#[global] Instance result_bind : MBind result :=
  λ A B f m, match m with Ok a => f a | Raise e => Raise e end.
#[global] Instance result_fmap : FMap result :=
  λ A B f m, match m with Ok a => Ok (f a) | Raise e => Raise e end.

(** [try: body except: handler] with a bare [except], which catches
    every exception. *)
Definition try_except {A} (body : result A) (handler : exn → result A) : result A :=
  match body with
  | Ok a => Ok a
  | Raise e => handler e
  end.

(** [mapM] for the error monad: the first exception wins. *)
Fixpoint result_mapM {A B} (f : A → result B) (l : list A) : result (list B) :=
  match l with
  | [] => Ok []
  | x :: l' => y ← f x; ys ← result_mapM f l'; Ok (y :: ys)
  end.

(** ** numpy scalars and one-dimensional arrays *)

Module Np.

(** A float64, idealised: a real number or not-a-number. *)
Inductive npfloat : Type :=
| Fin (x : R)
| NaN.

Abbreviation ndarray := (list npfloat).

#[global] Instance R_eq_dec : EqDecision R := Req_dec_T.
#[global] Instance R_lt_dec : RelDecision Rlt := Rlt_dec.
#[global] Instance R_le_dec : RelDecision Rle := Rle_dec.
#[global] Instance npfloat_eq_dec : EqDecision npfloat.
Proof. solve_decision. Defined.

Definition lift1 (f : R → R) (a : npfloat) : npfloat :=
  match a with
  | Fin x => Fin (f x)
  | NaN => NaN
  end.

Definition lift2 (f : R → R → R) (a b : npfloat) : npfloat :=
  match a, b with
  | Fin x, Fin y => Fin (f x y)
  | _, _ => NaN
  end.

Definition add : npfloat → npfloat → npfloat := lift2 Rplus.
Definition sub : npfloat → npfloat → npfloat := lift2 Rminus.
Definition mul : npfloat → npfloat → npfloat := lift2 Rmult.
Definition fabs : npfloat → npfloat := lift1 Rabs.
Definition square : npfloat → npfloat := lift1 (λ x, x * x)%R.

(** True division.  A zero divisor gives an infinity or a nan in IEEE
    arithmetic (with a warning, not an exception); infinities are not
    part of this model and the case is [NaN] here.  The error functions
    only divide by entries they have masked to be nonzero. *)
Definition div (a b : npfloat) : npfloat :=
  match a, b with
  | Fin x, Fin y => if decide (y = 0%R) then NaN else Fin (x / y)
  | _, _ => NaN
  end.

(** [np.sqrt]: nan (and a warning) below zero. *)
Definition sqrt (a : npfloat) : npfloat :=
  match a with
  | Fin x => if decide (x < 0)%R then NaN else Fin (R_sqrt.sqrt x)
  | NaN => NaN
  end.

(** [x != 0]: a nan is different from zero. *)
Definition ne0 (a : npfloat) : bool :=
  match a with
  | Fin x => bool_decide (x ≠ 0%R)
  | NaN => true
  end.

(** Element-wise binary operation on two 1-D arrays, with numpy's
    broadcasting: equal lengths pair up, a length-1 array is stretched,
    anything else is a [ValueError]. *)
Definition broadcast2 (f : npfloat → npfloat → npfloat) (a b : ndarray)
  : result ndarray :=
  if decide (length a = length b) then Ok (zip_with f a b)
  else match a, b with
       | [x], _ => Ok (f x <$> b)
       | _, [y] => Ok ((λ x, f x y) <$> a)
       | _, _ => Raise ValueError
       end.

(** [np.where(cond)[0]]: the positions at which [cond] holds. *)
Fixpoint where_from (i : nat) (cond : list bool) : list nat :=
  match cond with
  | [] => []
  | c :: cond' => (if c then [i] else []) ++ where_from (S i) cond'
  end.
Definition where_ (cond : list bool) : list nat := where_from 0 cond.

(** [a[idx]] with an integer index array: [IndexError] out of bounds. *)
Definition take (a : ndarray) (idx : list nat) : result ndarray :=
  result_mapM (λ i, match a !! i with
                    | Some x => Ok x
                    | None => Raise IndexError
                    end) idx.

Definition sum (a : ndarray) : npfloat := foldr add (Fin 0) a.

(** [np.mean] / [ndarray.mean]: the mean of an empty array is nan (numpy
    emits a RuntimeWarning and does not raise). *)
Definition mean (a : ndarray) : npfloat :=
  match a with
  | [] => NaN
  | _ :: _ => lift1 (λ s, s / INR (length a))%R (sum a)
  end.

(** What the error functions are called with: a whole column (a
    [pd.Series]) or, in aggregate mode, one number. *)
Inductive arg : Type :=
| Series (xs : ndarray)
| Scalar (x : npfloat).

(** [np.array(y).ravel()] *)
Definition ravel (y : arg) : ndarray :=
  match y with
  | Series xs => xs
  | Scalar x => [x]
  end.

End Np.

Import Np.

(** ** The five error functions *)

Definition MAPE (y_true y_pred : arg) : result npfloat :=
  try_except
    (let y_true := ravel y_true in
     let y_pred := ravel y_pred in
     let mask := where_ (ne0 <$> y_true) in
     y_true ← take y_true mask;
     y_pred ← take y_pred mask;
     d ← broadcast2 sub y_true y_pred;
     q ← broadcast2 div d y_true;
     let mape := mean (fabs <$> q) in
     Ok mape)
    (λ _, Ok (Fin 0)).

Definition SMAPE (y_true y_pred : arg) : result npfloat :=
  try_except
    (let y_true := ravel y_true in
     let y_pred := ravel y_pred in
     s ← broadcast2 add (fabs <$> y_true) (fabs <$> y_pred);
     let mask := where_ (ne0 <$> s) in
     y_true ← take y_true mask;
     y_pred ← take y_pred mask;
     d ← broadcast2 sub y_true y_pred;
     let nominator := fabs <$> d in
     denominator ← broadcast2 add (fabs <$> y_true) (fabs <$> y_pred);
     q ← broadcast2 div (mul (Fin 2) <$> nominator) denominator;
     let smape := mean q in
     Ok smape)
    (λ _, Ok (Fin 0)).

Definition MSE (y_true y_pred : arg) : result npfloat :=
  let y_true := ravel y_true in
  let y_pred := ravel y_pred in
  d ← broadcast2 sub y_true y_pred;
  let mse := mean (square <$> d) in
  Ok mse.

Definition RMSE (y_true y_pred : arg) : result npfloat :=
  let y_true := ravel y_true in
  let y_pred := ravel y_pred in
  m ← MSE (Series y_true) (Series y_pred);
  let rmse := Np.sqrt m in
  Ok rmse.

Definition MAE (y_true y_pred : arg) : result npfloat :=
  let y_true := ravel y_true in
  let y_pred := ravel y_pred in
  d ← broadcast2 sub y_true y_pred;
  let mae := mean (fabs <$> d) in
  Ok mae.

(** ** The error functions in float64 arithmetic

    The same five functions on the kernel's binary64 floats (IEEE 754,
    round to nearest even), for two single values.  That is how aggregate
    mode calls them, and two columns of one row give the same numbers:
    [np.array(y).ravel()] is the one-element array [[y]], the sum of a
    one-element array is its element and its length is 1.  A float
    division by zero is not an exception in numpy (it gives an infinity or
    a nan, with a warning), so the [try] blocks never catch anything
    here. *)

Module F64.

Import PrimFloat.
#[local] Open Scope float_scope.

Abbreviation float64 := float.

(** [x != 0]: a nan is different from zero. *)
Definition ne0 (x : float64) : bool := negb (x =? 0).

(** [np.mean] of the array [[x]], and of the empty array (0.0 / 0). *)
Definition mean1 (x : float64) : float64 := x / 1.
Definition mean0 : float64 := 0 / 0.

Definition MAPE (y_true y_pred : float64) : float64 :=
  if ne0 y_true then
    let mape := mean1 (abs ((y_true - y_pred) / y_true)) in
    mape
  else mean0.


Definition SMAPE (y_true y_pred : float64) : float64 :=
  if ne0 (abs y_true + abs y_pred) then
    let nominator := abs (y_true - y_pred) in
    let denominator := abs y_true + abs y_pred in
    let smape := mean1 (2 * nominator / denominator) in
    smape
  else mean0.

Definition MSE (y_true y_pred : float64) : float64 :=
  let d := y_true - y_pred in
  let mse := mean1 (d * d) in
  mse.

Definition RMSE (y_true y_pred : float64) : float64 :=
  let rmse := sqrt (MSE y_true y_pred) in
  rmse.

Definition MAE (y_true y_pred : float64) : float64 :=
  let mae := mean1 (abs (y_true - y_pred)) in
  mae.

Definition eq (x y : float64) : bool := x =? y.

(** The floats written 0.0, 2.0, inf, 1e308, -1e308, 5e307, -5e307, 1e200
    and 1e-200 in Python. *)
Definition zero : float64 := 0.
Definition inf : float64 := infinity.
Definition f_1e200 : float64 := 0x1.4e718d7d7625ap+664.
Definition f_1e_200 : float64 := 0x1.87e92154ef7acp-665.

End F64.

(** ** The squared error on int64 values

    On an int64 column the difference and its square are int64 values:
    numpy computes them modulo 2^64, without a warning; only the mean is a
    float. *)

Module I64.

Definition wrap (n : Z) : Z := ((n + 2 ^ 63) mod 2 ^ 64 - 2 ^ 63)%Z.

(** [(y_true - y_pred) ** 2] on two single int64 values; [MSE] is the
    float of this number. *)
Definition squared_error (y_true y_pred : Z) : Z :=
  let d := wrap (y_true - y_pred) in
  wrap (d * d).

End I64.

(** ** pandas data frames *)

Module Pd.

(** A value held in a table cell. *)
Inductive cell : Type :=
| CFloat (x : npfloat)
| CInt (n : Z)
| CStr (s : string)
| CTime (t : Z).   (* a Timestamp, in seconds since the epoch *)

#[global] Instance cell_eq_dec : EqDecision cell.
Proof. solve_decision. Defined.

(** A frame: its index levels (a default [RangeIndex] is one unnamed
    level [0 .. n-1]) and its columns, in order. *)
Record DataFrame : Type := mkDataFrame {
  df_index : list (option string * list cell);
  df_columns : list (string * list cell)
}.

Definition range_index (n : nat) : list (option string * list cell) :=
  [(None, (λ i, CInt (Z.of_nat i)) <$> seq 0 n)].

Definition nrows (df : DataFrame) : nat :=
  match df_index df with
  | (_, c) :: _ => length c
  | [] => 0
  end.

(** *** Association lists (ordered, first match wins) *)

Fixpoint assoc {V} (k : string) (l : list (string * V)) : option V :=
  match l with
  | [] => None
  | (k', v) :: l' => if decide (k = k') then Some v else assoc k l'
  end.

(** Replace the first binding of [k], or append a new one at the end. *)
Fixpoint assoc_set {V} (k : string) (v : V) (l : list (string * V))
  : list (string * V) :=
  match l with
  | [] => [(k, v)]
  | (k', v') :: l' =>
      if decide (k = k') then (k, v) :: l' else (k', v') :: assoc_set k v l'
  end.

(** *** Cell order *)

(** The float64 value of a numeric cell.  An int64 entry is converted
    without loss (the wrap-around of int64 arithmetic is not part of the
    tables, see [I64]).  The row and group accessors below convert a
    column before the error function is called, so a column of strings
    raises [TypeError] there; in Python the fault occurs inside the error
    function, where the bare [except] of [MAPE] and [SMAPE] catches it.
    The statements of this file are about numeric columns. *)
Definition as_float (c : cell) : result npfloat :=
  match c with
  | CFloat x => Ok x
  | CInt n => Ok (Fin (IZR n))
  | _ => Raise TypeError
  end.

Definition kind_rank (c : cell) : nat :=
  match c with
  | CFloat _ | CInt _ => 0
  | CStr _ => 1
  | CTime _ => 2
  end.

(** Numbers in increasing order, a nan after every number. *)
Definition npfloat_leb (a b : npfloat) : bool :=
  match a, b with
  | Fin x, Fin y => bool_decide (x <= y)%R
  | _, NaN => true
  | NaN, Fin _ => false
  end.

Definition num_of (c : cell) : npfloat :=
  match c with
  | CFloat x => x
  | CInt n => Fin (IZR n)
  | _ => NaN
  end.

(** Strings compare lexicographically, timestamps and numbers by value.
    Cells of different kinds are not comparable in Python: sorting them
    is a [TypeError] (see [sorted_cells]); the order between kinds below
    only makes the relation total. *)
Definition cell_leb (a b : cell) : bool :=
  match a, b with
  | CStr s, CStr t => String.leb s t
  | CTime s, CTime t => (s <=? t)%Z
  | _, _ =>
      if (kind_rank a =? kind_rank b)%nat then npfloat_leb (num_of a) (num_of b)
      else (kind_rank a <? kind_rank b)%nat
  end.

Definition homogeneous (l : list cell) : bool :=
  match l with
  | [] => true
  | c :: l' => forallb (λ c', (kind_rank c' =? kind_rank c)%nat) l'
  end.

Definition key_le (p q : cell * nat) : Prop := cell_leb p.1 q.1 = true.
#[global] Instance key_le_dec : RelDecision key_le.
Proof. intros p q. unfold key_le. apply _. Defined.

(** [sorted(...)] on a list of cells. *)
Definition sorted_cells (l : list cell) : result (list cell) :=
  if homogeneous l
  then Ok ((λ p : cell * nat, p.1) <$> merge_sort key_le (zip l (seq 0 (length l))))
  else Raise TypeError.

(** The row order of [sort_values]: the indexer pandas' [nargsort]
    computes.  For a descending sort it reverses the items, sorts them in
    ascending order and reverses the outcome. *)
Definition nargsort (ascending : bool) (keys : list cell) : list nat :=
  let items := zip keys (seq 0 (length keys)) in
  if ascending then (λ p : cell * nat, p.2) <$> merge_sort key_le items
  else reverse ((λ p : cell * nat, p.2) <$> merge_sort key_le (reverse items)).

(** *** Frame operations (each returns a new frame value) *)

(** [df[name]] *)
Definition getitem (name : string) (df : DataFrame) : result (list cell) :=
  match assoc name (df_columns df) with
  | Some c => Ok c
  | None => Raise (KeyError name)
  end.

(** [df[[n1, n2, ...]]]: a new frame with the named columns, same index. *)
Definition select (names : list string) (df : DataFrame) : result DataFrame :=
  cols ← result_mapM (λ n, c ← getitem n df; Ok (n, c)) names;
  Ok (mkDataFrame (df_index df) cols).

(** [df[name] = values]: replaces the column, or adds it as the last one;
    the length must be the frame's. *)
Definition setitem (name : string) (values : list cell) (df : DataFrame)
  : result DataFrame :=
  if decide (length values = nrows df)
  then Ok (mkDataFrame (df_index df) (assoc_set name values (df_columns df)))
  else Raise ValueError.

(** [df.set_index([n1, ...])]: the named columns become the index levels. *)
Definition set_index (names : list string) (df : DataFrame) : result DataFrame :=
  match names with
  | [] => Raise ValueError
  | _ :: _ =>
      levels ← result_mapM (λ n, c ← getitem n df; Ok (Some n, c)) names;
      Ok (mkDataFrame levels
            (filter (λ c : string * list cell, c.1 ∉ names) (df_columns df)))
  end.

Definition level_name (single : bool) (i : nat) (lv : option string * list cell)
  : string :=
  match lv.1 with
  | Some n => n
  | None => if single then "index" else "level_" +:+ pretty i
  end.

(** [df.reset_index()]: the index levels become the first columns. *)
Definition reset_index (df : DataFrame) : result DataFrame :=
  let single := bool_decide (length (df_index df) = 1) in
  let cols := imap (λ i lv, (level_name single i lv, lv.2)) (df_index df) in
  if forallb (λ c : string * list cell,
                bool_decide (assoc c.1 (df_columns df) = None)) cols
  then Ok (mkDataFrame (range_index (nrows df)) (cols ++ df_columns df))
  else Raise ValueError.

(** [df.reset_index(drop=True)] *)
Definition reset_index_drop (df : DataFrame) : DataFrame :=
  mkDataFrame (range_index (nrows df)) (df_columns df).

(** [df.rename(columns={old: new})] *)
Definition rename (old new : string) (df : DataFrame) : DataFrame :=
  mkDataFrame (df_index df)
    ((λ c : string * list cell, if decide (c.1 = old) then (new, c.2) else c)
       <$> df_columns df).

(** [df.copy()] *)
Definition copy (df : DataFrame) : DataFrame := df.

Definition take_cells (idx : list nat) (c : list cell) : list cell :=
  omap (λ i, c !! i) idx.

Definition take_rows (idx : list nat) (df : DataFrame) : DataFrame :=
  mkDataFrame
    ((λ lv : option string * list cell, (lv.1, take_cells idx lv.2)) <$> df_index df)
    ((λ c : string * list cell, (c.1, take_cells idx c.2)) <$> df_columns df).

(** [df.sort_values(name, ascending=...)] *)
Definition sort_values (name : string) (ascending : bool) (df : DataFrame)
  : result DataFrame :=
  keys ← getitem name df;
  if homogeneous keys then Ok (take_rows (nargsort ascending keys) df)
  else Raise TypeError.

(** [series.map(f)] and [series.astype(str)] act cell by cell. *)
Definition series_map (f : cell → result cell) (s : list cell)
  : result (list cell) :=
  result_mapM f s.

(** [pd.DataFrame({name: values})] *)
Definition of_dict (name : string) (values : list cell) : DataFrame :=
  mkDataFrame (range_index (length values)) [(name, values)].

(** *** Missing values and reductions *)

Definition notna (c : cell) : bool :=
  match c with
  | CFloat NaN => false
  | _ => true
  end.

Definition notnan (x : npfloat) : bool :=
  match x with
  | Fin _ => true
  | NaN => false
  end.

(** pandas reductions skip nan ([skipna=True]). *)
Definition nansum (xs : list npfloat) : npfloat := Np.sum (filter notnan xs).
Definition nanmean (xs : list npfloat) : npfloat := Np.mean (filter notnan xs).

(** [std] with pandas' default [ddof=1]: nan unless at least two values
    are left. *)
Definition nanstd (xs : list npfloat) : npfloat :=
  let vs := filter notnan xs in
  if decide (length vs ≤ 1) then NaN
  else
    let m := Np.mean vs in
    let ss := Np.sum (square <$> ((λ x, sub x m) <$> vs)) in
    Np.sqrt (lift1 (λ s, s / (INR (length vs) - 1))%R ss).

Definition reduce_axis0 (f : list npfloat → npfloat) (df : DataFrame)
  : result (list (string * cell)) :=
  result_mapM (λ c : string * list cell,
                 xs ← result_mapM as_float c.2; Ok (c.1, CFloat (f xs)))
    (df_columns df).

(** [df.mean(axis=0)] and [df.std(axis=0)]: one value per column. *)
Definition mean_axis0 : DataFrame → result (list (string * cell)) :=
  reduce_axis0 nanmean.
Definition std_axis0 : DataFrame → result (list (string * cell)) :=
  reduce_axis0 nanstd.

(** *** Setting a row by label *)

Definition index_row (i : nat) (df : DataFrame) : list cell :=
  omap (λ lv : option string * list cell, lv.2 !! i) (df_index df).

(** [df.loc[key] = series]: the series is aligned on the column names (a
    column it does not name gets nan).  Rows already labelled [key] are
    overwritten; when there is none the frame grows by one row. *)
Definition loc_set (key : list cell) (row : list (string * cell)) (df : DataFrame)
  : result DataFrame :=
  if decide (length key = length (df_index df)) then
    let hits := (λ i, bool_decide (index_row i df = key)) <$> seq 0 (nrows df) in
    let value (n : string) := default (CFloat NaN) (assoc n row) in
    if existsb (λ h : bool, h) hits
    then Ok (mkDataFrame (df_index df)
               ((λ c : string * list cell,
                   (c.1, zip_with (λ (h : bool) x, if h then value c.1 else x) hits c.2))
                  <$> df_columns df))
    else Ok (mkDataFrame
               (zip_with (λ (lv : option string * list cell) k, (lv.1, lv.2 ++ [k]))
                  (df_index df) key)
               ((λ c : string * list cell, (c.1, c.2 ++ [value c.1]))
                  <$> df_columns df))
  else Raise (KeyError "loc").

(** *** Group-by *)

(** The groups of [df.groupby(by)]: the distinct keys, nan dropped, in
    sorted order. *)
Definition group_keys (keys : list cell) : result (list cell) :=
  sorted_cells (remove_dups (filter (λ c, notna c) keys)).

(** The entries of a column that belong to the rows with key [k]. *)
Definition rows_where {A} (k : cell) (keys : list cell) (col : list A) : list A :=
  (λ p : cell * A, p.2) <$> filter (λ p : cell * A, p.1 = k) (zip keys col).

(** [df.groupby(by).agg({c: 'sum' for c in cols})]: indexed by group key. *)
Definition groupby_agg_sum (by_ : string) (cols : list string) (df : DataFrame)
  : result DataFrame :=
  keys ← getitem by_ df;
  gs ← group_keys keys;
  sums ← result_mapM
           (λ n, c ← getitem n df;
                 xs ← result_mapM as_float c;
                 Ok (n, (λ g, CFloat (nansum (rows_where g keys xs))) <$> gs))
           cols;
  Ok (mkDataFrame [(Some by_, gs)] sums).

(** [df.groupby(by)[cols].apply(f).sort_index().to_list()]: [f] receives
    the sub-frame of each group.  What pandas returns when there is no
    group at all depends on its version; the model raises. *)
Definition groupby_apply (by_ : string) (cols : list string)
    (f : list (string * list cell) → result cell) (df : DataFrame)
  : result (list cell) :=
  keys ← getitem by_ df;
  gs ← group_keys keys;
  cs ← result_mapM (λ n, c ← getitem n df; Ok (n, c)) cols;
  match gs with
  | [] => Raise ValueError
  | _ :: _ =>
      result_mapM
        (λ g, f ((λ c : string * list cell, (c.1, rows_where g keys c.2)) <$> cs))
        gs
  end.

Definition row_at (i : nat) (df : DataFrame) : list (string * cell) :=
  omap (λ c : string * list cell, x ← c.2 !! i; Some (c.1, x)) (df_columns df).

(** [df.apply(f, axis=1)]: [f] receives each row.  On a frame without
    rows pandas does not call [f] and what it returns depends on its
    version; the model raises. *)
Definition apply_axis1 (f : list (string * cell) → result cell) (df : DataFrame)
  : result (list cell) :=
  match nrows df with
  | 0 => Raise ValueError
  | S _ => result_mapM (λ i, f (row_at i df)) (seq 0 (nrows df))
  end.

End Pd.

Import Pd.

(** ** The store of frame objects *)

(** A Python variable holding a frame holds a reference to it. *)
Abbreviation loc := nat.

(** Computations that may raise and that read, allocate and update frames. *)
Definition M (A : Type) : Type := list DataFrame → result (A * list DataFrame).

#[global] Instance M_ret : MRet M := λ A a h, Ok (a, h).
#[global] Instance M_bind : MBind M :=
  λ A B f m h, match m h with
               | Ok (a, h') => f a h'
               | Raise e => Raise e
               end.

Definition lift {A} (r : result A) : M A :=
  λ h, match r with
       | Ok a => Ok (a, h)
       | Raise e => Raise e
       end.

(** A new object gets the next free reference. *)
Definition alloc (df : DataFrame) : M loc :=
  λ h, Ok (length h, h ++ [df]).

Definition load (l : loc) : M DataFrame :=
  λ h, match h !! l with
       | Some df => Ok (df, h)
       | None => Raise (BadReference l)
       end.

Definition store (l : loc) (df : DataFrame) : M unit :=
  λ h, match h !! l with
       | Some _ => Ok ((), <[l := df]> h)
       | None => Raise (BadReference l)
       end.

(** A method that returns a new frame: [l.f(...)]. *)
Definition new_from (l : loc) (f : DataFrame → result DataFrame) : M loc :=
  df ← load l; df' ← lift (f df); alloc df'.

(** An in-place update of the object behind [l]. *)
Definition mutate (l : loc) (f : DataFrame → result DataFrame) : M unit :=
  df ← load l; df' ← lift (f df); store l df'.

(** [for x in l: body] *)
Fixpoint for_ {A} (l : list A) (body : A → M unit) : M unit :=
  match l with
  | [] => mret ()
  | x :: l' => body x ;; for_ l' body
  end.

(** [{k: f(k) for k in keys}], built left to right. *)
Fixpoint dict_comp (keys : list string) (f : string → M loc)
    (acc : gmap string loc) : M (gmap string loc) :=
  match keys with
  | [] => mret acc
  | k :: keys' => v ← f k; dict_comp keys' f (<[k := v]> acc)
  end.

(** [d[k]] *)
Definition dict_get {V} (d : gmap string V) (k : string) : result V :=
  match d !! k with
  | Some v => Ok v
  | None => Raise (KeyError k)
  end.

(** ** Configuration *)

(** The [eval] dictionary. *)
Record eval_config : Type := mkEval {
  granularity : string;
  metrics : list string;
  get_perf_on_agg_forecast : bool
}.

(** The [dates] dictionary. *)
Record dates_config : Type := mkDates {
  folds_horizon : Z
}.

(** The [resampling] dictionary. *)
Record resampling_config : Type := mkResampling {
  freq : string
}.

(** The [config] dictionary: [config['metrics']] gives each metric its
    number of decimals. *)
Record format_config : Type := mkFormat {
  config_metrics : gmap string nat
}.

(** ** What the module imports *)

(** The module calls two helpers of the application that live in other
    files ([add_time_groupers], the [convert_into_nb_of_*] pair) and a few
    library functions whose result is a rendering (string conversion,
    [round], [str.format]).  They are taken as given. *)
Class Externals : Type := {
  (** [lib.evaluation.preparation.add_time_groupers]: returns a frame with
      time-bucket columns added. *)
  add_time_groupers : loc → M loc;
  (** [lib.utils.mapping]: a horizon expressed in days, in seconds. *)
  convert_into_nb_of_days : string → Z → Z;
  convert_into_nb_of_seconds : string → Z → Z;
  (** what [astype(str)] makes of a cell *)
  astype_str : cell → string;
  (** [round(x, ndigits)] *)
  py_round : npfloat → nat → npfloat;
  (** ['{:,.Nf}'.format(x)] for [N] decimals *)
  py_format : nat → npfloat → string
}.

(** [s[-1]] *)
Definition last_char (s : string) : result string :=
  match reverse (list_ascii_of_string s) with
  | c :: _ => Ok (String c EmptyString)
  | [] => Raise IndexError
  end.

(** [x + timedelta(seconds=n)] on a Timestamp. *)
Definition add_seconds (n : Z) (x : cell) : result cell :=
  match x with
  | CTime t => Ok (CTime (t + n))
  | _ => Raise TypeError
  end.

Definition metric_fn : Type := arg → arg → result npfloat.

(** [x.name] on a group's sub-frame: the column as an array. *)
Definition attr_series (name : string) (x : list (string * list cell)) : result arg :=
  match assoc name x with
  | Some c => xs ← result_mapM as_float c; Ok (Series xs)
  | None => Raise (KeyError name)
  end.

(** [x.name] on a row: one number. *)
Definition attr_scalar (name : string) (x : list (string * cell)) : result arg :=
  match assoc name x with
  | Some c => v ← as_float c; Ok (Scalar v)
  | None => Raise (KeyError name)
  end.

(** The dictionary [{'MAPE': MAPE, 'SMAPE': SMAPE, 'MSE': MSE, 'RMSE': RMSE,
    'MAE': MAE}] that [get_perf_metrics] builds. *)
Definition error_functions : gmap string metric_fn :=
  <["MAPE" := MAPE]> (<["SMAPE" := SMAPE]> (<["MSE" := MSE]>
    (<["RMSE" := RMSE]> (<["MAE" := MAE]> ∅)))).

(** ** The pipeline *)

Section Pipeline.

Context `{Externals}.

Definition _preprocess_eval_df (evaluation_df : loc) (use_cv : bool) : M loc :=
  if use_cv then
    df ← new_from evaluation_df (λ d, Ok (copy d));
    mret df
  else
    df ← add_time_groupers evaluation_df;
    mret df.

Definition _compute_metrics (df : loc) (metrics_ : gmap string metric_fn)
    (eval : eval_config) : M loc :=
  if get_perf_on_agg_forecast eval then
    metrics_df ← new_from df
      (λ d, g ← groupby_agg_sum (granularity eval) ["truth"; "forecast"] d;
            reset_index g);
    for_ (metrics eval)
      (λ m,
         d ← load metrics_df;
         sub_ ← lift (select ["truth"; "forecast"] d);
         col ← lift (apply_axis1
                       (λ x, f ← dict_get metrics_ m;
                             t ← attr_scalar "truth" x;
                             p ← attr_scalar "forecast" x;
                             r ← f t p;
                             Ok (CFloat r))
                       sub_);
         mutate metrics_df (setitem m col));;
    mret metrics_df
  else
    d ← load df;
    keys ← lift (getitem (granularity eval) d);
    ks ← lift (sorted_cells (remove_dups keys));
    metrics_df ← alloc (of_dict (granularity eval) ks);
    for_ (metrics eval)
      (λ m,
         d ← load df;
         col ← lift (groupby_apply (granularity eval) ["truth"; "forecast"]
                       (λ x, f ← dict_get metrics_ m;
                             t ← attr_series "truth" x;
                             p ← attr_series "forecast" x;
                             r ← f t p;
                             Ok (CFloat r))
                       d);
         mutate metrics_df (setitem m col));;
    mret metrics_df.

Definition __format_metrics_values (metrics_df : loc) (eval : eval_config)
    (config : format_config) : M loc :=
  let mapping_format := config_metrics config in
  let mapping_round := config_metrics config in
  for_ (metrics eval)
    (λ col,
       d ← load metrics_df;
       s ← lift (getitem col d);
       s' ← lift (series_map
                    (λ x, fmt ← dict_get mapping_format col;
                          nd ← dict_get mapping_round col;
                          v ← as_float x;
                          Ok (CStr (py_format fmt (py_round v nd))))
                    s);
       mutate metrics_df (setitem col s'));;
  mret metrics_df.

Definition __format_metrics_df_cv (metrics_df : loc) (dates : dates_config)
    (eval : eval_config) (resampling : resampling_config) : M loc :=
  metrics_df ← new_from metrics_df (λ d, Ok (rename "cutoff" "Valid Start" d));
  freq ← lift (last_char (freq resampling));
  let horizon := folds_horizon dates in
  (if bool_decide (freq ∈ ["s"; "H"]) then
     d ← load metrics_df;
     s ← lift (getitem "Valid Start" d);
     e ← lift (series_map
                 (add_seconds (convert_into_nb_of_seconds freq horizon)) s);
     mutate metrics_df (setitem "Valid End" ((λ c, CStr (astype_str c)) <$> e))
   else
     d ← load metrics_df;
     s ← lift (getitem "Valid Start" d);
     e ← lift (series_map
                 (add_seconds (86400 * convert_into_nb_of_days freq horizon)) s);
     mutate metrics_df (setitem "Valid End" ((λ c, CStr (astype_str c)) <$> e)));;
  (d ← load metrics_df;
   s ← lift (getitem "Valid Start" d);
   mutate metrics_df (setitem "Valid Start" ((λ c, CStr (astype_str c)) <$> s)));;
  metrics_df ← new_from metrics_df
    (λ d, d' ← sort_values "Valid Start" false d; Ok (reset_index_drop d'));
  (d ← load metrics_df;
   mutate metrics_df
     (setitem (granularity eval)
        ((λ i, CStr ("Fold " +:+ pretty i)) <$> seq 1 (nrows d))));;
  mret metrics_df.

Definition __add_avg_std_metrics (metrics_df : loc) (eval : eval_config) : M loc :=
  let cols_index := [granularity eval; "Valid Start"; "Valid End"] in
  metrics_df ← new_from metrics_df
    (λ d, s ← select (cols_index ++ metrics eval) d; set_index cols_index s);
  (d ← load metrics_df;
   avg ← lift (mean_axis0 d);
   mutate metrics_df (loc_set [CStr "Avg"; CStr ""; CStr "Average"] avg));;
  (d ← load metrics_df;
   std ← lift (std_axis0 d);
   mutate metrics_df (loc_set [CStr "Std"; CStr ""; CStr "+/-"] std));;
  metrics_df ← new_from metrics_df
    (λ d, r ← reset_index d; set_index [granularity eval] r);
  mret metrics_df.

Definition _format_eval_results (metrics_df : loc) (dates : dates_config)
    (eval : eval_config) (resampling : resampling_config) (use_cv : bool)
    (config : format_config) : M (loc * gmap string loc) :=
  '(metrics_df, metrics_dict) ←
    (if use_cv then
       metrics_df ← __format_metrics_df_cv metrics_df dates eval resampling;
       metrics_dict ← dict_comp (metrics eval)
         (λ m, new_from metrics_df (select [granularity eval; m])) ∅;
       metrics_df ← __add_avg_std_metrics metrics_df eval;
       mret (metrics_df, metrics_dict)
     else
       metrics_dict ← dict_comp (metrics eval)
         (λ m, new_from metrics_df (select [granularity eval; m])) ∅;
       metrics_df ← new_from metrics_df
         (λ d, s ← select (granularity eval :: metrics eval) d;
               set_index [granularity eval] s);
       mret (metrics_df, metrics_dict));
  metrics_df ← __format_metrics_values metrics_df eval config;
  mret (metrics_df, metrics_dict).

Definition get_perf_metrics (evaluation_df : loc) (eval : eval_config)
    (dates : dates_config) (resampling : resampling_config) (use_cv : bool)
    (config : format_config) : M (loc * gmap string loc) :=
  let metrics_ := error_functions in
  df ← _preprocess_eval_df evaluation_df use_cv;
  metrics_df ← _compute_metrics df metrics_ eval;
  '(metrics_df, metrics_dict) ←
    _format_eval_results metrics_df dates eval resampling use_cv config;
  mret (metrics_df, metrics_dict).

End Pipeline.

(** ** Vocabulary of the statements *)

(** [numpy.compress]: the entries whose condition holds. *)
Fixpoint compress {A} (c : list bool) (a : list A) : list A :=
  match c, a with
  | b :: c', x :: a' => if b then x :: compress c' a' else compress c' a'
  | _, _ => []
  end.

(** A table column of plain numbers. *)
Definition reals (l : list R) : ndarray := Fin <$> l.

Definition Rsum (l : list R) : R := foldr Rplus 0%R l.

(** The arithmetic mean of a non-empty list of reals. *)
Definition Rmean (l : list R) : R := (Rsum l / INR (length l))%R.

(** The (truth, forecast) pairs that MAPE keeps, and its terms. *)
Definition mape_kept (y_true y_pred : list R) : list (R * R) :=
  filter (λ p : R * R, p.1 ≠ 0%R) (zip y_true y_pred).
Definition mape_term (p : R * R) : R := Rabs ((p.1 - p.2) / p.1).

(** The pairs that SMAPE keeps, and its terms. *)
Definition smape_kept (y_true y_pred : list R) : list (R * R) :=
  filter (λ p : R * R, (Rabs p.1 + Rabs p.2)%R ≠ 0%R) (zip y_true y_pred).
Definition smape_term (p : R * R) : R :=
  (2 * Rabs (p.1 - p.2) / (Rabs p.1 + Rabs p.2))%R.



(** The sum of a column over the rows of one group. *)
Definition group_total (g : cell) (keys : list cell) (xs : list R) : R :=
  Rsum (rows_where g keys xs).

(** What an error function returns on two single numbers. *)
Definition scalar_score (f : metric_fn) (a b : R) : npfloat :=
  match f (Scalar (Fin a)) (Scalar (Fin b)) with
  | Ok v => v
  | Raise _ => NaN
  end.

(** A column of floats. *)
Definition floats (xs : list npfloat) : list cell := CFloat <$> xs.

(** The names of the five error functions. *)
Definition metric_names : list string := ["MAPE"; "SMAPE"; "MSE"; "RMSE"; "MAE"].

(** The table that aggregate mode builds for the groups [gs]: the group
    keys, the two totals, and one score column per metric computed so far. *)
Definition totals_col (gs keys : list cell) (xs : list R) : list cell :=
  (λ g, CFloat (Fin (group_total g keys xs))) <$> gs.

Definition score_col (gs keys : list cell) (ts fs : list R) (m : string)
  : list cell :=
  match error_functions !! m with
  | Some f =>
      (λ g, CFloat (scalar_score f (group_total g keys ts) (group_total g keys fs)))
        <$> gs
  | None => []
  end.

Definition agg_table (gran : string) (gs keys : list cell) (ts fs : list R)
    (computed : list string) : DataFrame :=
  mkDataFrame (range_index (length gs))
    (foldl (λ cols m, assoc_set m (score_col gs keys ts fs m) cols)
       [(gran, gs); ("truth", totals_col gs keys ts);
        ("forecast", totals_col gs keys fs)]
       computed).

(** The two groups of the worked example: group A with truth [10, 10] and
    forecast [10, 10], group B with truth [0, 0] and forecast [5, 5]. *)
Definition example_table : DataFrame :=
  mkDataFrame (range_index 4)
    [("bucket", [CStr "A"; CStr "A"; CStr "B"; CStr "B"]);
     ("truth", floats (reals [10%R; 10%R; 0%R; 0%R]));
     ("forecast", floats (reals [10%R; 10%R; 5%R; 5%R]))].

Definition example_eval_aggregate : eval_config :=
  mkEval "bucket" ["MAE"] true.

(** The cross-validation table once the summary rows are in: the fold
    rows of a metric column followed by the "Avg" entry and the "Std" entry
    as the code computes them. *)
Definition summary_col (xs : list npfloat) : list cell :=
  floats (xs ++ [nanmean xs; nanstd (xs ++ [nanmean xs])]).

Definition avg_std_index (gran : string) (labels starts ends : list cell)
  : list (option string * list cell) :=
  [(Some gran, labels ++ [CStr "Avg"; CStr "Std"]);
   (Some "Valid Start", starts ++ [CStr ""; CStr ""]);
   (Some "Valid End", ends ++ [CStr "Average"; CStr "+/-"])].

Definition avg_std_table (gran : string) (labels starts ends : list cell)
    (ms : list string) (xs : string → list npfloat) : DataFrame :=
  mkDataFrame [(Some gran, labels ++ [CStr "Avg"; CStr "Std"])]
    ([("Valid Start", starts ++ [CStr ""; CStr ""]);
      ("Valid End", ends ++ [CStr "Average"; CStr "+/-"])]
     ++ ((λ m, (m, summary_col (xs m))) <$> ms)).

(** The sample standard deviation (N-1 denominator) of a list of reals. *)
Definition sample_std (l : list R) : R :=
  R_sqrt.sqrt (Rsum ((λ x, (x - Rmean l) * (x - Rmean l))%R <$> l)
               / (INR (length l) - 1)).

(** A cross-validation table with two folds, as [__format_metrics_df_cv]
    leaves it: MAE 1 on the most recent fold and 3 on the one before. *)
Definition example_cv_table : DataFrame :=
  mkDataFrame (range_index 2)
    [("Valid Start", [CStr "2021-02-01"; CStr "2021-01-01"]);
     ("MAE", floats (reals [1%R; 3%R]));
     ("Valid End", [CStr "2021-02-08"; CStr "2021-01-08"]);
     ("cutoff", [CStr "Fold 1"; CStr "Fold 2"])].

Definition example_eval_cv : eval_config := mkEval "cutoff" ["MAE"] false.

(** The cross-validation table as [__format_metrics_df_cv] builds it from
    the columns [cols] of the metrics table, whose "cutoff" column holds the
    timestamps [ts]; [delta] is the horizon in seconds. *)
Section CvTable.

Context `{Externals}.

Definition render_time (t : Z) : cell := CStr (astype_str (CTime t)).

(** Before sorting: "cutoff" renamed, "Valid End" added, both rendered. *)
Definition cv_unsorted (cols : list (string * list cell)) (ts : list Z)
    (delta : Z) : DataFrame :=
  mkDataFrame (range_index (length ts))
    (assoc_set "Valid Start" (render_time <$> ts)
       (assoc_set "Valid End" ((λ t, render_time (t + delta)) <$> ts)
          (df_columns (rename "cutoff" "Valid Start" (mkDataFrame [] cols))))).

(** The order in which the rows come out. *)
Definition cv_order (ts : list Z) : list nat :=
  nargsort false (render_time <$> ts).

Definition fold_labels (n : nat) : list cell :=
  (λ i, CStr ("Fold " +:+ pretty i)) <$> seq 1 n.

Definition cv_table (gran : string) (cols : list (string * list cell))
    (ts : list Z) (delta : Z) : DataFrame :=
  mkDataFrame (range_index (length ts))
    (assoc_set gran (fold_labels (length ts))
       (df_columns (take_rows (cv_order ts) (cv_unsorted cols ts delta)))).

(** The timestamp at a row position of the input table. *)
Definition cutoff_at (ts : list Z) (i : nat) : Z := default 0%Z (ts !! i).

(** The horizon the source adds to a fold's start. *)
Definition cv_delta (fq : string) (horizon : Z) : Z :=
  if bool_decide (fq ∈ ["s"; "H"]) then convert_into_nb_of_seconds fq horizon
  else 86400 * convert_into_nb_of_days fq horizon.

End CvTable.

(** ** A sample environment

    To run the pipeline on examples the imports need values.  The two
    horizon helpers follow the application's table of units; timestamps are
    rendered in ISO form, as pandas does: the date alone for a timestamp at
    midnight, the date and the time for another one (pandas chooses between
    the two for a whole column, so the sample is meant for columns that do
    not mix the two kinds); the time-bucket helper returns a copy.
    Rendering a real number needs its decimal expansion, which cannot be
    computed, so the sample formatter writes ["#"] for a number and the
    sample rounding leaves it as it is. *)

Fixpoint zeros (k : nat) : string :=
  match k with
  | 0 => ""
  | S k' => "0" +:+ zeros k'
  end.

Definition pad (width : nat) (n : Z) : string :=
  let digits := pretty (Z.to_nat n) in
  zeros (width - String.length digits) +:+ digits.

(** The civil date of a day number counted from 1970-01-01. *)
Definition civil_from_days (days : Z) : Z * Z * Z :=
  let z := (days + 719468)%Z in
  let era := (z / 146097)%Z in
  let doe := (z - era * 146097)%Z in
  let yoe := ((doe - doe / 1460 + doe / 36524 - doe / 146096) / 365)%Z in
  let doy := (doe - (365 * yoe + yoe / 4 - yoe / 100))%Z in
  let mp := ((5 * doy + 2) / 153)%Z in
  let d := (doy - (153 * mp + 2) / 5 + 1)%Z in
  let m := (if (mp <? 10)%Z then mp + 3 else mp - 9)%Z in
  let y := (yoe + era * 400 + (if (m <=? 2)%Z then 1 else 0))%Z in
  (y, m, d).

Definition iso_date (t : Z) : string :=
  let '(y, m, d) := civil_from_days (t / 86400) in
  pad 4 y +:+ "-" +:+ pad 2 m +:+ "-" +:+ pad 2 d.

Definition iso_datetime (t : Z) : string :=
  let secs := (t mod 86400)%Z in
  iso_date t +:+ " "
  +:+ pad 2 (secs / 3600) +:+ ":" +:+ pad 2 (secs mod 3600 / 60) +:+ ":"
  +:+ pad 2 (secs mod 60).

Definition sample_nb_of_days (fq : string) (horizon : Z) : Z :=
  if decide (fq = "s") then (horizon / 86400)%Z
  else if decide (fq = "H") then (horizon / 24)%Z
  else if decide (fq = "W") then (horizon * 7)%Z
  else if decide (fq = "M") then (horizon * 30)%Z
  else if decide (fq = "Q") then (horizon * 90)%Z
  else if decide (fq = "Y") then (horizon * 365)%Z
  else horizon.

Definition sample_nb_of_seconds (fq : string) (horizon : Z) : Z :=
  if decide (fq = "s") then horizon
  else if decide (fq = "H") then (horizon * 3600)%Z
  else (sample_nb_of_days fq horizon * 86400)%Z.

Definition sample_externals : Externals := {|
  add_time_groupers := λ l, new_from l (λ d, Ok (copy d));
  convert_into_nb_of_days := sample_nb_of_days;
  convert_into_nb_of_seconds := sample_nb_of_seconds;
  astype_str := λ c, match c with
                     | CTime t => if decide (t mod 86400 = 0)%Z
                                  then iso_date t else iso_datetime t
                     | CStr s => s
                     | CInt n => pretty n
                     | CFloat _ => "#"
                     end;
  py_round := λ x _, x;
  py_format := λ _ x, match x with
                      | Fin _ => "#"
                      | NaN => "nan"
                      end
|}.

(** Three folds, given out of order: 2021-01-01, 2021-03-01, 2021-02-01. *)
Definition example_folds : list Z := [1609459200; 1614556800; 1612137600]%Z.

Definition example_metrics_table : DataFrame :=
  mkDataFrame (range_index 3)
    [("cutoff", CTime <$> example_folds);
     ("MAE", floats (reals [1%R; 3%R; 2%R]))].

Definition example_dates : dates_config := mkDates 7.
Definition example_resampling : resampling_config := mkResampling "D".

(** The invariant of the scoring loop: the table behind [lm] has a float
    column for every metric processed so far, and its key column is
    untouched as long as no metric bears the key's name. *)
Definition scored (lm : loc) (gran : string) (ms : list string) (ks : list cell)
    (computed : list string) (h : list DataFrame) : Prop :=
  ∃ X, h !! lm = Some X
       ∧ (∀ m, m ∈ computed → ∃ xs, getitem m X = Ok (floats xs))
       ∧ (gran ∉ ms → getitem gran X = Ok ks).

(** A call in plain mode and one in cross-validation mode. *)
Definition example_eval_plain : eval_config := mkEval "bucket" ["MAE"; "MSE"] false.

Definition example_config : format_config :=
  mkFormat (<["MAE" := 2]> (<["MSE" := 1]> ∅)).

Definition example_evaluation_cv : DataFrame :=
  mkDataFrame (range_index 4)
    [("cutoff", CTime <$> [1609459200; 1614556800; 1612137600; 1612137600]%Z);
     ("truth", floats (reals [1%R; 3%R; 2%R; 5%R]));
     ("forecast", floats (reals [2%R; 3%R; 4%R; 5%R]))].

(** ** Vocabulary of the further properties *)


(** The worked example scored with the two percentage errors on totals. *)
Definition example_eval_percentage : eval_config :=
  mkEval "bucket" ["MAPE"; "SMAPE"] true.

(** What an error function returns on the rows of one group. *)
Definition series_score (f : metric_fn) (a b : list R) : npfloat :=
  match f (Series (reals a)) (Series (reals b)) with
  | Ok v => v
  | Raise _ => NaN
  end.

Definition group_score_col (gs keys : list cell) (ts fs : list R) (m : string)
  : list cell :=
  match error_functions !! m with
  | Some f =>
      (λ g, CFloat (series_score f (rows_where g keys ts) (rows_where g keys fs)))
        <$> gs
  | None => []
  end.

(** The table that per-group mode builds for the groups [gs]: the group
    keys and one score column per metric computed so far. *)
Definition group_table (gran : string) (gs keys : list cell) (ts fs : list R)
    (computed : list string) : DataFrame :=
  mkDataFrame (range_index (length gs))
    (foldl (λ cols m, assoc_set m (group_score_col gs keys ts fs m) cols)
       [(gran, gs)] computed).

Definition example_eval_per_group : eval_config :=
  mkEval "bucket" ["MAE"] false.

(** A table in which every group has one row. *)
Definition example_single_rows : DataFrame :=
  mkDataFrame (range_index 2)
    [("bucket", [CStr "A"; CStr "B"]);
     ("truth", floats (reals [10%R; 0%R]));
     ("forecast", floats (reals [10%R; 5%R]))].

(** What the loop body of [__format_metrics_values] does for one column. *)
Definition format_body `{Externals} (config : format_config) (l : loc)
    (col : string) : M unit :=
  d ← load l;
  s ← lift (getitem col d);
  s' ← lift (series_map
               (λ x, fmt ← dict_get (config_metrics config) col;
                     nd ← dict_get (config_metrics config) col;
                     v ← as_float x;
                     Ok (CStr (py_format fmt (py_round v nd))))
               s);
  mutate l (setitem col s').

(** The display table [d'] once the columns [done_] of the table [d] have
    been formatted: same index, same column names in the same order, the
    columns [done_] rendered and the others as in [d]. *)
Definition formatted `{Externals} (d : DataFrame) (xs : string → list npfloat)
    (nd : string → nat) (done_ : list string) (d' : DataFrame) : Prop :=
  df_index d' = df_index d
  ∧ (df_columns d').*1 = (df_columns d).*1
  ∧ ∀ c, getitem c d'
         = if decide (c ∈ done_)
           then Ok ((λ x, CStr (py_format (nd c) (py_round x (nd c)))) <$> xs c)
           else getitem c d.

(** A display table before formatting. *)
Definition example_display : DataFrame :=
  mkDataFrame [(Some "bucket", [CStr "A"; CStr "B"])]
    [("MAE", floats (reals [1%R; 3%R]))].

(** A computation that only touches objects allocated at position [k] or
    later: run from a store of at least [k] objects, it leaves the first
    [k] as they are, and what it returns satisfies [Q]. *)
Definition preserves {A} (k : nat) (Q : A → Prop) (m : M A) : Prop :=
  ∀ h r h', k ≤ length h → m h = Ok (r, h') →
    firstn k h' = firstn k h ∧ k ≤ length h' ∧ Q r.

(** A table whose key column has a missing value. *)
Definition example_nan_key : DataFrame :=
  mkDataFrame (range_index 2)
    [("bucket", [CFloat (Fin 1); CFloat NaN]);
     ("truth", floats (reals [10%R; 0%R]));
     ("forecast", floats (reals [10%R; 5%R]))].

(** * Properties *)

(** ** The error monad *)

Lemma result_mapM_app {A B} (f : A → result B) (l1 l2 : list A) :
  result_mapM f (l1 ++ l2) =
  (ys1 ← result_mapM f l1; ys2 ← result_mapM f l2; Ok (ys1 ++ ys2)).
Proof.
  induction l1 as [|x l1 IH]; simpl.
  - destruct (result_mapM f l2); reflexivity.
  - destruct (f x) as [y|e]; simpl; [|reflexivity].
    rewrite IH. destruct (result_mapM f l1); simpl; [|reflexivity].
    destruct (result_mapM f l2); reflexivity.
Qed.

Lemma result_mapM_Ok {A B} (f : A → result B) (g : A → B) (l : list A) :
  (∀ x, x ∈ l → f x = Ok (g x)) → result_mapM f l = Ok (g <$> l).
Proof.
  induction l as [|x l IH]; intros Hf; simpl; [reflexivity|].
  rewrite Hf by left. simpl. rewrite IH; [reflexivity|].
  intros y Hy. apply Hf. by right.
Qed.

Lemma result_mapM_fmap {A B C} (f : B → result C) (g : A → B) (l : list A) :
  result_mapM f (g <$> l) = result_mapM (λ x, f (g x)) l.
Proof.
  induction l as [|x l IH]; [done|].
  change (g <$> x :: l) with (g x :: (g <$> l)). simpl. by rewrite IH.
Qed.

Lemma result_mapM_length {A B} (f : A → result B) (l : list A) (ys : list B) :
  result_mapM f l = Ok ys → length ys = length l.
Proof.
  revert ys. induction l as [|x l IH]; simpl; intros ys Hys.
  - by inversion Hys.
  - destruct (f x) as [y|e]; simpl in Hys; [|discriminate].
    destruct (result_mapM f l) as [ys'|e]; simpl in Hys; [|discriminate].
    inversion Hys; subst. simpl. f_equal. by apply IH.
Qed.

(** ** numpy arrays *)

Lemma length_compress_le {A} (c : list bool) (a : list A) :
  length (compress c a) ≤ length a.
Proof.
  revert a. induction c as [|b c IH]; intros [|x a]; simpl; try lia.
  specialize (IH a). destruct b; simpl; lia.
Qed.

Lemma take_where_from (pre a : ndarray) (c : list bool) :
  length c ≤ length a →
  take (pre ++ a) (where_from (length pre) c) = Ok (compress c a).
Proof.
  revert pre a. induction c as [|b c IH]; intros pre a Hlen; simpl.
  - by destruct a.
  - destruct a as [|x a]; simpl in Hlen; [lia|].
    unfold take in *. rewrite result_mapM_app.
    specialize (IH (pre ++ [x]) a ltac:(lia)).
    rewrite length_app, <- app_assoc in IH. simpl in IH.
    replace (length pre + 1) with (S (length pre)) in IH by lia.
    rewrite IH. destruct b; simpl; [|reflexivity].
    rewrite (list_lookup_middle pre a x (length pre) eq_refl). reflexivity.
Qed.

Lemma take_where (a : ndarray) (c : list bool) :
  length c ≤ length a → take a (where_ c) = Ok (compress c a).
Proof. intros Hlen. apply (take_where_from [] a c Hlen). Qed.

Lemma broadcast2_same_length f (a b : ndarray) :
  length a = length b → broadcast2 f a b = Ok (zip_with f a b).
Proof. intros Hlen. unfold broadcast2. by rewrite decide_True. Qed.

Lemma zip_with_reals_fmap {X} (f : npfloat → npfloat → npfloat)
    (g1 g2 g : X → R) (k : list X) :
  (∀ p, p ∈ k → f (Fin (g1 p)) (Fin (g2 p)) = Fin (g p)) →
  zip_with f (reals (g1 <$> k)) (reals (g2 <$> k)) = reals (g <$> k).
Proof.
  induction k as [|p k IH]; intros Hf; simpl; [reflexivity|].
  rewrite Hf by left. f_equal. apply IH. intros q Hq. apply Hf. by right.
Qed.

Lemma zip_with_reals (f : npfloat → npfloat → npfloat) (g : R → R → R)
    (a b : list R) :
  (∀ x y, (x, y) ∈ zip a b → f (Fin x) (Fin y) = Fin (g x y)) →
  zip_with f (reals a) (reals b) = reals (zip_with g a b).
Proof.
  revert b. induction a as [|x a IH]; intros [|y b] Hf; simpl; try reflexivity.
  rewrite Hf by left. f_equal. apply IH. intros x' y' Hin. apply Hf. by right.
Qed.

Lemma sum_reals (l : list R) : Np.sum (reals l) = Fin (Rsum l).
Proof.
  induction l as [|x l IH]; simpl; [reflexivity|].
  unfold Np.sum, reals in *. simpl. rewrite IH. reflexivity.
Qed.

Lemma mean_reals (l : list R) :
  l ≠ [] → mean (reals l) = Fin (Rmean l).
Proof.
  intros Hne. destruct l as [|x l]; [done|].
  unfold mean. change (Fin <$> x :: l) with (reals (x :: l)).
  change (Fin x :: reals l) with (reals (x :: l)).
  rewrite sum_reals. unfold reals. rewrite length_fmap. reflexivity.
Qed.

Lemma mean_reals_nil : mean (reals []) = NaN.
Proof. reflexivity. Qed.

Lemma fmap_lift1_reals (f : R → R) (l : list R) :
  lift1 f <$> reals l = reals (f <$> l).
Proof. unfold reals. by rewrite <- !list_fmap_compose. Qed.

Lemma Rsum_lower (lo : R) (l : list R) :
  Forall (λ x, lo <= x)%R l → (lo * INR (length l) <= Rsum l)%R.
Proof.
  induction 1 as [|x l Hx _ IH].
  - simpl. lra.
  - change (Rsum (x :: l)) with (x + Rsum l)%R.
    change (length (x :: l)) with (S (length l)). rewrite S_INR. lra.
Qed.

Lemma Rsum_upper (hi : R) (l : list R) :
  Forall (λ x, x <= hi)%R l → (Rsum l <= hi * INR (length l))%R.
Proof.
  induction 1 as [|x l Hx _ IH].
  - simpl. lra.
  - change (Rsum (x :: l)) with (x + Rsum l)%R.
    change (length (x :: l)) with (S (length l)). rewrite S_INR. lra.
Qed.

Lemma INR_length_pos {A} (l : list A) : l ≠ [] → (0 < INR (length l))%R.
Proof. intros Hne. apply lt_0_INR. destruct l; [done|simpl; lia]. Qed.

Lemma Rmean_lower (lo : R) (l : list R) :
  l ≠ [] → Forall (λ x, lo <= x)%R l → (lo <= Rmean l)%R.
Proof.
  intros Hne Hall. pose proof (Rsum_lower lo l Hall).
  pose proof (INR_length_pos l Hne). unfold Rmean.
  apply Rmult_le_reg_r with (INR (length l)); [lra|].
  unfold Rdiv. rewrite Rmult_assoc, Rinv_l by lra. lra.
Qed.

Lemma Rmean_upper (hi : R) (l : list R) :
  l ≠ [] → Forall (λ x, x <= hi)%R l → (Rmean l <= hi)%R.
Proof.
  intros Hne Hall. pose proof (Rsum_upper hi l Hall).
  pose proof (INR_length_pos l Hne). unfold Rmean.
  apply Rmult_le_reg_r with (INR (length l)); [lra|].
  unfold Rdiv. rewrite Rmult_assoc, Rinv_l by lra. lra.
Qed.

Lemma Rmean_all_zero (l : list R) :
  l ≠ [] → Forall (λ x, x = 0%R) l → Rmean l = 0%R.
Proof.
  intros Hne Hall. apply Rle_antisym.
  - apply Rmean_upper; [done|].
    eapply Forall_impl; [exact Hall|]. intros x Hx. simpl in Hx. lra.
  - apply Rmean_lower; [done|].
    eapply Forall_impl; [exact Hall|]. intros x Hx. simpl in Hx. lra.
Qed.

(** ** What MAPE and SMAPE compute on columns of numbers *)

Section Masking.

Context (P : R * R → Prop) `{∀ p, Decision (P p)}.

Lemma compress_zip_fst (a b : list R) :
  length a = length b →
  compress ((λ p, bool_decide (P p)) <$> zip a b) (reals a)
  = reals (filter P (zip a b)).*1.
Proof.
  revert b. induction a as [|x a IH]; intros [|y b] Hlen; simpl in *;
    try done.
  rewrite filter_cons. case_bool_decide.
  - rewrite decide_True by done. simpl. f_equal. apply IH. lia.
  - rewrite decide_False by done. apply IH. lia.
Qed.

Lemma compress_zip_snd (a b : list R) :
  length a = length b →
  compress ((λ p, bool_decide (P p)) <$> zip a b) (reals b)
  = reals (filter P (zip a b)).*2.
Proof.
  revert b. induction a as [|x a IH]; intros [|y b] Hlen; simpl in *;
    try done.
  rewrite filter_cons. case_bool_decide.
  - rewrite decide_True by done. simpl. f_equal. apply IH. lia.
  - rewrite decide_False by done. apply IH. lia.
Qed.

End Masking.

Lemma ne0_reals_zip (a b : list R) :
  length a = length b →
  ne0 <$> reals a = (λ p : R * R, bool_decide (p.1 ≠ 0%R)) <$> zip a b.
Proof.
  revert b. induction a as [|x a IH]; intros [|y b] Hlen; simpl in *; try done.
  f_equal. apply IH. lia.
Qed.

Lemma MAPE_on_reals (y_true y_pred : list R) :
  length y_true = length y_pred →
  MAPE (Series (reals y_true)) (Series (reals y_pred))
  = Ok (mean (reals (mape_term <$> mape_kept y_true y_pred))).
Proof.
  intros Hlen. unfold MAPE. simpl.
  rewrite (ne0_reals_zip _ _ Hlen).
  rewrite !take_where
    by (unfold reals; rewrite !length_fmap, ?length_zip_with; lia).
  rewrite compress_zip_fst, compress_zip_snd by done.
  fold (mape_kept y_true y_pred). set (k := mape_kept y_true y_pred).
  simpl.
  rewrite broadcast2_same_length by (unfold reals; by rewrite !length_fmap).
  simpl.
  rewrite (zip_with_reals_fmap sub fst snd (λ p, p.1 - p.2)%R) by done.
  rewrite broadcast2_same_length by (unfold reals; by rewrite !length_fmap).
  simpl.
  rewrite (zip_with_reals_fmap Np.div (λ p, p.1 - p.2)%R fst
             (λ p, (p.1 - p.2) / p.1)%R).
  - unfold fabs. rewrite fmap_lift1_reals, <- list_fmap_compose. reflexivity.
  - intros p Hp. apply list_elem_of_filter in Hp as [Hp _].
    unfold Np.div. by rewrite decide_False.
Qed.

Lemma smape_mask_zip (a b : list R) :
  length a = length b →
  ne0 <$> zip_with add (fabs <$> reals a) (fabs <$> reals b)
  = (λ p : R * R, bool_decide ((Rabs p.1 + Rabs p.2)%R ≠ 0%R)) <$> zip a b.
Proof.
  revert b. induction a as [|x a IH]; intros [|y b] Hlen; simpl in *; try done.
  f_equal. apply IH. lia.
Qed.

Lemma SMAPE_on_reals (y_true y_pred : list R) :
  length y_true = length y_pred →
  SMAPE (Series (reals y_true)) (Series (reals y_pred))
  = Ok (mean (reals (smape_term <$> smape_kept y_true y_pred))).
Proof.
  intros Hlen. unfold SMAPE. simpl.
  rewrite broadcast2_same_length by (unfold reals; rewrite !length_fmap; lia).
  simpl. rewrite (smape_mask_zip _ _ Hlen).
  rewrite !take_where
    by (unfold reals; rewrite !length_fmap, ?length_zip_with; lia).
  rewrite compress_zip_fst, compress_zip_snd by done.
  fold (smape_kept y_true y_pred). set (k := smape_kept y_true y_pred).
  simpl.
  rewrite (broadcast2_same_length sub)
    by (unfold reals; by rewrite !length_fmap).
  simpl.
  rewrite (zip_with_reals_fmap sub fst snd (λ p, p.1 - p.2)%R) by done.
  unfold fabs. rewrite !fmap_lift1_reals, <- !list_fmap_compose.
  rewrite (broadcast2_same_length add)
    by (unfold reals; by rewrite !length_fmap).
  simpl.
  rewrite (zip_with_reals_fmap add (Rabs ∘ fst) (Rabs ∘ snd)
             (λ p, Rabs p.1 + Rabs p.2)%R) by done.
  change (mul (Fin 2)) with (lift1 (Rmult 2)).
  rewrite fmap_lift1_reals, <- list_fmap_compose.
  rewrite broadcast2_same_length by (unfold reals; by rewrite !length_fmap).
  simpl.
  rewrite (zip_with_reals_fmap Np.div _ _ smape_term); [reflexivity|].
  intros p Hp. apply list_elem_of_filter in Hp as [Hp _].
  unfold Np.div. simpl. by rewrite decide_False.
Qed.








(** Neither percentage error lets an exception out: the bare [except]
    turns whatever the body raises into the value 0. *)
Lemma MAPE_never_raises (y_true y_pred : arg) : ∃ v, MAPE y_true y_pred = Ok v.
Proof.
  unfold MAPE, try_except.
  match goal with |- ∃ v, match ?b with _ => _ end = _ => destruct b end; eauto.
Qed.

Lemma SMAPE_never_raises (y_true y_pred : arg) : ∃ v, SMAPE y_true y_pred = Ok v.
Proof.
  unfold SMAPE, try_except.
  match goal with |- ∃ v, match ?b with _ => _ end = _ => destruct b end; eauto.
Qed.

(** An exception inside the body does give 0: a forecast array that is too
    short for the mask is an [IndexError], which is swallowed. *)
Lemma MAPE_fault_gives_zero :
  MAPE (Series (reals [1%R; 2%R])) (Series (reals [1%R])) = Ok (Fin 0).
Proof.
  unfold MAPE. simpl. rewrite !bool_decide_eq_true_2 by lra. reflexivity.
Qed.

Lemma filter_none {A} (P : A → Prop) `{∀ x, Decision (P x)} (l : list A) :
  (∀ x, x ∈ l → ¬ P x) → filter P l = [].
Proof.
  induction l as [|x l IH]; intros Hnone; [reflexivity|].
  rewrite filter_cons, decide_False by (apply Hnone; left).
  apply IH. intros y Hy. apply Hnone. by right.
Qed.

Lemma elem_of_zip_fst_Forall (P : R → Prop) (a b : list R) (p : R * R) :
  Forall P a → p ∈ zip a b → P p.1.
Proof.
  intros Ha. revert b. induction Ha as [|x a Hx _ IH]; intros [|y b] Hin;
    simpl in Hin; try by apply not_elem_of_nil in Hin.
  apply elem_of_cons in Hin as [->|Hin]; [done|by eapply IH].
Qed.

(** When every denominator is zero nothing is left after masking; the mean
    of the empty array is nan and no exception is raised, so the handler
    never runs. *)
Lemma MAPE_all_zero_truth (y_true y_pred : list R) :
  length y_true = length y_pred →
  Forall (λ t, t = 0%R) y_true →
  MAPE (Series (reals y_true)) (Series (reals y_pred)) = Ok NaN.
Proof.
  intros Hlen Hz. rewrite MAPE_on_reals by done.
  assert (mape_kept y_true y_pred = []) as ->; [|reflexivity].
  apply filter_none. intros p Hp Hne. apply Hne.
  by apply (elem_of_zip_fst_Forall _ _ _ _ Hz Hp).
Qed.

Lemma SMAPE_all_zero_denominators (y_true y_pred : list R) :
  length y_true = length y_pred →
  Forall (λ p : R * R, (Rabs p.1 + Rabs p.2)%R = 0%R) (zip y_true y_pred) →
  SMAPE (Series (reals y_true)) (Series (reals y_pred)) = Ok NaN.
Proof.
  intros Hlen Hz. rewrite SMAPE_on_reals by done.
  assert (smape_kept y_true y_pred = []) as ->; [|reflexivity].
  apply filter_none. intros p Hp Hne. apply Hne.
  rewrite Forall_forall in Hz. by apply Hz.
Qed.

(** ** The claims about the error functions *)

(** C1 (the code departs from it).  The claim: when every denominator is
    zero MAPE and SMAPE return exactly 0, and they never raise.  On the
    code they never raise, but on such an input they return nan and not 0:
    for truth [0, 0] against forecast [5, 5], for the aggregated pair
    (0, 10) of the same group, and for SMAPE on two all-zero columns. *)
Theorem MAPE_SMAPE_zero_denominators_give_nan :
  MAPE (Series (reals [0%R; 0%R])) (Series (reals [5%R; 5%R])) = Ok NaN
  ∧ MAPE (Scalar (Fin 0)) (Scalar (Fin 10)) = Ok NaN
  ∧ SMAPE (Series (reals [0%R; 0%R])) (Series (reals [0%R; 0%R])) = Ok NaN
  ∧ Ok NaN ≠ Ok (Fin 0).
Proof.
  split; [|split; [|split]].
  - apply MAPE_all_zero_truth; [reflexivity|]. by repeat constructor.
  - apply (MAPE_all_zero_truth [0%R] [10%R]); [reflexivity|].
    by repeat constructor.
  - apply SMAPE_all_zero_denominators; [reflexivity|].
    repeat constructor; simpl; rewrite Rabs_R0; lra.
  - discriminate.
Qed.

(** C7.  On two columns of the same length RMSE is the square root of
    MSE; on non-empty columns MSE is the mean of the squared differences,
    which is not negative, and RMSE is its real square root. *)
Theorem RMSE_is_sqrt_of_MSE (y_true y_pred : list R) :
  length y_true = length y_pred →
  ∃ m : npfloat,
    MSE (Series (reals y_true)) (Series (reals y_pred)) = Ok m
    ∧ RMSE (Series (reals y_true)) (Series (reals y_pred)) = Ok (Np.sqrt m)
    ∧ (y_true ≠ [] →
       let mse := Rmean (zip_with (λ t f, (t - f) * (t - f))%R y_true y_pred) in
       m = Fin mse ∧ (0 <= mse)%R ∧ Np.sqrt m = Fin (R_sqrt.sqrt mse)).
Proof.
  intros Hlen. unfold RMSE, MSE. simpl.
  rewrite broadcast2_same_length by (unfold reals; by rewrite !length_fmap).
  simpl. eexists. split; [reflexivity|]. split; [reflexivity|].
  intros Hne. simpl.
  rewrite (zip_with_reals sub Rminus) by done.
  unfold square. rewrite fmap_lift1_reals.
  assert ((λ x, x * x)%R <$> zip_with Rminus y_true y_pred
          = zip_with (λ t f, (t - f) * (t - f))%R y_true y_pred) as ->.
  { clear. revert y_pred. induction y_true as [|t y_true IH];
      intros [|f y_pred]; simpl; [done..|]. by rewrite IH. }
  set (sq := zip_with _ y_true y_pred).
  assert (sq ≠ []) as Hsq.
  { subst sq. destruct y_true, y_pred; simpl in *; done. }
  assert (0 <= Rmean sq)%R as Hpos.
  { apply Rmean_lower; [done|]. subst sq. clear.
    revert y_pred. induction y_true as [|t y_true IH]; intros [|f y_pred];
      simpl; try by constructor.
    constructor; [exact (Rle_0_sqr (t - f))|apply IH]. }
  rewrite mean_reals by done. split; [reflexivity|]. split; [done|].
  unfold Np.sqrt. rewrite decide_False by lra. reflexivity.
Qed.

Lemma RMSE_is_sqrt_of_MSE_witness :
  ∃ m : npfloat,
    MSE (Series (reals [3%R; 1%R])) (Series (reals [1%R; 1%R])) = Ok m
    ∧ RMSE (Series (reals [3%R; 1%R])) (Series (reals [1%R; 1%R]))
      = Ok (Np.sqrt m)
    ∧ ([3%R; 1%R] ≠ [] →
       let mse := Rmean (zip_with (λ t f, (t - f) * (t - f))%R
                           [3%R; 1%R] [1%R; 1%R]) in
       m = Fin mse ∧ (0 <= mse)%R ∧ Np.sqrt m = Fin (R_sqrt.sqrt mse)).
Proof. apply (RMSE_is_sqrt_of_MSE [3%R; 1%R] [1%R; 1%R]). reflexivity. Defined.










(** Membership in a list that is written out. *)
Ltac elem_of_list := repeat first [by left | right].
Ltac not_elem_of_list H :=
  repeat (apply elem_of_cons in H as [H|H]; [discriminate H|]);
  by apply not_elem_of_nil in H.

(** ** The store monad *)

Lemma result_bind_inv {A B} (m : result A) (f : A → result B) (b : B) :
  m ≫= f = Ok b → ∃ a, m = Ok a ∧ f a = Ok b.
Proof. destruct m as [a|e]; simpl; [eauto|discriminate]. Qed.

Lemma bind_run {A B} (m : M A) (f : A → M B) (h : list DataFrame) :
  (m ≫= f) h = match m h with
                | Ok (a, h') => f a h'
                | Raise e => Raise e
                end.
Proof. reflexivity. Qed.

Lemma bind_inv {A B} (m : M A) (f : A → M B) (h : list DataFrame) r :
  (m ≫= f) h = Ok r → ∃ a h', m h = Ok (a, h') ∧ f a h' = Ok r.
Proof.
  rewrite bind_run. destruct (m h) as [[a h']|e]; [eauto|discriminate].
Qed.

Lemma ret_inv {A} (a : A) (h : list DataFrame) r :
  (mret a : M A) h = Ok r → r = (a, h).
Proof. intros Hr. by inversion Hr. Qed.

Lemma lift_inv {A} (x : result A) (h : list DataFrame) r :
  lift x h = Ok r → ∃ a, x = Ok a ∧ r = (a, h).
Proof. unfold lift. destruct x; intros Hr; inversion Hr; eauto. Qed.

Lemma load_inv (l : loc) (h : list DataFrame) r :
  load l h = Ok r → ∃ df, h !! l = Some df ∧ r = (df, h).
Proof. unfold load. destruct (h !! l); intros Hr; inversion Hr; eauto. Qed.

Lemma store_inv (l : loc) (df : DataFrame) (h : list DataFrame) r :
  store l df h = Ok r → l < length h ∧ r = ((), <[l := df]> h).
Proof.
  unfold store. destruct (h !! l) eqn:Hl; intros Hr; inversion Hr.
  split; [by eapply lookup_lt_Some|done].
Qed.

Lemma new_from_inv (l : loc) f (h : list DataFrame) r :
  new_from l f h = Ok r →
  ∃ df df', h !! l = Some df ∧ f df = Ok df' ∧ r = (length h, h ++ [df']).
Proof.
  unfold new_from. intros Hr.
  apply bind_inv in Hr as (df & h1 & Hload & Hr).
  apply load_inv in Hload as (df0 & Hl & [= <- <-]).
  apply bind_inv in Hr as (df' & h2 & Hlift & Hr).
  apply lift_inv in Hlift as (df1 & Hf & [= <- <-]).
  unfold alloc in Hr. inversion Hr. eauto.
Qed.

Lemma mutate_inv (l : loc) f (h : list DataFrame) r :
  mutate l f h = Ok r →
  ∃ df df', h !! l = Some df ∧ f df = Ok df' ∧ r = ((), <[l := df']> h).
Proof.
  unfold mutate. intros Hr.
  apply bind_inv in Hr as (df & h1 & Hload & Hr).
  apply load_inv in Hload as (df0 & Hl & [= <- <-]).
  apply bind_inv in Hr as (df' & h2 & Hlift & Hr).
  apply lift_inv in Hlift as (df1 & Hf & [= <- <-]).
  apply store_inv in Hr as [_ ->]. eauto.
Qed.

Lemma load_Ok (l : loc) (h : list DataFrame) df :
  h !! l = Some df → load l h = Ok (df, h).
Proof. unfold load. by intros ->. Qed.

Lemma new_from_Ok (l : loc) f (h : list DataFrame) df df' :
  h !! l = Some df → f df = Ok df' →
  new_from l f h = Ok (length h, h ++ [df']).
Proof.
  intros Hl Hf. unfold new_from.
  rewrite bind_run, (load_Ok _ _ _ Hl), bind_run. unfold lift. by rewrite Hf.
Qed.

Lemma mutate_Ok (l : loc) f (h : list DataFrame) df df' :
  h !! l = Some df → f df = Ok df' →
  mutate l f h = Ok ((), <[l := df']> h).
Proof.
  intros Hl Hf. unfold mutate.
  rewrite bind_run, (load_Ok _ _ _ Hl), bind_run. unfold lift. rewrite Hf.
  unfold store. by rewrite Hl.
Qed.

(** A loop whose body preserves an invariant indexed by the items already
    processed runs to its end and establishes the invariant for all items. *)
Lemma for_invariant {A} (I : list A → list DataFrame → Prop)
    (body : A → M unit) (done_ todo : list A) (h : list DataFrame) :
  I done_ h →
  (∀ pre x post h1, done_ ++ todo = pre ++ x :: post → length done_ ≤ length pre →
     I pre h1 → ∃ h2, body x h1 = Ok ((), h2) ∧ I (pre ++ [x]) h2) →
  ∃ h', for_ todo body h = Ok ((), h') ∧ I (done_ ++ todo) h'.
Proof.
  revert done_ h. induction todo as [|x todo IH]; intros done_ h HI Hbody.
  - exists h. rewrite app_nil_r. done.
  - simpl. destruct (Hbody done_ x todo h eq_refl (le_n _) HI) as (h2 & Hx & HI2).
    rewrite bind_run, Hx.
    destruct (IH (done_ ++ [x]) h2 HI2) as (h' & Hfor & HI').
    + intros pre y post h1 Heq Hlen. apply (Hbody pre y post h1).
      * by rewrite <- Heq, <- app_assoc.
      * rewrite length_app in Hlen. simpl in Hlen. lia.
    + exists h'. split; [done|]. by rewrite <- app_assoc in HI'.
Qed.

(** Conversely, the state after a loop that ran to its end is reached by
    running the body on each item in turn. *)
Lemma for_inv_invariant {A} (I : list DataFrame → Prop) (body : A → M unit)
    (l : list A) (h h' : list DataFrame) :
  I h →
  (∀ x h1 h2, x ∈ l → I h1 → body x h1 = Ok ((), h2) → I h2) →
  for_ l body h = Ok ((), h') → I h'.
Proof.
  revert h. induction l as [|x l IH]; intros h HI Hbody Hfor.
  - simpl in Hfor. apply ret_inv in Hfor. by inversion Hfor; subst.
  - simpl in Hfor. apply bind_inv in Hfor as ([] & h1 & Hx & Hfor).
    eapply IH; [|..|exact Hfor].
    + eapply Hbody; [by left|exact HI|exact Hx].
    + intros y h2 h3 Hy. apply Hbody. by right.
Qed.

(** ** Association lists *)

Lemma assoc_set_eq {V} (k : string) (v : V) (l : list (string * V)) :
  assoc k (assoc_set k v l) = Some v.
Proof.
  induction l as [|[k' v'] l IH]; simpl.
  - by rewrite decide_True.
  - destruct (decide (k = k')) as [->|Hne]; simpl.
    + by rewrite decide_True.
    + by rewrite decide_False.
Qed.

Lemma assoc_set_ne {V} (k k' : string) (v : V) (l : list (string * V)) :
  k ≠ k' → assoc k' (assoc_set k v l) = assoc k' l.
Proof.
  intros Hne. induction l as [|[k0 v0] l IH]; simpl.
  - by rewrite decide_False.
  - destruct (decide (k = k0)) as [->|Hne0]; simpl.
    + by rewrite !decide_False.
    + destruct (decide (k' = k0)); [done|apply IH].
Qed.

Lemma assoc_foldl_set_notin {V} (col : string → V) (ms : list string)
    (base : list (string * V)) (k : string) :
  k ∉ ms →
  assoc k (foldl (λ cols m, assoc_set m (col m) cols) base ms) = assoc k base.
Proof.
  revert base. induction ms as [|m ms IH]; intros base Hk; simpl; [done|].
  rewrite IH by (intros ?; apply Hk; by right).
  apply assoc_set_ne. intros ->. apply Hk. by left.
Qed.

Lemma assoc_foldl_set_in {V} (col : string → V) (ms : list string)
    (base : list (string * V)) (k : string) :
  k ∈ ms →
  assoc k (foldl (λ cols m, assoc_set m (col m) cols) base ms) = Some (col k).
Proof.
  revert base. induction ms as [|m ms IH]; intros base Hk; simpl.
  - by apply not_elem_of_nil in Hk.
  - destruct (decide (k ∈ ms)) as [Hin|Hnin]; [by apply IH|].
    apply elem_of_cons in Hk as [->|Hk]; [|done].
    rewrite assoc_foldl_set_notin by done. apply assoc_set_eq.
Qed.

(** ** Sorting and grouping *)

Lemma homogeneous_spec (l : list cell) :
  homogeneous l = true ↔
  ∀ c c', c ∈ l → c' ∈ l → kind_rank c = kind_rank c'.
Proof.
  destruct l as [|c0 l]; simpl.
  - split; [|done]. intros _ c c' Hc. by apply not_elem_of_nil in Hc.
  - rewrite forallb_forall. split.
    + intros Hall c c' Hc Hc'.
      assert (∀ x, x ∈ c0 :: l → kind_rank x = kind_rank c0) as Hk.
      { intros x Hx. apply elem_of_cons in Hx as [->|Hx]; [done|].
        apply Nat.eqb_eq, Hall. by apply list_elem_of_In. }
      by rewrite (Hk c), (Hk c').
    + intros Hall x Hx. apply Nat.eqb_eq, Hall; [right|left].
      by apply list_elem_of_In.
Qed.

Lemma homogeneous_incl (l l' : list cell) :
  homogeneous l = true → (∀ c, c ∈ l' → c ∈ l) → homogeneous l' = true.
Proof.
  rewrite !homogeneous_spec. intros Hl Hincl c c' Hc Hc'.
  apply Hl; by apply Hincl.
Qed.

Lemma sorted_cells_Ok (l : list cell) :
  homogeneous l = true → ∃ gs, sorted_cells l = Ok gs ∧ gs ≡ₚ l.
Proof.
  intros Hh. unfold sorted_cells. rewrite Hh. eexists. split; [reflexivity|].
  rewrite merge_sort_Permutation.
  change (λ p : cell * nat, p.1) with (@fst cell nat).
  rewrite fst_zip; [done|]. by rewrite length_seq.
Qed.

Lemma group_keys_Ok (keys : list cell) :
  homogeneous keys = true →
  ∃ gs, group_keys keys = Ok gs ∧ NoDup gs
        ∧ ∀ g, g ∈ gs ↔ g ∈ keys ∧ notna g = true.
Proof.
  intros Hh. unfold group_keys.
  destruct (sorted_cells_Ok (remove_dups (filter (λ c, notna c) keys)))
    as (gs & Hgs & Hperm).
  { apply (homogeneous_incl keys); [done|]. intros c Hc.
    apply elem_of_remove_dups, list_elem_of_filter in Hc. tauto. }
  exists gs. split; [done|]. split.
  - rewrite Hperm. apply NoDup_remove_dups.
  - intros g. rewrite Hperm, elem_of_remove_dups, list_elem_of_filter.
    rewrite Is_true_true. tauto.
Qed.

Lemma rows_where_fmap {A B} (f : A → B) (k : cell) (keys : list cell) (xs : list A) :
  rows_where k keys (f <$> xs) = f <$> rows_where k keys xs.
Proof.
  unfold rows_where. revert xs.
  induction keys as [|c keys IH]; intros [|x xs]; simpl; try done.
  rewrite !filter_cons. simpl. destruct (decide (c = k)); simpl; by rewrite IH.
Qed.

Lemma filter_notnan_reals (l : list R) : filter notnan (reals l) = reals l.
Proof.
  induction l as [|x l IH]; [done|].
  change (reals (x :: l)) with (Fin x :: reals l).
  rewrite filter_cons, decide_True by done. by rewrite IH.
Qed.

Lemma nansum_reals (l : list R) : nansum (reals l) = Fin (Rsum l).
Proof. unfold nansum. by rewrite filter_notnan_reals, sum_reals. Qed.

Lemma as_float_floats (xs : list npfloat) :
  result_mapM as_float (floats xs) = Ok xs.
Proof.
  unfold floats. rewrite (result_mapM_Ok _ num_of).
  - rewrite <- list_fmap_compose. by rewrite list_fmap_id.
  - intros c Hc. apply list_elem_of_fmap in Hc as (x & -> & _). done.
Qed.

Lemma result_mapM_seq {X Y} (l : list X) (G : nat → result Y) (H : X → Y) (k : nat) :
  (∀ i x, l !! i = Some x → G (k + i) = Ok (H x)) →
  result_mapM G (seq k (length l)) = Ok (H <$> l).
Proof.
  revert k. induction l as [|x l IH]; intros k HG; simpl; [done|].
  rewrite <- (Nat.add_0_r k) at 1. rewrite (HG 0 x eq_refl). simpl.
  rewrite (IH (S k)); [done|].
  intros i y Hi. replace (S k + i) with (k + S i) by lia. by apply HG.
Qed.

Lemma lookup_snoc_last {A} (h : list A) (x : A) : (h ++ [x]) !! length h = Some x.
Proof. by apply list_lookup_middle. Qed.

Lemma insert_snoc_last {A} (h : list A) (x y : A) :
  <[length h := y]> (h ++ [x]) = h ++ [y].
Proof.
  rewrite insert_app_r_alt by lia. by rewrite Nat.sub_diag.
Qed.

(** ** The error functions on single numbers *)

Lemma error_functions_names (m : string) :
  m ∈ metric_names → ∃ f, error_functions !! m = Some f.
Proof.
  unfold metric_names. intros Hm.
  repeat (apply elem_of_cons in Hm as [->|Hm]; [by eexists|]).
  by apply not_elem_of_nil in Hm.
Qed.

Lemma error_functions_dom (m : string) (f : metric_fn) :
  error_functions !! m = Some f → m ∈ metric_names.
Proof.
  unfold error_functions, metric_names. intros Hm.
  repeat (apply lookup_insert_Some in Hm as [[<- _]|[_ Hm]];
          [set_solver|]).
  by rewrite lookup_empty in Hm.
Qed.

Lemma error_functions_total (m : string) (f : metric_fn) (a b : npfloat) :
  error_functions !! m = Some f → ∃ v, f (Scalar a) (Scalar b) = Ok v.
Proof.
  unfold error_functions. intros Hm.
  repeat (apply lookup_insert_Some in Hm as [[_ <-]|[_ Hm]];
          [first [apply MAPE_never_raises | apply SMAPE_never_raises
                 | by eexists]|]).
  by rewrite lookup_empty in Hm.
Qed.

Lemma scalar_score_Ok (m : string) (f : metric_fn) (a b : R) :
  error_functions !! m = Some f →
  f (Scalar (Fin a)) (Scalar (Fin b)) = Ok (scalar_score f a b).
Proof.
  intros Hm. unfold scalar_score.
  by destruct (error_functions_total m f (Fin a) (Fin b) Hm) as [v ->].
Qed.

Lemma Rmean_singleton (x : R) : ((x + 0) / INR 1)%R = x.
Proof. simpl. unfold Rdiv. rewrite Rinv_1. ring. Qed.

Lemma scalar_score_MAE (a b : R) : scalar_score MAE a b = Fin (Rabs (a - b)).
Proof.
  unfold scalar_score, MAE. simpl. f_equal. apply Rmean_singleton.
Qed.

Lemma scalar_score_MSE (a b : R) :
  scalar_score MSE a b = Fin ((a - b) * (a - b)).
Proof.
  unfold scalar_score, MSE. simpl. f_equal. apply Rmean_singleton.
Qed.

Lemma scalar_score_RMSE (a b : R) :
  scalar_score RMSE a b = Np.sqrt (Fin ((a - b) * (a - b))).
Proof.
  unfold scalar_score, RMSE, MSE. simpl.
  by rewrite Rmean_singleton.
Qed.

(** ** Aggregate mode *)

Section Aggregate.

Context (eval : eval_config) (df : DataFrame).
Context (keys : list cell) (ts fs : list R) (gs : list cell).

Hypothesis Hagg : get_perf_on_agg_forecast eval = true.
Hypothesis Hkeys : getitem (granularity eval) df = Ok keys.
Hypothesis Htruth : getitem "truth" df = Ok (floats (reals ts)).
Hypothesis Hforecast : getitem "forecast" df = Ok (floats (reals fs)).
Hypothesis Hgs : group_keys keys = Ok gs.
Hypothesis Hnonempty : gs ≠ [].
Hypothesis Hgran : granularity eval ∉ "truth" :: "forecast" :: metric_names.
Hypothesis Hmetrics : ∀ m, m ∈ metrics eval → m ∈ metric_names.

Lemma groupby_sum_reset :
  (g ← groupby_agg_sum (granularity eval) ["truth"; "forecast"] df;
   reset_index g)
  = Ok (agg_table (granularity eval) gs keys ts fs []).
Proof using All.
  unfold groupby_agg_sum. rewrite Hkeys. simpl. rewrite Hgs. simpl.
  rewrite Htruth, Hforecast. simpl. rewrite !as_float_floats. simpl.
  unfold reset_index, agg_table, nrows, level_name. simpl.
  rewrite !decide_False by (intros Heq; apply Hgran; rewrite Heq; elem_of_list).
  rewrite bool_decide_eq_true_2 by done.
  simpl. do 3 f_equal. unfold totals_col, group_total.
  f_equal; [|f_equal]; f_equal; apply list_fmap_ext; intros _ g _;
    unfold reals; rewrite rows_where_fmap; by rewrite nansum_reals.
Qed.

Lemma agg_table_truth (computed : list string) :
  (∀ m, m ∈ computed → m ∈ metric_names) →
  assoc "truth" (df_columns (agg_table (granularity eval) gs keys ts fs computed))
  = Some (totals_col gs keys ts).
Proof using All.
  intros Hc. unfold agg_table. simpl. rewrite assoc_foldl_set_notin.
  - cbn [assoc]. rewrite decide_False; [done|].
    intros Heq. apply Hgran. rewrite <- Heq. elem_of_list.
  - intros Hin. apply Hc in Hin. unfold metric_names in Hin.
    not_elem_of_list Hin.
Qed.

Lemma agg_table_forecast (computed : list string) :
  (∀ m, m ∈ computed → m ∈ metric_names) →
  assoc "forecast" (df_columns (agg_table (granularity eval) gs keys ts fs computed))
  = Some (totals_col gs keys fs).
Proof using All.
  intros Hc. unfold agg_table. simpl. rewrite assoc_foldl_set_notin.
  - cbn [assoc]. rewrite decide_False; [done|].
    intros Heq. apply Hgran. rewrite <- Heq. elem_of_list.
  - intros Hin. apply Hc in Hin. unfold metric_names in Hin.
    not_elem_of_list Hin.
Qed.

Lemma agg_table_keys (computed : list string) :
  (∀ m, m ∈ computed → m ∈ metric_names) →
  getitem (granularity eval) (agg_table (granularity eval) gs keys ts fs computed)
  = Ok gs.
Proof using All.
  intros Hc. unfold getitem, agg_table. simpl. rewrite assoc_foldl_set_notin.
  - simpl. by rewrite decide_True.
  - intros Hin. apply Hc in Hin. apply Hgran. by do 2 right.
Qed.

Lemma agg_table_score (computed : list string) (m : string) :
  m ∈ computed →
  getitem m (agg_table (granularity eval) gs keys ts fs computed)
  = Ok (score_col gs keys ts fs m).
Proof using All.
  intros Hm. unfold getitem, agg_table. simpl.
  by rewrite (assoc_foldl_set_in (score_col gs keys ts fs)).
Qed.

(** One turn of the loop: score every row's two totals with [m] and store
    the outcome as column [m]. *)
Lemma agg_loop_body (h : list DataFrame) (computed : list string) (m : string) :
  (∀ m', m' ∈ computed → m' ∈ metric_names) →
  m ∈ metric_names →
  (d ← load (length h);
   sub_ ← lift (select ["truth"; "forecast"] d);
   col ← lift (apply_axis1
                 (λ x, f ← dict_get error_functions m;
                       t ← attr_scalar "truth" x;
                       p ← attr_scalar "forecast" x;
                       r ← f t p;
                       Ok (CFloat r))
                 sub_);
   mutate (length h) (setitem m col))
    (h ++ [agg_table (granularity eval) gs keys ts fs computed])
  = Ok ((), h ++ [agg_table (granularity eval) gs keys ts fs (computed ++ [m])]).
Proof using All.
  intros Hc Hm.
  destruct (error_functions_names m Hm) as [f Hf].
  rewrite bind_run, (load_Ok _ _ _ (lookup_snoc_last _ _)), bind_run.
  pose proof (agg_table_truth computed Hc) as HT.
  pose proof (agg_table_forecast computed Hc) as HF.
  assert (df_index (agg_table (granularity eval) gs keys ts fs computed)
          = range_index (length gs)) as HI by done.
  remember (agg_table (granularity eval) gs keys ts fs computed) as T eqn:ET.
  unfold select, getitem. simpl. rewrite HT, HF. simpl.
  rewrite bind_run. unfold apply_axis1, nrows. simpl. rewrite HI. simpl.
  assert (∃ n, length gs = S n) as [n Hn] by (destruct gs; [done|by eexists]).
  rewrite length_fmap, length_seq, Hn. cbv iota. rewrite <- Hn.
  rewrite (result_mapM_seq gs _
             (λ g, CFloat (scalar_score f (group_total g keys ts)
                             (group_total g keys fs))) 0).
  - simpl.
    rewrite (mutate_Ok _ _ _ _
               (agg_table (granularity eval) gs keys ts fs (computed ++ [m]))
               (lookup_snoc_last _ _)).
    + by rewrite insert_snoc_last.
    + unfold setitem, nrows. rewrite HI. simpl.
      rewrite !length_fmap, length_seq, decide_True by done.
      rewrite ET. unfold agg_table. simpl.
      rewrite foldl_app. cbn [foldl]. do 3 f_equal.
      unfold score_col. by rewrite Hf.
  - intros i g Hi. simpl. unfold row_at, totals_col. simpl.
    rewrite !list_lookup_fmap, Hi. simpl.
    unfold dict_get. rewrite Hf. simpl.
    by rewrite (scalar_score_Ok m f _ _ Hf).
Qed.

(** Aggregate mode returns a new table with one row per group, the input
    table is left as it was, and column [m] holds the error function [m]
    applied to the group's two totals. *)
Lemma compute_metrics_aggregate (h : list DataFrame) (l : loc) :
  h !! l = Some df →
  _compute_metrics l error_functions eval h
  = Ok (length h,
        h ++ [agg_table (granularity eval) gs keys ts fs (metrics eval)]).
Proof using All.
  intros Hl. unfold _compute_metrics. rewrite Hagg.
  rewrite bind_run.
  rewrite (new_from_Ok _ _ _ _ _ Hl groupby_sum_reset).
  rewrite bind_run.
  destruct (for_invariant
              (λ computed h',
                 h' = h ++ [agg_table (granularity eval) gs keys ts fs computed])
              (λ m,
                 d ← load (length h);
                 sub_ ← lift (select ["truth"; "forecast"] d);
                 col ← lift (apply_axis1
                               (λ x, f ← dict_get error_functions m;
                                     t ← attr_scalar "truth" x;
                                     p ← attr_scalar "forecast" x;
                                     r ← f t p;
                                     Ok (CFloat r))
                               sub_);
                 mutate (length h) (setitem m col))
              [] (metrics eval)
              (h ++ [agg_table (granularity eval) gs keys ts fs []]) eq_refl)
    as (h' & Hfor & ->).
  - intros pre m post h1 Heq _ ->. eexists. split; [|reflexivity].
    simpl in Heq. apply agg_loop_body.
    + intros m' Hm'. apply Hmetrics. rewrite Heq. set_solver.
    + apply Hmetrics. rewrite Heq. set_solver.
  - rewrite Hfor. reflexivity.
Qed.

End Aggregate.

(** C6 (as amended).  In aggregate mode, on float columns "truth" and
    "forecast", every requested error function is applied to the two
    within-group sums S_t and S_f as single values, so for every group the
    MAE column is |S_t - S_f|, the MSE column is (S_t - S_f)^2 and the RMSE
    column is the square root of (S_t - S_f)^2 (the square is computed
    first: the root is |S_t - S_f| as long as the square neither overflows
    nor underflows); for a group with truth [0, 0] and forecast [5, 5] the
    aggregate MAE is 10. *)
Theorem aggregate_mode_scores_group_totals (eval : eval_config)
    (h : list DataFrame) (l : loc) (df : DataFrame)
    (keys : list cell) (ts fs : list R) :
  h !! l = Some df →
  get_perf_on_agg_forecast eval = true →
  getitem (granularity eval) df = Ok keys →
  getitem "truth" df = Ok (floats (reals ts)) →
  getitem "forecast" df = Ok (floats (reals fs)) →
  homogeneous keys = true →
  (∃ k, k ∈ keys ∧ notna k = true) →
  granularity eval ∉ "truth" :: "forecast" :: metric_names →
  (∀ m, m ∈ metrics eval → m ∈ metric_names) →
  let S_t g := group_total g keys ts in
  let S_f g := group_total g keys fs in
  ∃ (gs : list cell) (table : DataFrame),
    _compute_metrics l error_functions eval h = Ok (length h, h ++ [table])
    ∧ getitem (granularity eval) table = Ok gs
    ∧ NoDup gs
    ∧ (∀ g, g ∈ gs ↔ g ∈ keys ∧ notna g = true)
    ∧ (∀ m f, m ∈ metrics eval → error_functions !! m = Some f →
         getitem m table
         = Ok ((λ g, CFloat (scalar_score f (S_t g) (S_f g))) <$> gs))
    ∧ ("MAE" ∈ metrics eval →
         getitem "MAE" table
         = Ok ((λ g, CFloat (Fin (Rabs (S_t g - S_f g)))) <$> gs))
    ∧ ("RMSE" ∈ metrics eval →
         getitem "RMSE" table
         = Ok ((λ g, CFloat (Np.sqrt (Fin ((S_t g - S_f g) * (S_t g - S_f g)))))
                 <$> gs))
    ∧ ("MSE" ∈ metrics eval →
         getitem "MSE" table
         = Ok ((λ g, CFloat (Fin ((S_t g - S_f g) * (S_t g - S_f g)))) <$> gs))
    ∧ scalar_score MAE (Rsum [0%R; 0%R]) (Rsum [5%R; 5%R]) = Fin 10.
Proof.
  intros Hl Hagg Hkeys Ht Hf Hhom (k & Hk & Hkna) Hgran Hms S_t S_f.
  destruct (group_keys_Ok keys Hhom) as (gs & Hgs & Hnd & Hin).
  assert (gs ≠ []) as Hne.
  { intros ->. assert (k ∈ []) as Hk' by by apply Hin.
    by apply not_elem_of_nil in Hk'. }
  exists gs, (agg_table (granularity eval) gs keys ts fs (metrics eval)).
  split; [by apply (compute_metrics_aggregate eval df)|].
  split; [by apply (agg_table_keys eval df)|].
  split; [done|]. split; [done|].
  assert (∀ m f, m ∈ metrics eval → error_functions !! m = Some f →
            getitem m (agg_table (granularity eval) gs keys ts fs (metrics eval))
            = Ok ((λ g, CFloat (scalar_score f (S_t g) (S_f g))) <$> gs)) as Hcol.
  { intros m f Hm Hmf. rewrite (agg_table_score eval df) by done.
    unfold score_col. by rewrite Hmf. }
  split; [exact Hcol|].
  split; [|split; [|split]].
  - intros Hm. rewrite (Hcol "MAE" MAE Hm eq_refl). f_equal.
    apply list_fmap_ext. intros _ g _. by rewrite scalar_score_MAE.
  - intros Hm. rewrite (Hcol "RMSE" RMSE Hm eq_refl). f_equal.
    apply list_fmap_ext. intros _ g _. by rewrite scalar_score_RMSE.
  - intros Hm. rewrite (Hcol "MSE" MSE Hm eq_refl). f_equal.
    apply list_fmap_ext. intros _ g _. by rewrite scalar_score_MSE.
  - rewrite scalar_score_MAE. f_equal. simpl.
    replace (0 + (0 + 0) - (5 + (5 + 0)))%R with (-10)%R by lra.
    rewrite Rabs_left; lra.
Qed.

Lemma aggregate_mode_scores_group_totals_witness :
  ∃ (gs : list cell) (table : DataFrame),
    _compute_metrics 0 error_functions example_eval_aggregate [example_table]
    = Ok (1, [example_table; table])
    ∧ getitem "bucket" table = Ok gs
    ∧ getitem "MAE" table
      = Ok ((λ g, CFloat (Fin (Rabs
               (group_total g [CStr "A"; CStr "A"; CStr "B"; CStr "B"]
                  [10%R; 10%R; 0%R; 0%R]
                - group_total g [CStr "A"; CStr "A"; CStr "B"; CStr "B"]
                    [10%R; 10%R; 5%R; 5%R])))) <$> gs).
Proof.
  destruct (aggregate_mode_scores_group_totals example_eval_aggregate
              [example_table] 0 example_table
              [CStr "A"; CStr "A"; CStr "B"; CStr "B"]
              [10%R; 10%R; 0%R; 0%R] [10%R; 10%R; 5%R; 5%R])
    as (gs & table & Hrun & Hkeys & _ & _ & _ & Hmae & _).
  - reflexivity.
  - reflexivity.
  - reflexivity.
  - reflexivity.
  - reflexivity.
  - reflexivity.
  - exists (CStr "A"). split; [by left|reflexivity].
  - intros Hin. simpl in Hin. unfold metric_names in Hin. not_elem_of_list Hin.
  - intros m Hm. simpl in Hm. apply list_elem_of_singleton in Hm as ->.
    unfold metric_names. elem_of_list.
  - exists gs, table. split; [exact Hrun|]. split; [exact Hkeys|].
    apply Hmae. simpl. by left.
Defined.

(** C6, as the claim words it, fails in three places.  The example: in
    aggregate mode the group with truth [0, 0] and forecast [5, 5] gets
    MAE |0 - 10| = 10, not 5 (5 is what per-row scoring gives).  The RMSE
    column: for the totals 1e200 and 0 the square overflows and RMSE is
    infinity, for 1e-200 and 0 it underflows and RMSE is 0, while
    |S_t - S_f| is 1e200 and 1e-200 (which MAE returns).  And int64
    columns: for the totals 2^32 and 0 the square wraps around to 0, which
    is not (S_t - S_f)^2. *)
Lemma aggregate_scores_depart_from_the_claimed_values :
  (∃ (table : DataFrame) (v : R),
     _compute_metrics 0 error_functions example_eval_aggregate [example_table]
     = Ok (1, [example_table; table])
     ∧ getitem "bucket" table = Ok [CStr "A"; CStr "B"]
     ∧ (col ← getitem "MAE" table; Ok (col !! 1)) = Ok (Some (CFloat (Fin v)))
     ∧ v = 10%R
     ∧ v ≠ 5%R)
  ∧ F64.eq (F64.MAE F64.f_1e200 F64.zero) F64.f_1e200 = true
  ∧ F64.eq (F64.RMSE F64.f_1e200 F64.zero) F64.inf = true
  ∧ F64.eq (F64.MAE F64.f_1e_200 F64.zero) F64.f_1e_200 = true
  ∧ F64.eq (F64.RMSE F64.f_1e_200 F64.zero) F64.zero = true
  ∧ I64.squared_error (2 ^ 32) 0 = 0%Z
  ∧ ((2 ^ 32 - 0) * (2 ^ 32 - 0))%Z ≠ 0%Z.
Proof.
  split; [|repeat (split; [vm_compute; reflexivity|]); vm_compute; discriminate].
  set (keys := [CStr "A"; CStr "A"; CStr "B"; CStr "B"]).
  set (ts := [10%R; 10%R; 0%R; 0%R]). set (fs := [10%R; 10%R; 5%R; 5%R]).
  set (gs := [CStr "A"; CStr "B"]).
  assert (group_keys keys = Ok gs) as Hgs by (by vm_compute).
  assert (granularity example_eval_aggregate
          ∉ "truth" :: "forecast" :: metric_names) as Hgran.
  { intros Hin. simpl in Hin. unfold metric_names in Hin. not_elem_of_list Hin. }
  assert (gs ≠ []) as Hne by done.
  assert (∀ m, m ∈ metrics example_eval_aggregate → m ∈ metric_names) as Hms.
  { intros m Hm. simpl in Hm. apply list_elem_of_singleton in Hm as ->.
    unfold metric_names. elem_of_list. }
  exists (agg_table "bucket" gs keys ts fs ["MAE"]),
         (Rabs (group_total (CStr "B") keys ts - group_total (CStr "B") keys fs)).
  split.
  { exact (compute_metrics_aggregate example_eval_aggregate example_table
             keys ts fs gs eq_refl eq_refl eq_refl eq_refl Hgs Hne Hgran Hms
             [example_table] 0 eq_refl). }
  split.
  { exact (agg_table_keys example_eval_aggregate example_table keys ts fs gs
             eq_refl eq_refl eq_refl eq_refl Hgs Hne Hgran Hms ["MAE"] Hms). }
  split.
  { pose proof (agg_table_score example_eval_aggregate example_table keys ts fs
                  gs eq_refl eq_refl eq_refl eq_refl Hgs Hne Hgran Hms
                  ["MAE"] "MAE") as Hscore.
    change (granularity example_eval_aggregate) with "bucket" in Hscore.
    rewrite Hscore by by left.
    unfold score_col. change (error_functions !! "MAE") with (Some MAE).
    simpl. by rewrite scalar_score_MAE. }
  assert (group_total (CStr "B") keys ts = 0 + (0 + 0))%R as -> by reflexivity.
  assert (group_total (CStr "B") keys fs = 5 + (5 + 0))%R as -> by reflexivity.
  replace (0 + (0 + 0) - (5 + (5 + 0)))%R with (-10)%R by lra.
  rewrite Rabs_left by lra. split; lra.
Qed.

(** ** The summary rows of the cross-validation table *)

Lemma assoc_app {V} (k : string) (l1 l2 : list (string * V)) :
  assoc k (l1 ++ l2) = match assoc k l1 with
                       | Some v => Some v
                       | None => assoc k l2
                       end.
Proof.
  induction l1 as [|[k' v'] l1 IH]; simpl; [done|].
  by destruct (decide (k = k')).
Qed.

Lemma assoc_fmap_in {V} (col : string → V) (ms : list string) (k : string) :
  k ∈ ms → assoc k ((λ m, (m, col m)) <$> ms) = Some (col k).
Proof.
  induction ms as [|m ms IH]; intros Hk; simpl.
  - by apply not_elem_of_nil in Hk.
  - destruct (decide (k = m)) as [->|Hne]; [done|].
    apply IH. apply elem_of_cons in Hk as [?|?]; done.
Qed.

Lemma assoc_fmap_notin {V} (col : string → V) (ms : list string) (k : string) :
  k ∉ ms → assoc k ((λ m, (m, col m)) <$> ms) = None.
Proof.
  induction ms as [|m ms IH]; intros Hk; simpl; [done|].
  rewrite decide_False by (intros ->; apply Hk; by left).
  apply IH. intros ?. apply Hk. by right.
Qed.

Lemma filter_columns_notin (names ms : list string) (col : string → list cell) :
  (∀ m, m ∈ ms → m ∉ names) →
  filter (λ c : string * list cell, c.1 ∉ names) ((λ m, (m, col m)) <$> ms)
  = (λ m, (m, col m)) <$> ms.
Proof.
  induction ms as [|m ms IH]; intros Hd; simpl; [done|].
  rewrite filter_cons, decide_True by (apply Hd; by left).
  f_equal. apply IH. intros m' Hm'. apply Hd. by right.
Qed.

Lemma reduce_axis0_floats (f : list npfloat → npfloat) idx (ms : list string)
    (xs : string → list npfloat) :
  reduce_axis0 f (mkDataFrame idx ((λ m, (m, floats (xs m))) <$> ms))
  = Ok ((λ m, (m, CFloat (f (xs m)))) <$> ms).
Proof.
  unfold reduce_axis0. simpl. rewrite result_mapM_fmap.
  apply result_mapM_Ok. intros m _. simpl. by rewrite as_float_floats.
Qed.

Lemma existsb_hits_false (n : nat) (P : nat → Prop) `{∀ i, Decision (P i)} :
  (∀ i, ¬ P i) →
  existsb (λ h : bool, h) ((λ i, bool_decide (P i)) <$> seq 0 n) = false.
Proof.
  intros HP. generalize 0. induction n as [|n IH]; intros k; simpl; [done|].
  rewrite bool_decide_eq_false_2 by apply HP. apply IH.
Qed.

Lemma index_row_three (i : nat) (n1 n2 n3 : option string)
    (c1 c2 c3 : list cell) cols (k1 k2 k3 : cell) :
  k1 ∉ c1 →
  index_row i (mkDataFrame [(n1, c1); (n2, c2); (n3, c3)] cols) ≠ [k1; k2; k3].
Proof.
  intros Hk. unfold index_row. simpl.
  destruct (c1 !! i) as [x1|] eqn:E1; simpl.
  - destruct (c2 !! i), (c3 !! i); simpl; intros [= -> _ _]; try done;
      apply Hk; by eapply list_elem_of_lookup_2.
  - destruct (c2 !! i), (c3 !! i); simpl; discriminate.
Qed.

Lemma reset_index_named3 (n1 n2 n3 : string) (c1 c2 c3 : list cell)
    (cols : list (string * list cell)) :
  assoc n1 cols = None → assoc n2 cols = None → assoc n3 cols = None →
  reset_index (mkDataFrame [(Some n1, c1); (Some n2, c2); (Some n3, c3)] cols)
  = Ok (mkDataFrame (range_index (length c1))
          ([(n1, c1); (n2, c2); (n3, c3)] ++ cols)).
Proof.
  intros H1 H2 H3. unfold reset_index, level_name, nrows. simpl.
  by rewrite H1, H2, H3.
Qed.

(** Appending a row whose label is not yet in a three-level index. *)
Lemma loc_set_append (n1 n2 n3 : option string) (c1 c2 c3 : list cell)
    (ms : list string) (col : string → list cell) (v : string → cell)
    (k1 k2 k3 : cell) :
  k1 ∉ c1 →
  loc_set [k1; k2; k3] ((λ m, (m, v m)) <$> ms)
    (mkDataFrame [(n1, c1); (n2, c2); (n3, c3)] ((λ m, (m, col m)) <$> ms))
  = Ok (mkDataFrame [(n1, c1 ++ [k1]); (n2, c2 ++ [k2]); (n3, c3 ++ [k3])]
          ((λ m, (m, col m ++ [v m])) <$> ms)).
Proof.
  intros Hk. unfold loc_set. simpl.
  rewrite existsb_hits_false by (intros i; by apply index_row_three).
  do 2 f_equal. rewrite <- list_fmap_compose.
  apply list_fmap_ext. intros i m Hm. simpl.
  by rewrite assoc_fmap_in by by eapply list_elem_of_lookup_2.
Qed.

Section SummaryRows.

Context (eval : eval_config) (df : DataFrame).
Context (labels starts ends : list cell) (xs : string → list npfloat).

Hypothesis Hlabels : getitem (granularity eval) df = Ok labels.
Hypothesis Hstarts : getitem "Valid Start" df = Ok starts.
Hypothesis Hends : getitem "Valid End" df = Ok ends.
Hypothesis Hcols : ∀ m, m ∈ metrics eval → getitem m df = Ok (floats (xs m)).
Hypothesis Hgran : granularity eval ∉ ["Valid Start"; "Valid End"].
Hypothesis Hdisj :
  ∀ m, m ∈ metrics eval → m ∉ [granularity eval; "Valid Start"; "Valid End"].
Hypothesis Havg : CStr "Avg" ∉ labels.
Hypothesis Hstd : CStr "Std" ∉ labels.

Let cols_index : list string := [granularity eval; "Valid Start"; "Valid End"].

Lemma select_set_index_cv :
  (s ← select (cols_index ++ metrics eval) df; set_index cols_index s)
  = Ok (mkDataFrame
          [(Some (granularity eval), labels); (Some "Valid Start", starts);
           (Some "Valid End", ends)]
          ((λ m, (m, floats (xs m))) <$> metrics eval)).
Proof using All.
  assert (granularity eval ≠ "Valid Start") as Hg1.
  { intros Heq. apply Hgran. rewrite Heq. elem_of_list. }
  assert (granularity eval ≠ "Valid End") as Hg2.
  { intros Heq. apply Hgran. rewrite Heq. elem_of_list. }
  unfold select, cols_index. rewrite result_mapM_app.
  cbn [result_mapM]. rewrite Hlabels, Hstarts, Hends. cbn [mbind result_bind].
  rewrite (result_mapM_Ok _ (λ m, (m, floats (xs m))))
    by (intros m Hm; by rewrite Hcols).
  cbn [mbind result_bind app].
  unfold set_index, getitem. cbn [result_mapM df_columns assoc].
  repeat (case_decide; try congruence).
  cbn [mbind result_bind]. do 2 f_equal.
  rewrite !filter_cons. cbn [fst].
  rewrite !decide_False by (intros Hn; apply Hn; elem_of_list).
  apply filter_columns_notin. exact Hdisj.
Qed.

Let F0 : DataFrame :=
  mkDataFrame
    [(Some (granularity eval), labels); (Some "Valid Start", starts);
     (Some "Valid End", ends)]
    ((λ m, (m, floats (xs m))) <$> metrics eval).

Let F1 : DataFrame :=
  mkDataFrame
    [(Some (granularity eval), labels ++ [CStr "Avg"]);
     (Some "Valid Start", starts ++ [CStr ""]);
     (Some "Valid End", ends ++ [CStr "Average"])]
    ((λ m, (m, floats (xs m ++ [nanmean (xs m)]))) <$> metrics eval).

Let F2 : DataFrame :=
  mkDataFrame (avg_std_index (granularity eval) labels starts ends)
    ((λ m, (m, summary_col (xs m))) <$> metrics eval).

Lemma append_avg_row :
  (avg ← mean_axis0 F0; loc_set [CStr "Avg"; CStr ""; CStr "Average"] avg F0)
  = Ok F1.
Proof using All.
  unfold mean_axis0, F0. rewrite reduce_axis0_floats. cbn [mbind result_bind].
  rewrite (loc_set_append _ _ _ _ _ _ _ (λ m, floats (xs m))) by done.
  unfold F1. do 2 f_equal. apply list_fmap_ext. intros _ m _.
  unfold floats. by rewrite fmap_app.
Qed.

Lemma append_std_row :
  (std ← std_axis0 F1; loc_set [CStr "Std"; CStr ""; CStr "+/-"] std F1)
  = Ok F2.
Proof using All.
  unfold std_axis0, F1. rewrite reduce_axis0_floats. cbn [mbind result_bind].
  rewrite (loc_set_append _ _ _ _ _ _ _
             (λ m, floats (xs m ++ [nanmean (xs m)]))).
  - unfold F2, avg_std_index. rewrite <- !app_assoc. do 2 f_equal.
    apply list_fmap_ext. intros _ m _. unfold summary_col, floats.
    rewrite !fmap_app, <- app_assoc. done.
  - intros Hin. apply elem_of_app in Hin as [Hin|Hin]; [done|].
    by apply list_elem_of_singleton in Hin.
Qed.

Lemma reset_set_index_cv :
  (r ← reset_index F2; set_index [granularity eval] r)
  = Ok (avg_std_table (granularity eval) labels starts ends (metrics eval) xs).
Proof using All.
  assert (granularity eval ≠ "Valid Start") as Hg1.
  { intros Heq. apply Hgran. rewrite Heq. elem_of_list. }
  assert (granularity eval ≠ "Valid End") as Hg2.
  { intros Heq. apply Hgran. rewrite Heq. elem_of_list. }
  unfold F2, avg_std_index. rewrite reset_index_named3.
  2-4: apply assoc_fmap_notin; intros Hin; apply (Hdisj _ Hin); elem_of_list.
  cbn [mbind result_bind].
  unfold set_index, getitem. cbn [result_mapM df_columns app assoc].
  rewrite decide_True by done. cbn [mbind result_bind].
  unfold avg_std_table. do 2 f_equal.
  rewrite !filter_cons. cbn [fst].
  rewrite decide_False by (intros Hn; apply Hn; elem_of_list).
  rewrite !decide_True
    by (intros Hin; apply list_elem_of_singleton in Hin; congruence).
  cbn [app]. do 2 f_equal. apply filter_columns_notin.
  intros m Hm Hin. apply list_elem_of_singleton in Hin as ->.
  apply (Hdisj _ Hm). elem_of_list.
Qed.

(** The function allocates two tables (the intermediate one, in which
    the two rows are appended in place, and the one it returns) and
    leaves every table that was already there as it was. *)
Lemma add_avg_std_metrics_run (h : list DataFrame) (l : loc) :
  h !! l = Some df →
  __add_avg_std_metrics l eval h
  = Ok (S (length h),
        h ++ [F2; avg_std_table (granularity eval) labels starts ends
                    (metrics eval) xs]).
Proof using All.
  intros Hl. unfold __add_avg_std_metrics.
  rewrite bind_run.
  rewrite (new_from_Ok _ _ _ _ _ Hl select_set_index_cv).
  fold F0. rewrite bind_run, bind_run.
  rewrite (load_Ok _ _ _ (lookup_snoc_last _ _)).
  pose proof append_avg_row as Havg_row.
  apply result_bind_inv in Havg_row as (avg & Hmean & Hset).
  rewrite bind_run. unfold lift at 1. rewrite Hmean.
  rewrite (mutate_Ok _ _ _ _ _ (lookup_snoc_last _ _) Hset).
  rewrite insert_snoc_last.
  rewrite bind_run, bind_run.
  rewrite (load_Ok _ _ _ (lookup_snoc_last _ _)).
  pose proof append_std_row as Hstd_row.
  apply result_bind_inv in Hstd_row as (std & Hsd & Hset').
  rewrite bind_run. unfold lift at 1. rewrite Hsd.
  rewrite (mutate_Ok _ _ _ _ _ (lookup_snoc_last _ _) Hset').
  rewrite insert_snoc_last.
  rewrite bind_run.
  rewrite (new_from_Ok _ _ _ _ _ (lookup_snoc_last _ _) reset_set_index_cv).
  rewrite length_app, <- app_assoc. simpl.
  by replace (length h + 1) with (S (length h)) by lia.
Qed.

End SummaryRows.

Lemma nanmean_reals (l : list R) : l ≠ [] → nanmean (reals l) = Fin (Rmean l).
Proof. intros Hne. unfold nanmean. by rewrite filter_notnan_reals, mean_reals. Qed.

Lemma Rsum_squares_nonneg (c : R) (l : list R) :
  (0 <= Rsum ((λ x, (x - c) * (x - c))%R <$> l))%R.
Proof.
  induction l as [|x l IH]; [unfold Rsum; simpl; lra|].
  pose proof (Rle_0_sqr (x - c)) as Hsq. unfold Rsqr in Hsq.
  change (Rsum ((λ x, (x - c) * (x - c))%R <$> x :: l))
    with ((x - c) * (x - c) + Rsum ((λ x, (x - c) * (x - c))%R <$> l))%R.
  lra.
Qed.

(** On numbers, pandas' [std] is the sample standard deviation. *)
Lemma nanstd_reals (l : list R) :
  2 ≤ length l → nanstd (reals l) = Fin (sample_std l).
Proof.
  intros Hlen. unfold nanstd. rewrite filter_notnan_reals.
  assert (length (reals l) = length l) as Hl by (unfold reals; by rewrite length_fmap).
  rewrite Hl, decide_False by lia.
  rewrite mean_reals by (intros ->; simpl in Hlen; lia).
  assert ((λ x, sub x (Fin (Rmean l))) <$> reals l
          = lift1 (λ x, x - Rmean l)%R <$> reals l) as ->.
  { apply list_fmap_ext. intros _ x _. by destruct x. }
  unfold square. rewrite !fmap_lift1_reals, sum_reals, <- list_fmap_compose.
  simpl. unfold sample_std.
  rewrite decide_False; [done|].
  pose proof (Rsum_squares_nonneg (Rmean l) l) as Hsq.
  assert (1 <= INR (length l) - 1)%R as Hn.
  { apply le_INR in Hlen. simpl in Hlen. lra. }
  apply Rle_not_lt. unfold Rdiv. apply Rmult_le_pos; [exact Hsq|].
  left. apply Rinv_0_lt_compat. lra.
Qed.

(** C4.  On a cross-validation table with N fold rows, the appended "Avg"
    row holds, in each requested metric column, the mean of the column's
    numeric (non-nan) values over exactly the N fold rows; when all N are
    numbers this is their sum divided by N. *)
Theorem avg_row_is_mean_of_fold_rows (eval : eval_config)
    (h : list DataFrame) (l : loc) (df : DataFrame)
    (labels starts ends : list cell) (xs : string → list npfloat) :
  h !! l = Some df →
  getitem (granularity eval) df = Ok labels →
  getitem "Valid Start" df = Ok starts →
  getitem "Valid End" df = Ok ends →
  (∀ m, m ∈ metrics eval →
     getitem m df = Ok (floats (xs m)) ∧ length (xs m) = length labels) →
  granularity eval ∉ ["Valid Start"; "Valid End"] →
  (∀ m, m ∈ metrics eval → m ∉ [granularity eval; "Valid Start"; "Valid End"]) →
  CStr "Avg" ∉ labels →
  CStr "Std" ∉ labels →
  let N := length labels in
  ∃ (l' : loc) (h' : list DataFrame) (table : DataFrame),
    __add_avg_std_metrics l eval h = Ok (l', h')
    ∧ h' !! l' = Some table
    ∧ df_index table
      = [(Some (granularity eval), labels ++ [CStr "Avg"; CStr "Std"])]
    ∧ (labels ++ [CStr "Avg"; CStr "Std"]) !! N = Some (CStr "Avg")
    ∧ ∀ m, m ∈ metrics eval →
        ∃ col, getitem m table = Ok col
          ∧ firstn N col = floats (xs m)
          ∧ col !! N = Some (CFloat (mean (filter notnan (xs m))))
          ∧ (∀ rs, xs m = reals rs → rs ≠ [] →
               col !! N = Some (CFloat (Fin (Rsum rs / INR N)))).
Proof.
  intros Hl Hlabels Hstarts Hends Hcols Hgran Hdisj Havg Hstd N.
  assert (∀ m, m ∈ metrics eval → getitem m df = Ok (floats (xs m))) as Hcols'.
  { intros m Hm. by apply Hcols. }
  pose proof (add_avg_std_metrics_run eval df labels starts ends xs
                Hlabels Hstarts Hends Hcols' Hgran Hdisj Havg Hstd h l Hl) as Hrun.
  eexists _, _, _. split; [exact Hrun|].
  split.
  { rewrite lookup_app_r by lia. by rewrite Nat.sub_succ_l, Nat.sub_diag. }
  split; [done|].
  split; [by apply list_lookup_middle|].
  intros m Hm. destruct (Hcols m Hm) as [_ Hlen].
  exists (summary_col (xs m)). split.
  { unfold getitem, avg_std_table. cbn [df_columns app assoc].
    assert (m ≠ "Valid Start" ∧ m ≠ "Valid End") as [Hm1 Hm2].
    { split; intros ->; apply (Hdisj _ Hm); elem_of_list. }
    rewrite !decide_False by done.
    by rewrite (assoc_fmap_in (λ m, summary_col (xs m))). }
  unfold summary_col, floats. rewrite fmap_app.
  assert (length (CFloat <$> xs m) = N) as HN by by rewrite length_fmap.
  split; [by rewrite take_app_length'|].
  split.
  { rewrite lookup_app_r by lia. by rewrite HN, Nat.sub_diag. }
  intros rs Hrs Hne. rewrite lookup_app_r by lia. rewrite HN, Nat.sub_diag.
  simpl. rewrite Hrs, nanmean_reals by done. unfold Rmean.
  subst N. rewrite <- Hlen, Hrs. unfold reals. by rewrite length_fmap.
Qed.

Lemma avg_row_is_mean_of_fold_rows_witness :
  ∃ (l' : loc) (h' : list DataFrame) (table : DataFrame) (col : list cell),
    __add_avg_std_metrics 0 example_eval_cv [example_cv_table] = Ok (l', h')
    ∧ h' !! l' = Some table
    ∧ getitem "MAE" table = Ok col
    ∧ col !! 2 = Some (CFloat (Fin (Rsum [1%R; 3%R] / INR 2))).
Proof.
  destruct (avg_row_is_mean_of_fold_rows example_eval_cv [example_cv_table] 0
              example_cv_table [CStr "Fold 1"; CStr "Fold 2"]
              [CStr "2021-02-01"; CStr "2021-01-01"]
              [CStr "2021-02-08"; CStr "2021-01-08"]
              (λ _, reals [1%R; 3%R]))
    as (l' & h' & table & Hrun & Htable & _ & _ & Hcols).
  - reflexivity.
  - reflexivity.
  - reflexivity.
  - reflexivity.
  - intros m Hm. simpl in Hm. apply list_elem_of_singleton in Hm as ->.
    split; reflexivity.
  - intros Hin. simpl in Hin. not_elem_of_list Hin.
  - intros m Hm Hin. simpl in Hm, Hin.
    apply list_elem_of_singleton in Hm as ->. not_elem_of_list Hin.
  - intros Hin. not_elem_of_list Hin.
  - intros Hin. not_elem_of_list Hin.
  - destruct (Hcols "MAE") as (col & Hcol & _ & _ & Havg); [by left|].
    exists l', h', table, col. split; [exact Hrun|]. split; [exact Htable|].
    split; [exact Hcol|]. by apply (Havg [1%R; 3%R]).
Defined.

Lemma example_cv_table_run :
  __add_avg_std_metrics 0 example_eval_cv [example_cv_table]
  = Ok (2, [example_cv_table;
            mkDataFrame
              (avg_std_index "cutoff" [CStr "Fold 1"; CStr "Fold 2"]
                 [CStr "2021-02-01"; CStr "2021-01-01"]
                 [CStr "2021-02-08"; CStr "2021-01-08"])
              [("MAE", summary_col (reals [1%R; 3%R]))];
            avg_std_table "cutoff" [CStr "Fold 1"; CStr "Fold 2"]
              [CStr "2021-02-01"; CStr "2021-01-01"]
              [CStr "2021-02-08"; CStr "2021-01-08"]
              ["MAE"] (λ _, reals [1%R; 3%R])]).
Proof.
  apply (add_avg_std_metrics_run example_eval_cv example_cv_table
           [CStr "Fold 1"; CStr "Fold 2"]
           [CStr "2021-02-01"; CStr "2021-01-01"]
           [CStr "2021-02-08"; CStr "2021-01-08"]
           (λ _, reals [1%R; 3%R])); try reflexivity.
  - intros m Hm. simpl in Hm. by apply list_elem_of_singleton in Hm as ->.
  - intros Hin. simpl in Hin. not_elem_of_list Hin.
  - intros m Hm Hin. simpl in Hm, Hin.
    apply list_elem_of_singleton in Hm as ->. not_elem_of_list Hin.
  - intros Hin. not_elem_of_list Hin.
  - intros Hin. not_elem_of_list Hin.
Qed.

Lemma sample_std_1_3_2 : sample_std [1%R; 3%R; 2%R] = 1%R.
Proof.
  unfold sample_std, Rmean, Rsum. simpl.
  replace ((1 - (1 + (3 + (2 + 0))) / (1 + 1 + 1))
           * (1 - (1 + (3 + (2 + 0))) / (1 + 1 + 1))
           + ((3 - (1 + (3 + (2 + 0))) / (1 + 1 + 1))
              * (3 - (1 + (3 + (2 + 0))) / (1 + 1 + 1))
              + ((2 - (1 + (3 + (2 + 0))) / (1 + 1 + 1))
                 * (2 - (1 + (3 + (2 + 0))) / (1 + 1 + 1)) + 0)))%R
    with 2%R by field.
  replace (2 / (1 + 1 + 1 - 1))%R with 1%R by field.
  apply sqrt_1.
Qed.

Lemma sample_std_1_3 : sample_std [1%R; 3%R] = R_sqrt.sqrt 2.
Proof.
  unfold sample_std, Rmean, Rsum. simpl. f_equal. field.
Qed.

Lemma sqrt_2_neq_1 : R_sqrt.sqrt 2 ≠ 1%R.
Proof.
  intros Heq. pose proof (sqrt_sqrt 2 ltac:(lra)) as Hsq.
  rewrite Heq in Hsq. lra.
Qed.

(** C2 (the code departs from it).  The "Std" row is computed after the
    "Avg" row has been appended to the same table, so the standard
    deviation runs over N+1 rows, the "Avg" row included.  With fold values
    1 and 3 the "Std" entry is the sample standard deviation of [1, 3, 2],
    which is 1; the sample standard deviation of the two fold rows is the
    square root of 2. *)
Theorem std_row_includes_the_avg_row :
  ∃ (l' : loc) (h' : list DataFrame) (table : DataFrame) (col : list cell) (v : R),
    __add_avg_std_metrics 0 example_eval_cv [example_cv_table] = Ok (l', h')
    ∧ h' !! l' = Some table
    ∧ df_index table
      = [(Some "cutoff", [CStr "Fold 1"; CStr "Fold 2"; CStr "Avg"; CStr "Std"])]
    ∧ getitem "MAE" table = Ok col
    ∧ firstn 2 col = floats (reals [1%R; 3%R])
    ∧ col !! 3 = Some (CFloat (Fin v))
    ∧ v = sample_std [1%R; 3%R; 2%R]
    ∧ v = 1%R
    ∧ sample_std [1%R; 3%R] = R_sqrt.sqrt 2
    ∧ v ≠ sample_std [1%R; 3%R].
Proof.
  eexists _, _, _, (summary_col (reals [1%R; 3%R])), _.
  split; [exact example_cv_table_run|].
  split; [reflexivity|]. split; [reflexivity|]. split; [reflexivity|].
  split; [reflexivity|].
  assert (nanmean (reals [1%R; 3%R]) = Fin 2) as Hmean.
  { rewrite nanmean_reals by done. f_equal. unfold Rmean, Rsum. simpl. field. }
  assert (nanstd (reals [1%R; 3%R] ++ [nanmean (reals [1%R; 3%R])])
          = Fin (sample_std [1%R; 3%R; 2%R])) as Hstd.
  { rewrite Hmean. apply (nanstd_reals [1%R; 3%R; 2%R]). simpl. lia. }
  split.
  { unfold summary_col. rewrite Hstd. reflexivity. }
  split; [reflexivity|].
  split; [apply sample_std_1_3_2|].
  split; [apply sample_std_1_3|].
  rewrite sample_std_1_3_2, sample_std_1_3. intros Heq.
  by apply sqrt_2_neq_1.
Qed.

(** ** Sorting rows *)

Lemma npfloat_leb_total (a b : npfloat) :
  npfloat_leb a b = true ∨ npfloat_leb b a = true.
Proof.
  destruct a as [x|], b as [y|]; simpl; auto.
  destruct (Rle_or_lt x y) as [Hle|Hlt].
  - left. by apply bool_decide_eq_true_2.
  - right. apply bool_decide_eq_true_2. lra.
Qed.

Lemma cell_leb_total (a b : cell) : cell_leb a b = true ∨ cell_leb b a = true.
Proof.
  destruct a as [x|n|s|t], b as [y|m|s'|t']; simpl;
    auto using npfloat_leb_total, String.leb_total.
  - apply (npfloat_leb_total (Fin (IZR n)) y).
  - apply (npfloat_leb_total (Fin (IZR n)) (Fin (IZR m))).
  - destruct (Z.le_ge_cases t t'); [left|right]; by apply Z.leb_le.
Qed.

#[global] Instance key_le_total : Total key_le.
Proof. intros p q. unfold key_le. apply cell_leb_total. Qed.

Lemma Sorted_fmap_elem {A B} (f : A → B) (R1 : relation A) (R2 : relation B)
    (l : list A) :
  (∀ x y, x ∈ l → y ∈ l → R1 x y → R2 (f x) (f y)) →
  Sorted R1 l → Sorted R2 (f <$> l).
Proof.
  intros Hf Hs. induction Hs as [|x l Hs IH Hhd]; simpl; constructor.
  - apply IH. intros y z Hy Hz. apply Hf; by right.
  - destruct Hhd as [|y l' Hxy]; simpl; constructor.
    apply Hf; [by left|right; by left|done].
Qed.

Lemma elem_of_zip_seq {A} (l : list A) (x : A) (i : nat) :
  (x, i) ∈ zip l (seq 0 (length l)) → l !! i = Some x.
Proof.
  intros Hin. apply list_elem_of_lookup in Hin as (j & Hj).
  apply lookup_zip_with_Some in Hj as (y & z & [= -> ->] & Hy & Hz).
  apply lookup_seq in Hz as [-> _]. done.
Qed.

Lemma nargsort_desc_Permutation (keys : list cell) :
  nargsort false keys ≡ₚ seq 0 (length keys).
Proof.
  unfold nargsort. rewrite reverse_Permutation, merge_sort_Permutation,
    reverse_Permutation.
  change (λ p : cell * nat, p.2) with (@snd cell nat).
  rewrite snd_zip; [done|]. by rewrite length_seq.
Qed.

Lemma nargsort_desc_Sorted (keys : list cell) (K : nat → cell) :
  (∀ i c, keys !! i = Some c → K i = c) →
  Sorted (λ i j, cell_leb (K j) (K i) = true) (nargsort false keys).
Proof.
  intros HK. unfold nargsort. rewrite <- fmap_reverse.
  set (items := zip keys (seq 0 (length keys))).
  apply (Sorted_fmap_elem _ (flip key_le)).
  - intros [c i] [c' j] Hi Hj Hle. simpl.
    assert (∀ p, p ∈ reverse (merge_sort key_le (reverse items)) → K p.2 = p.1)
      as Hitems.
    { intros [c0 i0] Hp. apply HK, elem_of_zip_seq.
      by rewrite reverse_Permutation, merge_sort_Permutation,
        reverse_Permutation in Hp. }
    pose proof (Hitems _ Hi) as Ei. pose proof (Hitems _ Hj) as Ej.
    simpl in Ei, Ej. rewrite Ei, Ej. exact Hle.
  - apply Sorted_reverse, Sorted_merge_sort. apply _.
Qed.

Lemma String_ltb_leb_contra (a b : string) :
  String.ltb a b = true → String.leb b a = true → False.
Proof.
  unfold String.ltb, String.leb. rewrite (String.compare_antisym a b).
  by destruct (String.compare b a).
Qed.

Lemma decreasing_rank (order : list Z) (k : nat) (t : Z) :
  StronglySorted (λ a b, b < a)%Z order →
  order !! k = Some t →
  length (filter (λ u, t < u)%Z order) = k.
Proof.
  intros Hs. revert k. induction Hs as [|a l Hs IH Hall]; intros k Hk.
  - by rewrite lookup_nil in Hk.
  - destruct k as [|k]; simpl in Hk.
    + inversion Hk; subst. rewrite filter_cons, decide_False by lia.
      rewrite filter_none; [done|].
      intros u Hu. rewrite Forall_forall in Hall. specialize (Hall u Hu). lia.
    + assert (t < a)%Z as Hlt.
      { rewrite Forall_forall in Hall. apply Hall.
        by eapply list_elem_of_lookup_2. }
      rewrite filter_cons, decide_True by done. simpl. f_equal. by apply IH.
Qed.

Lemma length_take_cells (idx : list nat) (c : list cell) :
  (∀ i, i ∈ idx → i < length c) → length (take_cells idx c) = length idx.
Proof.
  unfold take_cells. induction idx as [|i idx IH]; intros Hb; simpl; [done|].
  destruct (lookup_lt_is_Some_2 c i (Hb i ltac:(by left))) as [x ->].
  simpl. f_equal. apply IH. intros j Hj. apply Hb. by right.
Qed.

Lemma take_cells_fmap {A} (f : A → cell) (d : A) (l : list A) (idx : list nat) :
  (∀ i, i ∈ idx → i < length l) →
  take_cells idx (f <$> l) = (λ i, f (default d (l !! i))) <$> idx.
Proof.
  unfold take_cells. induction idx as [|i idx IH]; intros Hb; simpl; [done|].
  rewrite list_lookup_fmap.
  destruct (lookup_lt_is_Some_2 l i (Hb i ltac:(by left))) as [x ->].
  simpl. f_equal. apply IH. intros j Hj. apply Hb. by right.
Qed.

Lemma assoc_map_values {V W} (g : V → W) (k : string) (l : list (string * V)) :
  assoc k ((λ c : string * V, (c.1, g c.2)) <$> l) = g <$> assoc k l.
Proof.
  induction l as [|[k' v] l IH]; simpl; [done|].
  by destruct (decide (k = k')).
Qed.

Lemma assoc_rename (old new : string) idx (cols : list (string * list cell)) :
  assoc new cols = None →
  assoc new (df_columns (rename old new (mkDataFrame idx cols))) = assoc old cols.
Proof.
  unfold rename. simpl. induction cols as [|[k v] cols IH]; simpl; [done|].
  intros Hnew. destruct (decide (new = k)) as [->|Hne]; [done|].
  destruct (decide (k = old)) as [->|Hko]; simpl.
  - by rewrite !decide_True.
  - rewrite !decide_False by done. by apply IH.
Qed.

Lemma last_char_Ok (s : string) : s ≠ "" → ∃ c, last_char s = Ok c.
Proof.
  intros Hne. unfold last_char.
  destruct (reverse (list_ascii_of_string s)) as [|c l] eqn:Hrev; [|by eexists].
  exfalso. apply Hne.
  apply (f_equal reverse) in Hrev. rewrite reverse_involutive in Hrev.
  destruct s; [done|discriminate].
Qed.

(** ** The cross-validation table *)

Section FoldOrder.

Context `{Externals}.
Context (ts : list Z).

Hypothesis Hnodup : NoDup ts.
Hypothesis Hmono :
  ∀ a b, a ∈ ts → b ∈ ts → (a < b)%Z →
    String.ltb (astype_str (CTime a)) (astype_str (CTime b)) = true.

Lemma cv_order_Permutation : cv_order ts ≡ₚ seq 0 (length ts).
Proof using Type.
  unfold cv_order. rewrite nargsort_desc_Permutation. by rewrite length_fmap.
Qed.

Lemma cv_order_bound (i : nat) : i ∈ cv_order ts → i < length ts.
Proof using Type.
  rewrite cv_order_Permutation. intros Hi. apply list_elem_of_In, in_seq in Hi. lia.
Qed.

Lemma cutoff_at_seq : cutoff_at ts <$> seq 0 (length ts) = ts.
Proof using Type.
  apply list_eq. intros i. rewrite list_lookup_fmap.
  destruct (decide (i < length ts)) as [Hi|Hi].
  - rewrite lookup_seq_lt by done. simpl. unfold cutoff_at.
    by destruct (lookup_lt_is_Some_2 ts i Hi) as [x ->].
  - rewrite lookup_seq_ge by lia. symmetry. apply lookup_ge_None. lia.
Qed.

Lemma cv_order_times_Permutation : cutoff_at ts <$> cv_order ts ≡ₚ ts.
Proof using Type.
  rewrite cv_order_Permutation. by rewrite cutoff_at_seq.
Qed.

Lemma cutoff_at_elem (i : nat) : i < length ts → cutoff_at ts i ∈ ts.
Proof using Type.
  intros Hi. unfold cutoff_at.
  destruct (lookup_lt_is_Some_2 ts i Hi) as [x Hx]. rewrite Hx. simpl.
  by eapply list_elem_of_lookup_2.
Qed.

Lemma cutoff_at_inj (i j : nat) :
  i < length ts → j < length ts → cutoff_at ts i = cutoff_at ts j → i = j.
Proof using Hnodup.
  intros Hi Hj. unfold cutoff_at.
  destruct (lookup_lt_is_Some_2 ts i Hi) as [x Hx].
  destruct (lookup_lt_is_Some_2 ts j Hj) as [y Hy].
  rewrite Hx, Hy. simpl. intros ->. by eapply NoDup_lookup.
Qed.

Lemma sorted_positions_decreasing (perm : list nat) :
  NoDup perm →
  (∀ i, i ∈ perm → i < length ts) →
  Sorted (λ i j, cell_leb (render_time (cutoff_at ts j))
                   (render_time (cutoff_at ts i)) = true) perm →
  Sorted (λ a b, b < a)%Z (cutoff_at ts <$> perm).
Proof using All.
  intros Hnd Hb Hs. induction Hs as [|i l Hs IH Hhd]; simpl; constructor.
  - apply IH; [by apply NoDup_cons in Hnd as [_ ?]|].
    intros j Hj. apply Hb. by right.
  - destruct Hhd as [|j l' Hij]; simpl; constructor.
    assert (i < length ts) as Hi by (apply Hb; by left).
    assert (j < length ts) as Hj by (apply Hb; right; by left).
    assert (i ≠ j) as Hne.
    { intros ->. apply NoDup_cons in Hnd as [Hnin _]. apply Hnin. by left. }
    assert (cutoff_at ts i ≠ cutoff_at ts j) as Hne'.
    { intros Heq. by apply Hne, cutoff_at_inj. }
    destruct (Z.lt_trichotomy (cutoff_at ts i) (cutoff_at ts j))
      as [Hlt|[Heq|Hgt]]; [|done|done].
    exfalso. simpl in Hij.
    eapply String_ltb_leb_contra; [|exact Hij].
    apply Hmono; [by apply cutoff_at_elem..|done].
Qed.

(** The rows come out by strictly decreasing timestamp. *)
Lemma cv_order_decreasing :
  StronglySorted (λ a b, b < a)%Z (cutoff_at ts <$> cv_order ts).
Proof using All.
  assert (Transitive (λ a b : Z, (b < a)%Z)) by (intros a b c ??; lia).
  apply Sorted_StronglySorted; [apply _|].
  apply sorted_positions_decreasing.
  - rewrite cv_order_Permutation. apply NoDup_seq.
  - apply cv_order_bound.
  - unfold cv_order. apply nargsort_desc_Sorted.
    intros i c Hi. rewrite list_lookup_fmap in Hi. unfold cutoff_at.
    destruct (ts !! i); simpl in *; congruence.
Qed.

(** The row at position [k] holds the timestamp that has exactly [k]
    later ones. *)
Lemma cv_order_rank (k : nat) (t : Z) :
  (cutoff_at ts <$> cv_order ts) !! k = Some t →
  k = length (filter (λ u, t < u)%Z ts).
Proof using All.
  intros Hk. rewrite <- (decreasing_rank _ k t cv_order_decreasing Hk).
  apply Permutation_length. by rewrite cv_order_times_Permutation.
Qed.

End FoldOrder.

Lemma homogeneous_strings {A} (f : A → string) (l : list A) :
  homogeneous ((λ x, CStr (f x)) <$> l) = true.
Proof.
  apply homogeneous_spec. intros c c' Hc Hc'.
  apply list_elem_of_fmap in Hc as (x & -> & _).
  apply list_elem_of_fmap in Hc' as (x' & -> & _). done.
Qed.

Section CvRun.

Context `{Externals}.
Context (eval : eval_config) (dates : dates_config)
        (resampling : resampling_config).
Context (df : DataFrame) (ts : list Z) (fq : string).

Hypothesis Hindex : df_index df = range_index (length ts).
Hypothesis Hcutoff : getitem "cutoff" df = Ok (CTime <$> ts).
Hypothesis Hfresh : assoc "Valid Start" (df_columns df) = None.
Hypothesis Hfreq : last_char (freq resampling) = Ok fq.

Let delta : Z := cv_delta fq (folds_horizon dates).
Let cols := df_columns df.

Lemma renamed_start :
  getitem "Valid Start" (rename "cutoff" "Valid Start" df) = Ok (CTime <$> ts).
Proof using All.
  unfold getitem in *. destruct df as [idx cs]. rewrite assoc_rename by done.
  simpl in Hcutoff. by destruct (assoc "cutoff" cs).
Qed.

Lemma add_valid_end (d : Z) :
  (let D1 := rename "cutoff" "Valid Start" df in
   s ← getitem "Valid Start" D1;
   e ← series_map (add_seconds d) s;
   setitem "Valid End" ((λ c, CStr (astype_str c)) <$> e) D1)
  = Ok (mkDataFrame (range_index (length ts))
          (assoc_set "Valid End" ((λ t, render_time (t + d)) <$> ts)
             (df_columns (rename "cutoff" "Valid Start" (mkDataFrame [] cols))))).
Proof using All.
  cbv zeta. rewrite renamed_start. cbn [mbind result_bind].
  unfold series_map. rewrite result_mapM_fmap.
  rewrite (result_mapM_Ok _ (λ t, CTime (t + d))) by done.
  cbn [mbind result_bind].
  unfold setitem, nrows. cbn [df_index rename]. rewrite Hindex. cbn [range_index].
  rewrite !length_fmap, length_seq, decide_True by done.
  rewrite <- list_fmap_compose. reflexivity.
Qed.

Lemma render_valid_start (d : Z) :
  (let D2 := mkDataFrame (range_index (length ts))
               (assoc_set "Valid End" ((λ t, render_time (t + d)) <$> ts)
                  (df_columns (rename "cutoff" "Valid Start"
                                 (mkDataFrame [] cols)))) in
   s ← getitem "Valid Start" D2;
   setitem "Valid Start" ((λ c, CStr (astype_str c)) <$> s) D2)
  = Ok (cv_unsorted cols ts d).
Proof using All.
  cbv zeta. unfold getitem. cbn [df_columns].
  rewrite assoc_set_ne by done.
  pose proof renamed_start as Hstart. unfold getitem in Hstart.
  change (df_columns (rename "cutoff" "Valid Start" (mkDataFrame [] cols)))
    with (df_columns (rename "cutoff" "Valid Start" df)).
  destruct (assoc "Valid Start" (df_columns (rename "cutoff" "Valid Start" df)))
    as [c|]; [|discriminate].
  inversion Hstart; subst c. cbn [mbind result_bind].
  unfold setitem, nrows. cbn [df_index range_index].
  rewrite !length_fmap, length_seq, decide_True by done.
  unfold cv_unsorted. rewrite <- list_fmap_compose. reflexivity.
Qed.

Lemma sort_by_valid_start (d : Z) :
  (d' ← sort_values "Valid Start" false (cv_unsorted cols ts d);
   Ok (reset_index_drop d'))
  = Ok (mkDataFrame (range_index (length ts))
          (df_columns (take_rows (cv_order ts) (cv_unsorted cols ts d)))).
Proof using All.
  unfold sort_values, getitem, cv_unsorted. cbn [df_columns].
  rewrite assoc_set_eq. cbn [mbind result_bind].
  unfold render_time at 1. rewrite homogeneous_strings.
  cbn [mbind result_bind]. unfold reset_index_drop. do 2 f_equal.
  unfold nrows, take_rows. cbn [df_index range_index fmap list_fmap fst snd].
  fold (cv_order ts). rewrite length_take_cells.
  - rewrite cv_order_Permutation. by rewrite length_seq.
  - intros i Hi. rewrite length_fmap, length_seq. by apply cv_order_bound.
Qed.

Lemma label_folds (d : Z) :
  (let D4 := mkDataFrame (range_index (length ts))
               (df_columns (take_rows (cv_order ts) (cv_unsorted cols ts d))) in
   setitem (granularity eval)
     ((λ i, CStr ("Fold " +:+ pretty i)) <$> seq 1 (nrows D4)) D4)
  = Ok (cv_table (granularity eval) cols ts d).
Proof using All.
  cbv zeta. unfold setitem, nrows. cbn [df_index range_index].
  rewrite !length_fmap, !length_seq, decide_True by done. reflexivity.
Qed.

(** The function allocates two tables: the renamed copy, on which the
    two date columns are set in place, and the sorted one it returns. *)
Lemma format_metrics_df_cv_run (h : list DataFrame) (l : loc) :
  h !! l = Some df →
  __format_metrics_df_cv l dates eval resampling h
  = Ok (S (length h),
        h ++ [cv_unsorted cols ts delta;
              cv_table (granularity eval) cols ts delta]).
Proof using All.
  intros Hl. unfold __format_metrics_df_cv.
  rewrite bind_run,
    (new_from_Ok l (λ d, Ok (rename "cutoff" "Valid Start" d)) h df _ Hl eq_refl).
  rewrite bind_run. unfold lift at 1. rewrite Hfreq.
  rewrite bind_run.
  pose proof (add_valid_end delta) as Hend. cbv zeta in Hend.
  apply result_bind_inv in Hend as (s & Hs & Hend).
  apply result_bind_inv in Hend as (e & He & Hend).
  assert ((if bool_decide (fq ∈ ["s"; "H"])
           then
             d ← load (length h);
             s ← lift (getitem "Valid Start" d);
             e ← lift (series_map
                         (add_seconds
                            (convert_into_nb_of_seconds fq (folds_horizon dates)))
                         s);
             mutate (length h)
               (setitem "Valid End" ((λ c, CStr (astype_str c)) <$> e))
           else
             d ← load (length h);
             s ← lift (getitem "Valid Start" d);
             e ← lift (series_map
                         (add_seconds
                            (86400 * convert_into_nb_of_days fq (folds_horizon dates)))
                         s);
             mutate (length h)
               (setitem "Valid End" ((λ c, CStr (astype_str c)) <$> e)))
            (h ++ [rename "cutoff" "Valid Start" df])
          = Ok ((), h ++ [mkDataFrame (range_index (length ts))
                   (assoc_set "Valid End" ((λ t, render_time (t + delta)) <$> ts)
                      (df_columns (rename "cutoff" "Valid Start"
                                     (mkDataFrame [] cols))))])) as Hbranch.
  { unfold delta, cv_delta in *.
    destruct (bool_decide (fq ∈ ["s"; "H"]));
      rewrite bind_run, (load_Ok _ _ _ (lookup_snoc_last _ _));
      rewrite bind_run; unfold lift at 1; rewrite Hs;
      rewrite bind_run; unfold lift at 1; rewrite He;
      rewrite (mutate_Ok _ _ _ _ _ (lookup_snoc_last _ _) Hend);
      by rewrite insert_snoc_last. }
  rewrite Hbranch. clear Hbranch.
  pose proof (render_valid_start delta) as Hstart. cbv zeta in Hstart.
  apply result_bind_inv in Hstart as (s' & Hs' & Hstart).
  rewrite bind_run, bind_run, (load_Ok _ _ _ (lookup_snoc_last _ _)).
  rewrite bind_run. unfold lift at 1. rewrite Hs'.
  rewrite (mutate_Ok _ _ _ _ _ (lookup_snoc_last _ _) Hstart).
  rewrite insert_snoc_last.
  rewrite bind_run.
  rewrite (new_from_Ok _ _ _ _ _ (lookup_snoc_last _ _)
             (sort_by_valid_start delta)).
  rewrite bind_run, bind_run.
  assert (length (h ++ [cv_unsorted cols ts delta]) = S (length h)) as Hlen.
  { rewrite length_app. simpl. lia. }
  rewrite Hlen.
  assert (((h ++ [cv_unsorted cols ts delta]) ++
           [mkDataFrame (range_index (length ts))
              (df_columns (take_rows (cv_order ts) (cv_unsorted cols ts delta)))])
          !! S (length h)
          = Some (mkDataFrame (range_index (length ts))
                    (df_columns (take_rows (cv_order ts)
                                   (cv_unsorted cols ts delta))))) as Hlast.
  { rewrite <- Hlen. apply lookup_snoc_last. }
  rewrite (load_Ok _ _ _ Hlast).
  pose proof (label_folds delta) as Hfold. cbv zeta in Hfold.
  rewrite (mutate_Ok _ _ _ _ _ Hlast Hfold).
  rewrite insert_app_r_alt by (rewrite Hlen; lia).
  rewrite Hlen, Nat.sub_diag, <- app_assoc. reflexivity.
Qed.

End CvRun.

Lemma assoc_rename_other (old new k : string) idx
    (cols : list (string * list cell)) :
  k ≠ old → k ≠ new →
  assoc k (df_columns (rename old new (mkDataFrame idx cols))) = assoc k cols.
Proof.
  intros Ho Hn. unfold rename. simpl.
  induction cols as [|[k' v] cols IH]; simpl; [done|].
  destruct (decide (k' = old)) as [->|Hk]; simpl.
  - by rewrite !decide_False.
  - destruct (decide (k = k')); [done|apply IH].
Qed.

Section CvColumns.

Context `{Externals}.
Context (gran : string) (cols : list (string * list cell)) (ts : list Z) (d : Z).

Hypothesis Hgran : gran ∉ ["Valid Start"; "Valid End"].

Lemma cv_table_labels :
  getitem gran (cv_table gran cols ts d) = Ok (fold_labels (length ts)).
Proof using Type.
  unfold getitem, cv_table. cbn [df_columns]. by rewrite assoc_set_eq.
Qed.

Lemma cv_table_valid_start :
  getitem "Valid Start" (cv_table gran cols ts d)
  = Ok (render_time <$> (cutoff_at ts <$> cv_order ts)).
Proof using All.
  unfold getitem, cv_table, take_rows. cbn [df_columns].
  rewrite assoc_set_ne by (intros Heq; apply Hgran; rewrite Heq; elem_of_list).
  rewrite assoc_map_values. unfold cv_unsorted. cbn [df_columns].
  rewrite assoc_set_eq. cbn [fmap option_fmap option_map].
  rewrite (take_cells_fmap _ 0%Z) by (intros i; apply cv_order_bound).
  by rewrite <- list_fmap_compose.
Qed.

Lemma cv_table_valid_end :
  getitem "Valid End" (cv_table gran cols ts d)
  = Ok ((λ t, render_time (t + d)) <$> (cutoff_at ts <$> cv_order ts)).
Proof using All.
  unfold getitem, cv_table, take_rows. cbn [df_columns].
  rewrite assoc_set_ne by (intros Heq; apply Hgran; rewrite Heq; elem_of_list).
  rewrite assoc_map_values. unfold cv_unsorted. cbn [df_columns].
  rewrite assoc_set_ne by done. rewrite assoc_set_eq.
  cbn [fmap option_fmap option_map].
  rewrite (take_cells_fmap _ 0%Z) by (intros i; apply cv_order_bound).
  by rewrite <- list_fmap_compose.
Qed.

(** Every other column keeps its entries, moved with their rows. *)
Lemma cv_table_other (c : string) (col : list cell) :
  c ∉ [gran; "Valid Start"; "Valid End"; "cutoff"] →
  assoc c cols = Some col →
  getitem c (cv_table gran cols ts d) = Ok (take_cells (cv_order ts) col).
Proof using Type.
  intros Hc Hcol. unfold getitem, cv_table, take_rows. cbn [df_columns].
  rewrite assoc_set_ne by (intros Heq; apply Hc; rewrite Heq; elem_of_list).
  rewrite assoc_map_values. unfold cv_unsorted. cbn [df_columns].
  rewrite !assoc_set_ne by (intros Heq; apply Hc; rewrite <- Heq; elem_of_list).
  rewrite assoc_rename_other by (intros Heq; apply Hc; rewrite <- Heq; elem_of_list).
  by rewrite Hcol.
Qed.

End CvColumns.

(** C5.  In cross-validation mode, on fold rows with distinct "Valid
    Start" timestamps (rendered by a conversion that keeps their order, as
    ISO dates do), the rows come out by strictly decreasing timestamp and
    are labelled "Fold 1", "Fold 2", ... in that order: the row with the
    latest Valid Start is "Fold 1", and the row at position [k], labelled
    "Fold k+1", is the one with exactly [k] later folds.  Each row keeps its
    other entries. *)
Theorem folds_labelled_by_decreasing_valid_start `{Externals}
    (eval : eval_config) (dates : dates_config) (resampling : resampling_config)
    (h : list DataFrame) (l : loc) (df : DataFrame) (ts : list Z) :
  h !! l = Some df →
  df_index df = range_index (length ts) →
  getitem "cutoff" df = Ok (CTime <$> ts) →
  assoc "Valid Start" (df_columns df) = None →
  freq resampling ≠ "" →
  granularity eval ∉ ["Valid Start"; "Valid End"] →
  NoDup ts →
  (∀ a b, a ∈ ts → b ∈ ts → (a < b)%Z →
     String.ltb (astype_str (CTime a)) (astype_str (CTime b)) = true) →
  ∃ (l' : loc) (h' : list DataFrame) (table : DataFrame) (perm : list nat),
    let order := cutoff_at ts <$> perm in
    __format_metrics_df_cv l dates eval resampling h = Ok (l', h')
    ∧ h' !! l' = Some table
    ∧ perm ≡ₚ seq 0 (length ts)
    ∧ order ≡ₚ ts
    ∧ getitem (granularity eval) table
      = Ok ((λ i, CStr ("Fold " +:+ pretty i)) <$> seq 1 (length ts))
    ∧ getitem "Valid Start" table
      = Ok ((λ t, CStr (astype_str (CTime t))) <$> order)
    ∧ StronglySorted (λ a b, b < a)%Z order
    ∧ (∀ t, t ∈ ts → (∀ u, u ∈ ts → (u <= t)%Z) → order !! 0 = Some t)
    ∧ (∀ k t, order !! k = Some t → k = length (filter (λ u, t < u)%Z ts))
    ∧ (∀ c col, c ∉ [granularity eval; "Valid Start"; "Valid End"; "cutoff"] →
         getitem c df = Ok col →
         getitem c table = Ok (take_cells perm col)).
Proof.
  intros Hl Hidx Hcut Hfresh Hfreq Hgran Hnd Hmono.
  destruct (last_char_Ok _ Hfreq) as [fq Hfq].
  pose proof (format_metrics_df_cv_run eval dates resampling df ts fq
                Hidx Hcut Hfresh Hfq h l Hl) as Hrun.
  eexists _, _, _, (cv_order ts). cbv zeta.
  split; [exact Hrun|].
  split.
  { rewrite lookup_app_r by lia. by rewrite Nat.sub_succ_l, Nat.sub_diag. }
  split; [apply cv_order_Permutation|].
  split; [apply cv_order_times_Permutation|].
  split; [apply cv_table_labels|].
  split; [by apply cv_table_valid_start|].
  split; [by apply cv_order_decreasing|].
  split.
  { intros t Ht Hmax.
    assert (t ∈ cutoff_at ts <$> cv_order ts) as Hin
      by by rewrite cv_order_times_Permutation.
    apply list_elem_of_lookup in Hin as (k & Hk).
    rewrite (cv_order_rank ts Hnd Hmono k t Hk) in Hk.
    rewrite filter_none in Hk; [done|].
    intros u Hu. specialize (Hmax u Hu). lia. }
  split; [intros k t; by apply cv_order_rank|].
  intros c col Hc Hcol. apply cv_table_other; [done|].
  unfold getitem in Hcol. by destruct (assoc c (df_columns df)); inversion Hcol.
Qed.

Lemma folds_labelled_by_decreasing_valid_start_witness :
  ∃ (l' : loc) (h' : list DataFrame) (table : DataFrame) (order : list Z),
    __format_metrics_df_cv (H := sample_externals) 0 example_dates example_eval_cv
      example_resampling [example_metrics_table] = Ok (l', h')
    ∧ h' !! l' = Some table
    ∧ order ≡ₚ example_folds
    ∧ getitem (granularity example_eval_cv) table
      = Ok ((λ i, CStr ("Fold " +:+ pretty i)) <$> seq 1 (length example_folds))
    ∧ getitem "Valid Start" table
      = Ok ((λ t, CStr (astype_str (Externals := sample_externals) (CTime t)))
              <$> order)
    ∧ order !! 0 = Some 1614556800%Z.
Proof.
  assert (1614556800%Z ∈ example_folds) as Hlatest.
  { unfold example_folds. elem_of_list. }
  assert (∀ u, u ∈ example_folds → (u <= 1614556800)%Z) as Hmax.
  { intros u Hu. unfold example_folds in Hu.
    repeat (apply elem_of_cons in Hu as [->|Hu]); try lia.
    by apply not_elem_of_nil in Hu. }
  destruct (folds_labelled_by_decreasing_valid_start (H := sample_externals)
              example_eval_cv example_dates example_resampling
              [example_metrics_table] 0 example_metrics_table example_folds)
    as (l' & h' & table & perm & Hrun & Htable & _ & Hperm & Hlabels & Hstart
        & _ & Hfirst & _).
  - reflexivity.
  - reflexivity.
  - reflexivity.
  - reflexivity.
  - discriminate.
  - intros Hin. simpl in Hin. not_elem_of_list Hin.
  - unfold example_folds. repeat constructor; intros Hin; not_elem_of_list Hin.
  - intros a b Ha Hb Hlt. unfold example_folds in Ha, Hb.
    repeat (apply elem_of_cons in Ha as [->|Ha]);
      try (by apply not_elem_of_nil in Ha);
      repeat (apply elem_of_cons in Hb as [->|Hb]);
      try (by apply not_elem_of_nil in Hb);
      try lia; by vm_compute.
  - exists l', h', table, (cutoff_at example_folds <$> perm).
    split; [exact Hrun|]. split; [exact Htable|]. split; [exact Hperm|].
    split; [exact Hlabels|]. split; [exact Hstart|].
    exact (Hfirst _ Hlatest Hmax).
Defined.

(** ** The formatted results *)

Lemma load_inv_pair (l : loc) (h h1 : list DataFrame) (d : DataFrame) :
  load l h = Ok (d, h1) → h !! l = Some d ∧ h1 = h.
Proof. intros Hr. apply load_inv in Hr as (d0 & Hd & [= -> ->]). done. Qed.

Lemma lift_inv_pair {A} (x : result A) (h h1 : list DataFrame) (a : A) :
  lift x h = Ok (a, h1) → x = Ok a ∧ h1 = h.
Proof. intros Hr. apply lift_inv in Hr as (a0 & Hx & [= -> ->]). done. Qed.

Lemma mutate_inv_pair (l : loc) f (h h1 : list DataFrame) (u : unit) :
  mutate l f h = Ok (u, h1) →
  ∃ d d', h !! l = Some d ∧ f d = Ok d' ∧ h1 = <[l := d']> h.
Proof.
  intros Hr. apply mutate_inv in Hr as (d & d' & Hd & Hf & [= ->]). eauto.
Qed.

Lemma new_from_inv_pair (l l1 : loc) f (h h1 : list DataFrame) :
  new_from l f h = Ok (l1, h1) →
  ∃ d d', h !! l = Some d ∧ f d = Ok d' ∧ l1 = length h ∧ h1 = h ++ [d'].
Proof.
  intros Hr. apply new_from_inv in Hr as (d & d' & Hd & Hf & [= -> ->]).
  by exists d, d'.
Qed.

Lemma ret_inv_pair {A} (a b : A) (h h1 : list DataFrame) :
  (mret a : M A) h = Ok (b, h1) → b = a ∧ h1 = h.
Proof. intros Hr. by inversion Hr. Qed.

Lemma setitem_inv (name : string) (values : list cell) (d d' : DataFrame) :
  setitem name values d = Ok d' →
  df_index d' = df_index d
  ∧ df_columns d' = assoc_set name values (df_columns d)
  ∧ length values = nrows d.
Proof.
  unfold setitem. case_decide; [|discriminate]. intros [= <-]. done.
Qed.

Lemma getitem_inv (name : string) (d : DataFrame) (c : list cell) :
  getitem name d = Ok c → assoc name (df_columns d) = Some c.
Proof. unfold getitem. destruct (assoc name _); [|discriminate]. by intros [= ->]. Qed.

Lemma select_inv (names : list string) (d d' : DataFrame) :
  select names d = Ok d' →
  df_index d' = df_index d
  ∧ ∃ cs, df_columns d' = zip names cs
          ∧ Forall2 (λ n c, assoc n (df_columns d) = Some c) names cs.
Proof.
  unfold select. intros Hs. apply result_bind_inv in Hs as (cols & Hcols & [= <-]).
  split; [done|]. simpl.
  revert cols Hcols. induction names as [|n names IH]; intros cols Hcols.
  - simpl in Hcols. inversion Hcols. exists []. split; [done|constructor].
  - simpl in Hcols.
    apply result_bind_inv in Hcols as ([n' c] & Hn & Hcols).
    apply result_bind_inv in Hn as (c0 & Hc0 & [= <- <-]).
    apply result_bind_inv in Hcols as (cols' & Hcols' & [= <-]).
    destruct (IH _ Hcols') as (cs & -> & Hall).
    exists (c0 :: cs). split; [done|]. constructor; [|done].
    by apply getitem_inv.
Qed.

(** A per-metric table has the group-key column of the table it was
    selected from, and that table's column for the metric. *)
Lemma select_pair_inv (gran m : string) (d d' : DataFrame) :
  select [gran; m] d = Ok d' →
  getitem gran d' = getitem gran d ∧ getitem m d' = getitem m d.
Proof.
  intros Hs. apply select_inv in Hs as (_ & cs & Hcols & Hall).
  inversion Hall as [|? c1 ? cs1 Hg Hall1]; subst.
  inversion Hall1 as [|? c2 ? cs2 Hm Hall2]; subst.
  inversion Hall2; subst. unfold getitem. rewrite Hcols. simpl.
  rewrite decide_True by done. rewrite Hg. split; [done|].
  destruct (decide (m = gran)) as [->|Hne]; [by rewrite Hg|].
  rewrite decide_True by done. by rewrite Hm.
Qed.

Section Formatting.

Context `{Externals}.

(** The formatting step works on the one table it is given: the
    reference it returns is its argument, every other table in the store
    is left as it was, and the table itself keeps its index. *)
Lemma format_metrics_values_frame (l : loc) (eval : eval_config)
    (config : format_config) (h h' : list DataFrame) (r : loc) :
  __format_metrics_values l eval config h = Ok (r, h') →
  r = l
  ∧ length h' = length h
  ∧ (∀ l', l' ≠ l → h' !! l' = h !! l')
  ∧ (∀ d, h !! l = Some d →
       ∃ d', h' !! l = Some d' ∧ df_index d' = df_index d).
Proof.
  unfold __format_metrics_values. intros Hrun.
  apply bind_inv in Hrun as ([] & h1 & Hfor & Hret).
  apply ret_inv in Hret as [= -> ->]. split; [done|].
  revert Hfor.
  apply (for_inv_invariant
           (λ h1, length h1 = length h
                  ∧ (∀ l', l' ≠ l → h1 !! l' = h !! l')
                  ∧ (∀ d, h !! l = Some d →
                       ∃ d', h1 !! l = Some d' ∧ df_index d' = df_index d))).
  - split; [done|]. split; [done|]. intros d Hd. by exists d.
  - intros col h2 h3 _ (Hlen & Hother & Hsame) Hbody.
    apply bind_inv in Hbody as (d & h4 & Hload & Hbody).
    apply load_inv_pair in Hload as [Hd0 ->].
    apply bind_inv in Hbody as (s & h5 & Hget & Hbody).
    apply lift_inv_pair in Hget as [_ ->].
    apply bind_inv in Hbody as (s' & h6 & Hmap & Hbody).
    apply lift_inv_pair in Hmap as [_ ->].
    apply mutate_inv in Hbody as (d1 & d2 & Hd1 & Hset & [= ->]).
    rewrite Hd1 in Hd0. inversion Hd0; subst.
    apply setitem_inv in Hset as (Hidx & _ & _).
    split; [by rewrite length_insert|]. split.
    + intros l' Hne. rewrite list_lookup_insert_ne by done. by apply Hother.
    + intros d0 Hd. destruct (Hsame d0 Hd) as (d' & Hd' & Hidx').
      rewrite Hd' in Hd1. inversion Hd1; subst.
      exists d2. split; [|congruence].
      apply list_lookup_insert_eq. by eapply lookup_lt_Some.
Qed.

End Formatting.

(** The per-metric tables are new objects, one per requested metric,
    selected from the table behind [src]; nothing already in the store
    changes. *)
Lemma dict_comp_select_inv (gran : string) (src : loc) (keys : list string)
    (acc dict : gmap string loc) (h h' : list DataFrame) (X : DataFrame) :
  h !! src = Some X →
  dict_comp keys (λ m, new_from src (select [gran; m])) acc h = Ok (dict, h') →
  (∃ new, h' = h ++ new)
  ∧ ∀ m l, dict !! m = Some l →
      acc !! m = Some l
      ∨ (m ∈ keys ∧ length h ≤ l
         ∧ ∃ T, h' !! l = Some T ∧ select [gran; m] X = Ok T).
Proof.
  intros HX. revert acc h HX.
  induction keys as [|k keys IH]; intros acc h HX Hrun; simpl in Hrun.
  - apply ret_inv in Hrun as [= -> ->]. split; [exists []; by rewrite app_nil_r|].
    intros m l Hm. by left.
  - apply bind_inv in Hrun as (v & h1 & Hnew & Hrun).
    apply new_from_inv in Hnew as (X0 & T & HX0 & Hsel & [= -> ->]).
    rewrite HX in HX0. injection HX0 as <-.
    assert ((h ++ [T]) !! src = Some X) as HX1.
    { rewrite lookup_app_l; [done|]. by eapply lookup_lt_Some. }
    destruct (IH _ _ HX1 Hrun) as ((new & ->) & Hdict).
    split; [exists (T :: new); by rewrite <- app_assoc|].
    intros m l Hm. destruct (Hdict m l Hm) as [Hacc|(Hin & Hl & T' & HT' & Hsel')].
    + apply lookup_insert_Some in Hacc as [[<- <-]|[_ Hacc]]; [|by left].
      right. split; [by left|]. split; [done|]. exists T. split; [|done].
      rewrite <- app_assoc. by apply list_lookup_middle.
    + right. split; [by right|]. split.
      { rewrite length_app in Hl. simpl in Hl. lia. }
      eauto.
Qed.

Lemma select_cons_getitem (n : string) (names : list string) (d s : DataFrame) :
  select (n :: names) d = Ok s →
  ∃ c, getitem n d = Ok c ∧ getitem n s = Ok c.
Proof.
  intros Hs. apply select_inv in Hs as (_ & cs & Hcols & Hall).
  inversion Hall as [|? c ? cs' Hn _]; subst. exists c.
  unfold getitem. rewrite Hn, Hcols. simpl. by rewrite decide_True.
Qed.

Lemma set_index_single_inv (n : string) (s d : DataFrame) :
  set_index [n] s = Ok d →
  ∃ c, getitem n s = Ok c ∧ df_index d = [(Some n, c)].
Proof.
  unfold set_index. intros Hs.
  apply result_bind_inv in Hs as (levels & Hlv & [= <-]). simpl in Hlv.
  apply result_bind_inv in Hlv as ([n' c] & Hn & [= <-]).
  apply result_bind_inv in Hn as (c0 & Hc0 & [= <- <-]). by exists c0.
Qed.

Lemma set_index_three_inv (n1 n2 n3 : string) (s d : DataFrame) :
  set_index [n1; n2; n3] s = Ok d →
  ∃ c1 c2 c3, getitem n1 s = Ok c1
              ∧ df_index d = [(Some n1, c1); (Some n2, c2); (Some n3, c3)].
Proof.
  unfold set_index. intros Hs.
  apply result_bind_inv in Hs as (levels & Hlv & [= <-]). simpl in Hlv.
  apply result_bind_inv in Hlv as ([n1' c1] & Hn1 & Hlv).
  apply result_bind_inv in Hn1 as (c1' & Hc1 & [= <- <-]).
  apply result_bind_inv in Hlv as (lv & Hlv & [= <-]).
  apply result_bind_inv in Hlv as ([n2' c2] & Hn2 & Hlv).
  apply result_bind_inv in Hn2 as (c2' & Hc2 & [= <- <-]).
  apply result_bind_inv in Hlv as (lv' & Hlv & [= <-]).
  apply result_bind_inv in Hlv as ([n3' c3] & Hn3 & [= <-]).
  apply result_bind_inv in Hn3 as (c3' & Hc3 & [= <- <-]).
  by exists c1', c2', c3'.
Qed.

Lemma loc_set_three_inv (n1 n2 n3 : option string) (c1 c2 c3 : list cell)
    (cols : list (string * list cell)) (row : list (string * cell))
    (k1 k2 k3 : cell) (d : DataFrame) :
  k1 ∉ c1 →
  loc_set [k1; k2; k3] row (mkDataFrame [(n1, c1); (n2, c2); (n3, c3)] cols) = Ok d →
  df_index d = [(n1, c1 ++ [k1]); (n2, c2 ++ [k2]); (n3, c3 ++ [k3])].
Proof.
  intros Hk. unfold loc_set. simpl.
  rewrite existsb_hits_false by (intros i; by apply index_row_three).
  by intros [= <-].
Qed.

Lemma reset_index_three_inv (n1 n2 n3 : string) (c1 c2 c3 : list cell)
    (cols : list (string * list cell)) (r : DataFrame) :
  reset_index (mkDataFrame [(Some n1, c1); (Some n2, c2); (Some n3, c3)] cols) = Ok r →
  df_columns r = [(n1, c1); (n2, c2); (n3, c3)] ++ cols.
Proof.
  unfold reset_index, level_name. simpl.
  destruct (_ && _); [|discriminate]. by intros [= <-].
Qed.

Lemma fold_label_not_summary (n : nat) (s : string) :
  s = "Avg" ∨ s = "Std" → CStr s ∉ fold_labels n.
Proof.
  intros Hs Hin. unfold fold_labels in Hin.
  apply list_elem_of_fmap in Hin as (i & Heq & _).
  destruct Hs as [->| ->]; simpl in Heq; discriminate.
Qed.

Section Results.

Context `{Externals}.

(** What [__format_metrics_df_cv] returns carries the fold labels. *)
Lemma format_metrics_df_cv_inv (l : loc) (dates : dates_config)
    (eval : eval_config) (resampling : resampling_config)
    (h h' : list DataFrame) (l' : loc) :
  __format_metrics_df_cv l dates eval resampling h = Ok (l', h') →
  ∃ X, h' !! l' = Some X
       ∧ getitem (granularity eval) X = Ok (fold_labels (nrows X)).
Proof.
  unfold __format_metrics_df_cv. intros Hrun.
  apply bind_inv in Hrun as (l1 & h1 & _ & Hrun).
  apply bind_inv in Hrun as (fq & h2 & _ & Hrun).
  apply bind_inv in Hrun as ([] & h3 & _ & Hrun).
  apply bind_inv in Hrun as ([] & h4 & _ & Hrun).
  apply bind_inv in Hrun as (l2 & h5 & _ & Hrun).
  apply bind_inv in Hrun as ([] & h6 & Hlabel & Hret).
  apply ret_inv_pair in Hret as [-> ->].
  apply bind_inv in Hlabel as (d & h7 & Hload & Hmut).
  apply load_inv_pair in Hload as [Hd0 ->].
  apply mutate_inv_pair in Hmut as (d1 & d2 & Hd1 & Hset & ->).
  rewrite Hd1 in Hd0. injection Hd0 as <-.
  apply setitem_inv in Hset as (Hidx & Hcols & _).
  exists d2. split.
  - apply list_lookup_insert_eq. by eapply lookup_lt_Some.
  - unfold getitem. rewrite Hcols, assoc_set_eq. unfold nrows.
    by rewrite Hidx.
Qed.

(** What [__add_avg_std_metrics] returns is a new table whose labels are
    those of its argument followed by "Avg" and "Std". *)
Lemma add_avg_std_metrics_inv (l : loc) (eval : eval_config)
    (h h' : list DataFrame) (l' : loc) (X : DataFrame) (labels : list cell) :
  h !! l = Some X →
  getitem (granularity eval) X = Ok labels →
  CStr "Avg" ∉ labels → CStr "Std" ∉ labels →
  __add_avg_std_metrics l eval h = Ok (l', h') →
  length h ≤ l'
  ∧ (∃ new, h' = h ++ new)
  ∧ ∃ D, h' !! l' = Some D
         ∧ df_index D
           = [(Some (granularity eval), labels ++ [CStr "Avg"; CStr "Std"])].
Proof.
  intros HX Hlabels Havg Hstd. unfold __add_avg_std_metrics. intros Hrun.
  apply bind_inv in Hrun as (l1 & h1 & Hnew & Hrun).
  apply new_from_inv_pair in Hnew as (X0 & F0 & HX0 & HF0 & -> & ->).
  rewrite HX in HX0. injection HX0 as <-.
  apply result_bind_inv in HF0 as (s & Hsel & Hidx).
  apply set_index_three_inv in Hidx as (c1 & c2 & c3 & Hc1 & Hidx).
  apply select_cons_getitem in Hsel as (c & Hc & Hc').
  rewrite Hlabels in Hc. injection Hc as <-.
  rewrite Hc' in Hc1. injection Hc1 as <-.
  apply bind_inv in Hrun as ([] & h2 & Havg_step & Hrun).
  apply bind_inv in Havg_step as (d & h3 & Hload & Hmut).
  apply load_inv_pair in Hload as [Hd0 ->].
  rewrite lookup_snoc_last in Hd0. injection Hd0 as <-.
  apply bind_inv in Hmut as (avg & h4 & Hlift & Hmut).
  apply lift_inv_pair in Hlift as [_ ->].
  apply mutate_inv_pair in Hmut as (d1 & F1 & Hd1 & Hset & ->).
  rewrite lookup_snoc_last in Hd1. injection Hd1 as <-.
  rewrite insert_snoc_last in Hrun.
  destruct F0 as [idx0 cols0]. simpl in Hidx. subst idx0.
  apply loc_set_three_inv in Hset; [|done].
  apply bind_inv in Hrun as ([] & h5 & Hstd_step & Hrun).
  apply bind_inv in Hstd_step as (d & h6 & Hload & Hmut).
  apply load_inv_pair in Hload as [Hd0' ->].
  rewrite lookup_snoc_last in Hd0'. injection Hd0' as <-.
  apply bind_inv in Hmut as (std & h7 & Hlift & Hmut).
  apply lift_inv_pair in Hlift as [_ ->].
  apply mutate_inv_pair in Hmut as (d1 & F2 & Hd1' & Hset' & ->).
  rewrite lookup_snoc_last in Hd1'. injection Hd1' as <-.
  rewrite insert_snoc_last in Hrun.
  destruct F1 as [idx1 cols1]. simpl in Hset. subst idx1.
  apply loc_set_three_inv in Hset'.
  2:{ intros Hin. apply elem_of_app in Hin as [Hin|Hin]; [done|].
      by apply list_elem_of_singleton in Hin. }
  apply bind_inv in Hrun as (l2 & h8 & Hnew & Hret).
  apply ret_inv_pair in Hret as [-> ->].
  apply new_from_inv_pair in Hnew as (F2' & F3 & HF2 & HF3 & -> & ->).
  rewrite lookup_snoc_last in HF2. injection HF2 as <-.
  apply result_bind_inv in HF3 as (r & Hreset & Hidx3).
  destruct F2 as [idx2 cols2]. simpl in Hset'. subst idx2.
  apply reset_index_three_inv in Hreset.
  apply set_index_single_inv in Hidx3 as (c & Hc3 & Hidx3).
  unfold getitem in Hc3. rewrite Hreset in Hc3. simpl in Hc3.
  rewrite decide_True in Hc3 by done. inversion Hc3; subst.
  split; [rewrite length_app; lia|].
  split; [eexists; by rewrite <- app_assoc|].
  exists F3. split; [apply lookup_snoc_last|].
  by rewrite Hidx3, <- !app_assoc.
Qed.

End Results.

Lemma dict_comp_dom (f : string → M loc) (keys : list string)
    (acc dict : gmap string loc) (h h' : list DataFrame) :
  dict_comp keys f acc h = Ok (dict, h') →
  ∀ m, m ∈ keys ∨ is_Some (acc !! m) → is_Some (dict !! m).
Proof.
  revert acc h. induction keys as [|k keys IH]; intros acc h Hrun m Hm;
    simpl in Hrun.
  - apply ret_inv_pair in Hrun as [-> ->]. destruct Hm as [Hm|Hm]; [|done].
    by apply not_elem_of_nil in Hm.
  - apply bind_inv in Hrun as (v & h1 & _ & Hrun).
    apply (IH _ _ Hrun). destruct (decide (m = k)) as [->|Hne].
    + right. rewrite lookup_insert_eq. by eexists.
    + destruct Hm as [Hm|Hm].
      * left. apply elem_of_cons in Hm as [?|?]; done.
      * right. by rewrite lookup_insert_ne.
Qed.

Lemma dict_comp_dangling (gran : string) (src : loc) (keys : list string)
    (acc dict : gmap string loc) (h h' : list DataFrame) :
  h !! src = None →
  dict_comp keys (λ m, new_from src (select [gran; m])) acc h = Ok (dict, h') →
  h' = h.
Proof.
  intros Hsrc Hrun. destruct keys as [|k keys]; simpl in Hrun.
  - by apply ret_inv in Hrun as [= _ ->].
  - apply bind_inv in Hrun as (v & h1 & Hnew & _).
    apply new_from_inv in Hnew as (X & _ & HX & _). congruence.
Qed.

Section ResultsShape.

Context `{Externals}.
Context (dates : dates_config) (eval : eval_config)
        (resampling : resampling_config) (config : format_config).

(** The shape of what [_format_eval_results] returns.  [X] is the table
    the per-metric tables are selected from: the metrics table itself in
    plain mode, the relabelled table in cross-validation mode. *)
Lemma format_eval_results_inv (mdf : loc) (use_cv : bool)
    (h h' : list DataFrame) (disp : loc) (dict : gmap string loc) :
  _format_eval_results mdf dates eval resampling use_cv config h
  = Ok ((disp, dict), h') →
  ∃ (X : DataFrame) (labels : list cell),
    getitem (granularity eval) X = Ok labels
    ∧ (if use_cv
       then ∃ lc h1, __format_metrics_df_cv mdf dates eval resampling h
                     = Ok (lc, h1)
                     ∧ h1 !! lc = Some X
                     ∧ labels = fold_labels (nrows X)
       else h !! mdf = Some X)
    ∧ (∀ m, m ∈ metrics eval ↔ is_Some (dict !! m))
    ∧ (∃ h_pre, __format_metrics_values disp eval config h_pre = Ok (disp, h')
         ∧ ∀ m l, dict !! m = Some l →
             l ≠ disp
             ∧ ∃ T, h_pre !! l = Some T ∧ h' !! l = Some T
                    ∧ select [granularity eval; m] X = Ok T)
    ∧ ∃ D, h' !! disp = Some D
           ∧ df_index D
             = [(Some (granularity eval),
                 if use_cv then labels ++ [CStr "Avg"; CStr "Std"] else labels)].
Proof.
  unfold _format_eval_results. intros Hrun.
  apply bind_inv in Hrun as ([ld dict0] & h2 & Hbranch & Hfmt).
  apply bind_inv in Hfmt as (r & h3 & Hvals & Hret).
  apply ret_inv_pair in Hret as [[= -> ->] ->].
  destruct (format_metrics_values_frame _ _ _ _ _ _ Hvals)
    as (-> & Hlen & Hother & Hsame).
  destruct use_cv.
  - (* cross-validation *)
    apply bind_inv in Hbranch as (lc & h1 & Hcv & Hbranch).
    apply bind_inv in Hbranch as (dict1 & h4 & Hdict & Hbranch).
    apply bind_inv in Hbranch as (ld' & h5 & Hadd & Hret).
    apply ret_inv_pair in Hret as [[= -> ->] ->].
    destruct (format_metrics_df_cv_inv _ _ _ _ _ _ _ Hcv) as (X & HX & Hlabels).
    destruct (dict_comp_select_inv _ _ _ _ _ _ _ _ HX Hdict)
      as ((new & ->) & Hsel).
    assert ((h1 ++ new) !! lc = Some X) as HX'.
    { rewrite lookup_app_l; [done|]. by eapply lookup_lt_Some. }
    destruct (add_avg_std_metrics_inv _ _ _ _ _ _ _ HX' Hlabels
                (fold_label_not_summary _ "Avg" (or_introl eq_refl))
                (fold_label_not_summary _ "Std" (or_intror eq_refl)) Hadd)
      as (Hfresh & (new' & ->) & D & HD & Hidx).
    exists X, (fold_labels (nrows X)). split; [done|].
    split; [by exists lc, h1|].
    split.
    { intros m. split.
      - intros Hm. apply (dict_comp_dom _ _ _ _ _ _ Hdict). by left.
      - intros [l Hl]. destruct (Hsel m l Hl) as [Hempty|(Hm & _)]; [|done].
        by rewrite lookup_empty in Hempty. }
    split.
    { eexists. split; [exact Hvals|].
      intros m l Hl. destruct (Hsel m l Hl) as [Hempty|(_ & _ & T & HT & HselT)].
      { by rewrite lookup_empty in Hempty. }
      assert (l < length (h1 ++ new)) as Hlt by by eapply lookup_lt_Some.
      split; [lia|]. exists T.
      assert (((h1 ++ new) ++ new') !! l = Some T) as Hpre
        by by rewrite lookup_app_l.
      split; [done|]. split; [|done]. by rewrite Hother by lia. }
    destruct (Hsame D HD) as (D' & HD' & Hidx').
    exists D'. split; [done|]. by rewrite Hidx'.
  - (* plain *)
    apply bind_inv in Hbranch as (dict1 & h1 & Hdict & Hbranch).
    apply bind_inv in Hbranch as (ld' & h4 & Hnew & Hret).
    apply ret_inv_pair in Hret as [[= -> ->] ->].
    apply new_from_inv_pair in Hnew as (X & D & HX1 & HD & -> & ->).
    apply result_bind_inv in HD as (s & Hs & Hidx).
    apply set_index_single_inv in Hidx as (c & Hc & Hidx).
    apply select_cons_getitem in Hs as (labels & Hlabels & Hc').
    rewrite Hc' in Hc. injection Hc as <-.
    assert (h !! mdf = Some X) as HX.
    { destruct (h !! mdf) as [X0|] eqn:HX0.
      - destruct (dict_comp_select_inv _ _ _ _ _ _ _ _ HX0 Hdict)
          as ((new & ->) & _).
        rewrite lookup_app_l in HX1; [congruence|]. by eapply lookup_lt_Some.
      - apply dict_comp_dangling in Hdict as ->; [|done]. congruence. }
    destruct (dict_comp_select_inv _ _ _ _ _ _ _ _ HX Hdict)
      as ((new & ->) & Hsel).
    exists X, labels. split; [done|]. split; [done|].
    split.
    { intros m. split.
      - intros Hm. apply (dict_comp_dom _ _ _ _ _ _ Hdict). by left.
      - intros [l Hl]. destruct (Hsel m l Hl) as [Hempty|(Hm & _)]; [|done].
        by rewrite lookup_empty in Hempty. }
    split.
    { eexists. split; [exact Hvals|].
      intros m l Hl. destruct (Hsel m l Hl) as [Hempty|(_ & _ & T & HT & HselT)].
      { by rewrite lookup_empty in Hempty. }
      assert (l < length (h ++ new)) as Hlt by by eapply lookup_lt_Some.
      split; [lia|]. exists T.
      assert (((h ++ new) ++ [D]) !! l = Some T) as Hpre
        by by rewrite lookup_app_l.
      split; [done|]. split; [|done]. by rewrite Hother by lia. }
    destruct (Hsame D (lookup_snoc_last _ _)) as (D' & HD' & Hidx').
    exists D'. split; [done|]. by rewrite Hidx'.
Qed.

End ResultsShape.

(** ** What the metrics table holds *)

Lemma for_inv_indexed {A} (I : list A → list DataFrame → Prop)
    (body : A → M unit) (l : list A) (h h' : list DataFrame) :
  I [] h →
  (∀ pre x post h1 h2, l = pre ++ x :: post →
     I pre h1 → body x h1 = Ok ((), h2) → I (pre ++ [x]) h2) →
  for_ l body h = Ok ((), h') → I l h'.
Proof.
  intros HI Hbody.
  assert (∀ todo done_ h0, done_ ++ todo = l → I done_ h0 →
            for_ todo body h0 = Ok ((), h') → I l h') as Hgen.
  { induction todo as [|x todo IH]; intros done_ h0 Heq HI0 Hfor.
    - simpl in Hfor. apply ret_inv in Hfor as [= ->].
      rewrite app_nil_r in Heq. by subst.
    - simpl in Hfor. apply bind_inv in Hfor as ([] & h1 & Hx & Hfor).
      apply (IH (done_ ++ [x]) h1); [by rewrite <- app_assoc| |done].
      by apply (Hbody done_ x todo h0 h1). }
  by apply (Hgen l [] h).
Qed.

Lemma result_mapM_Forall {A B} (f : A → result B) (P : B → Prop)
    (l : list A) (ys : list B) :
  (∀ x y, f x = Ok y → P y) → result_mapM f l = Ok ys → Forall P ys.
Proof.
  intros Hf. revert ys. induction l as [|x l IH]; intros ys Hys; simpl in Hys.
  - inversion Hys. constructor.
  - apply result_bind_inv in Hys as (y & Hy & Hys).
    apply result_bind_inv in Hys as (ys' & Hys' & [= <-]).
    constructor; [by eapply Hf|by apply IH].
Qed.

Lemma Forall_floats (c : list cell) :
  Forall (λ x, ∃ r, x = CFloat r) c → ∃ xs, c = floats xs.
Proof.
  induction 1 as [|x c [r ->] _ [xs ->]]; [by exists []|by exists (r :: xs)].
Qed.

Lemma scored_cell_is_float (fns : gmap string metric_fn) (m : string) {X}
    (get : string → X → result arg) (x : X) (y : cell) :
  (f ← dict_get fns m; t ← get "truth" x; p ← get "forecast" x;
   r ← f t p; Ok (CFloat r)) = Ok y →
  ∃ r, y = CFloat r.
Proof.
  intros Hy.
  apply result_bind_inv in Hy as (f & _ & Hy).
  apply result_bind_inv in Hy as (t & _ & Hy).
  apply result_bind_inv in Hy as (p & _ & Hy).
  apply result_bind_inv in Hy as (r & _ & [= <-]). by exists r.
Qed.

Lemma apply_axis1_floats (fns : gmap string metric_fn) (m : string)
    (d : DataFrame) (col : list cell) :
  apply_axis1 (λ x, f ← dict_get fns m; t ← attr_scalar "truth" x;
                    p ← attr_scalar "forecast" x; r ← f t p; Ok (CFloat r)) d
  = Ok col →
  ∃ xs, col = floats xs.
Proof.
  unfold apply_axis1. destruct (nrows d); [discriminate|]. intros Hcol.
  apply Forall_floats. eapply result_mapM_Forall; [|exact Hcol].
  intros i y Hy. exact (scored_cell_is_float fns m attr_scalar _ _ Hy).
Qed.

Lemma groupby_apply_floats (fns : gmap string metric_fn) (m by_ : string)
    (cols : list string) (d : DataFrame) (col : list cell) :
  groupby_apply by_ cols
    (λ x, f ← dict_get fns m; t ← attr_series "truth" x;
          p ← attr_series "forecast" x; r ← f t p; Ok (CFloat r)) d
  = Ok col →
  ∃ xs, col = floats xs.
Proof.
  unfold groupby_apply. intros Hcol.
  apply result_bind_inv in Hcol as (keys & _ & Hcol).
  apply result_bind_inv in Hcol as (gs & _ & Hcol).
  apply result_bind_inv in Hcol as (cs & _ & Hcol).
  destruct gs; [discriminate|].
  apply Forall_floats. eapply result_mapM_Forall; [|exact Hcol].
  intros g y Hy. exact (scored_cell_is_float fns m attr_series _ _ Hy).
Qed.

Lemma sorted_cells_inv (l gs : list cell) :
  sorted_cells l = Ok gs →
  Sorted (λ a b, cell_leb a b = true) gs ∧ gs ≡ₚ l.
Proof.
  unfold sorted_cells. destruct (homogeneous l); [|discriminate].
  intros [= <-]. split.
  - apply (Sorted_fmap _ key_le); [done|]. apply Sorted_merge_sort. apply _.
  - rewrite merge_sort_Permutation.
    change (λ p : cell * nat, p.1) with (@fst cell nat).
    rewrite fst_zip; [done|]. by rewrite length_seq.
Qed.

Lemma scored_step (lm : loc) (gran : string) (ms : list string) (ks : list cell)
    (pre : list string) (m : string) (h : list DataFrame) (X X' : DataFrame)
    (xs : list npfloat) :
  m ∈ ms →
  scored lm gran ms ks pre h →
  h !! lm = Some X →
  setitem m (floats xs) X = Ok X' →
  scored lm gran ms ks (pre ++ [m]) (<[lm := X']> h).
Proof.
  intros Hm (X0 & HX0 & Hfl & Hkeys) HX Hset.
  rewrite HX in HX0. injection HX0 as <-.
  apply setitem_inv in Hset as (_ & Hcols & _).
  exists X'. split.
  { apply list_lookup_insert_eq. by eapply lookup_lt_Some. }
  split.
  - intros m' Hm'. unfold getitem. rewrite Hcols.
    destruct (decide (m = m')) as [<-|Hne].
    + exists xs. by rewrite assoc_set_eq.
    + rewrite assoc_set_ne by done.
      apply elem_of_app in Hm' as [Hm'|Hm'].
      * apply Hfl in Hm'. exact Hm'.
      * apply list_elem_of_singleton in Hm'. congruence.
  - intros Hg. unfold getitem. rewrite Hcols.
    rewrite assoc_set_ne by (intros ->; by apply Hg).
    by apply Hkeys.
Qed.

(** Whatever the mode, the table [_compute_metrics] returns has a column
    of floats for every requested metric; unless a metric bears the name of
    the grouping key, its key column lists the groups in ascending order,
    each once. *)
Lemma compute_metrics_inv (l : loc) (fns : gmap string metric_fn)
    (eval : eval_config) (h h' : list DataFrame) (lm : loc) :
  _compute_metrics l fns eval h = Ok (lm, h') →
  ∃ X, h' !! lm = Some X
       ∧ (∀ m, m ∈ metrics eval → ∃ xs, getitem m X = Ok (floats xs))
       ∧ (granularity eval ∉ metrics eval →
          ∃ ks, getitem (granularity eval) X = Ok ks
                ∧ Sorted (λ a b, cell_leb a b = true) ks ∧ NoDup ks).
Proof.
  unfold _compute_metrics. intros Hrun.
  destruct (get_perf_on_agg_forecast eval).
  - apply bind_inv in Hrun as (lm' & h1 & Hnew & Hrun).
    apply bind_inv in Hrun as ([] & h2 & Hfor & Hret).
    apply ret_inv_pair in Hret as [-> ->].
    apply new_from_inv_pair in Hnew as (d & X0 & Hd & HX0 & -> & ->).
    apply result_bind_inv in HX0 as (g & Hg & Hreset).
    unfold groupby_agg_sum in Hg.
    apply result_bind_inv in Hg as (keys & _ & Hg).
    apply result_bind_inv in Hg as (gs & Hgs & Hg).
    apply result_bind_inv in Hg as (sums & _ & [= <-]).
    unfold reset_index, level_name in Hreset. simpl in Hreset.
    destruct (_ && _) in Hreset; [|discriminate]. inversion Hreset; subst.
    clear Hreset.
    apply sorted_cells_inv in Hgs as (Hsorted & Hperm).
    assert (scored (length h) (granularity eval) (metrics eval) gs
              (metrics eval) h2) as (X & HX & Hfl & Hkeys).
    { revert Hfor. apply for_inv_indexed.
      - eexists. split; [apply lookup_snoc_last|]. split.
        + intros m Hm. by apply not_elem_of_nil in Hm.
        + intros _. unfold getitem. simpl. by rewrite decide_True.
      - intros pre m post h3 h4 Heq Hinv Hbody.
        apply bind_inv in Hbody as (d1 & h5 & Hload & Hbody).
        apply load_inv_pair in Hload as [Hd2 ->].
        apply bind_inv in Hbody as (sub_ & h6 & Hsub & Hbody).
        apply lift_inv_pair in Hsub as [_ ->].
        apply bind_inv in Hbody as (col & h7 & Hcol & Hbody).
        apply lift_inv_pair in Hcol as [Hcol ->].
        apply apply_axis1_floats in Hcol as (xs & ->).
        apply mutate_inv_pair in Hbody as (d3 & d4 & Hd3 & Hset & ->).
        eapply scored_step; [|done..]. rewrite Heq. set_solver. }
    exists X. split; [done|]. split; [done|].
    intros Hg. exists gs. split; [by apply Hkeys|]. split; [done|].
    rewrite Hperm. apply NoDup_remove_dups.
  - apply bind_inv in Hrun as (d & h1 & Hload & Hrun).
    apply load_inv_pair in Hload as [Hd0 ->].
    apply bind_inv in Hrun as (keys & h2 & Hkeys & Hrun).
    apply lift_inv_pair in Hkeys as [_ ->].
    apply bind_inv in Hrun as (ks & h3 & Hks & Hrun).
    apply lift_inv_pair in Hks as [Hks ->].
    apply bind_inv in Hrun as (lm' & h4 & Halloc & Hrun).
    unfold alloc in Halloc. inversion Halloc; subst lm' h4. clear Halloc.
    apply bind_inv in Hrun as ([] & h5 & Hfor & Hret).
    apply ret_inv_pair in Hret as [-> ->].
    apply sorted_cells_inv in Hks as (Hsorted & Hperm).
    assert (scored (length h) (granularity eval) (metrics eval) ks
              (metrics eval) h5) as (X & HX & Hfl & Hkeys).
    { revert Hfor. apply for_inv_indexed.
      - eexists. split; [apply lookup_snoc_last|]. split.
        + intros m Hm. by apply not_elem_of_nil in Hm.
        + intros _. unfold getitem, of_dict. simpl. by rewrite decide_True.
      - intros pre m post h6 h7 Heq Hinv Hbody.
        apply bind_inv in Hbody as (d1 & h8 & Hload & Hbody).
        apply load_inv_pair in Hload as [Hd2 ->].
        apply bind_inv in Hbody as (col & h9 & Hcol & Hbody).
        apply lift_inv_pair in Hcol as [Hcol ->].
        apply groupby_apply_floats in Hcol as (xs & ->).
        apply mutate_inv_pair in Hbody as (d3 & d4 & Hd3 & Hset & ->).
        eapply scored_step; [|done..]. rewrite Heq. set_solver. }
    exists X. split; [done|]. split; [done|].
    intros Hg. exists ks. split; [by apply Hkeys|]. split; [done|].
    rewrite Hperm. apply NoDup_remove_dups.
Qed.

Lemma take_cells_floats (idx : list nat) (xs : list npfloat) :
  take_cells idx (floats xs) = floats (omap (λ i, xs !! i) idx).
Proof.
  unfold take_cells, floats. induction idx as [|i idx IH]; simpl; [done|].
  rewrite list_lookup_fmap. fold (omap (λ i, (CFloat <$> xs) !! i) idx).
  fold (omap (λ i, xs !! i) idx).
  destruct (xs !! i); simpl; by rewrite IH.
Qed.

Lemma sort_values_inv (name : string) (ascending : bool) (d d' : DataFrame) :
  sort_values name ascending d = Ok d' → ∃ idx, d' = take_rows idx d.
Proof.
  unfold sort_values. intros Hs. apply result_bind_inv in Hs as (keys & _ & Hs).
  destruct (homogeneous keys); [|discriminate]. inversion Hs. by eexists.
Qed.

Lemma setitem_other (name m : string) (values : list cell) (d d' : DataFrame) :
  setitem name values d = Ok d' → m ≠ name → getitem m d' = getitem m d.
Proof.
  intros Hset Hne. apply setitem_inv in Hset as (_ & Hcols & _).
  unfold getitem. rewrite Hcols. by rewrite assoc_set_ne.
Qed.

Section CvFloats.

Context `{Externals}.

(** A metric column goes through the relabelling with its entries moved
    along with their rows: it is still a column of floats. *)
Lemma format_metrics_df_cv_floats (l : loc) (dates : dates_config)
    (eval : eval_config) (resampling : resampling_config)
    (h h' : list DataFrame) (lc : loc) (X0 : DataFrame) (m : string)
    (xs : list npfloat) :
  __format_metrics_df_cv l dates eval resampling h = Ok (lc, h') →
  h !! l = Some X0 →
  getitem m X0 = Ok (floats xs) →
  m ∉ [granularity eval; "cutoff"; "Valid Start"; "Valid End"] →
  ∃ X xs', h' !! lc = Some X ∧ getitem m X = Ok (floats xs').
Proof.
  unfold __format_metrics_df_cv. intros Hrun HX0 Hm Hnames.
  assert (m ≠ granularity eval ∧ m ≠ "cutoff" ∧ m ≠ "Valid Start"
          ∧ m ≠ "Valid End") as (Hn1 & Hn2 & Hn3 & Hn4).
  { repeat split; intros ->; apply Hnames; elem_of_list. }
  apply bind_inv in Hrun as (l1 & h1 & Hnew & Hrun).
  apply new_from_inv_pair in Hnew as (X0' & D1 & HX0' & HD1 & -> & ->).
  rewrite HX0 in HX0'. injection HX0' as <-. injection HD1 as <-.
  assert (getitem m (rename "cutoff" "Valid Start" X0) = Ok (floats xs)) as Hm1.
  { unfold getitem in *. destruct X0 as [idx cols].
    by rewrite assoc_rename_other. }
  apply bind_inv in Hrun as (fq & h2 & Hfq & Hrun).
  apply lift_inv_pair in Hfq as [_ ->].
  apply bind_inv in Hrun as ([] & h3 & Hend & Hrun).
  assert (∃ D2, h3 = h ++ [D2] ∧ getitem m D2 = Ok (floats xs)) as (D2 & -> & Hm2).
  { destruct (bool_decide _) in Hend;
      apply bind_inv in Hend as (d & h4 & Hload & Hend);
      apply load_inv_pair in Hload as [Hd0 ->];
      rewrite lookup_snoc_last in Hd0; injection Hd0 as <-;
      apply bind_inv in Hend as (s & h5 & Hs & Hend);
      apply lift_inv_pair in Hs as [_ ->];
      apply bind_inv in Hend as (e & h6 & He & Hend);
      apply lift_inv_pair in He as [_ ->];
      apply mutate_inv_pair in Hend as (d1 & d2 & Hd1 & Hset & ->);
      rewrite lookup_snoc_last in Hd1; injection Hd1 as <-;
      exists d2; rewrite insert_snoc_last; (split; [reflexivity|]);
      rewrite (setitem_other _ _ _ _ _ Hset); assumption. }
  apply bind_inv in Hrun as ([] & h4 & Hstart & Hrun).
  assert (∃ D3, h4 = h ++ [D3] ∧ getitem m D3 = Ok (floats xs)) as (D3 & -> & Hm3).
  { apply bind_inv in Hstart as (d & h5 & Hload & Hstart).
    apply load_inv_pair in Hload as [Hd0 ->].
    rewrite lookup_snoc_last in Hd0. injection Hd0 as <-.
    apply bind_inv in Hstart as (s & h6 & Hs & Hstart).
    apply lift_inv_pair in Hs as [_ ->].
    apply mutate_inv_pair in Hstart as (d1 & d2 & Hd1 & Hset & ->).
    rewrite lookup_snoc_last in Hd1. injection Hd1 as <-.
    exists d2. rewrite insert_snoc_last. split; [done|].
    by rewrite (setitem_other _ _ _ _ _ Hset). }
  apply bind_inv in Hrun as (l2 & h5 & Hsort & Hrun).
  apply new_from_inv_pair in Hsort as (D3' & D4 & HD3 & HD4 & -> & ->).
  rewrite lookup_snoc_last in HD3. injection HD3 as <-.
  apply result_bind_inv in HD4 as (D3s & Hsorted & [= <-]).
  apply sort_values_inv in Hsorted as (idx & ->).
  assert (getitem m (reset_index_drop (take_rows idx D3))
          = Ok (floats (omap (λ i, xs !! i) idx))) as Hm4.
  { unfold getitem in *. simpl. rewrite assoc_map_values.
    destruct (assoc m (df_columns D3)) as [c|]; [|discriminate].
    inversion Hm3; subst. simpl. by rewrite take_cells_floats. }
  apply bind_inv in Hrun as ([] & h6 & Hlabel & Hret).
  apply ret_inv_pair in Hret as [-> ->].
  apply bind_inv in Hlabel as (d & h7 & Hload & Hlabel).
  apply load_inv_pair in Hload as [Hd0 ->].
  rewrite lookup_snoc_last in Hd0. injection Hd0 as <-.
  apply mutate_inv_pair in Hlabel as (d1 & d2 & Hd1 & Hset & ->).
  rewrite lookup_snoc_last in Hd1. injection Hd1 as <-.
  exists d2, (omap (λ i, xs !! i) idx). split.
  - rewrite insert_snoc_last. apply lookup_snoc_last.
  - by rewrite (setitem_other _ _ _ _ _ Hset).
Qed.

End CvFloats.

(** ** The public entry point *)

Section EntryPoint.

Context `{Externals}.
Context (eval : eval_config) (dates : dates_config)
        (resampling : resampling_config) (config : format_config).

(** What a call that returns has built.  [X] is the table the per-metric
    tables are selected from, [h_pre] the store just before the final
    formatting step. *)
Lemma get_perf_metrics_inv (evaluation_df : loc) (use_cv : bool)
    (h h' : list DataFrame) (disp : loc) (dict : gmap string loc) :
  get_perf_metrics evaluation_df eval dates resampling use_cv config h
  = Ok ((disp, dict), h') →
  ∃ (X : DataFrame) (labels : list cell),
    getitem (granularity eval) X = Ok labels
    ∧ (if use_cv then labels = fold_labels (nrows X)
       else granularity eval ∉ metrics eval →
            Sorted (λ a b, cell_leb a b = true) labels ∧ NoDup labels)
    ∧ ((∀ m, m ∈ metrics eval → m ∈ metric_names) →
       granularity eval ∉ metric_names →
       ∀ m, m ∈ metrics eval → ∃ xs, getitem m X = Ok (floats xs))
    ∧ (∀ m, m ∈ metrics eval ↔ is_Some (dict !! m))
    ∧ (∃ h_pre, __format_metrics_values disp eval config h_pre = Ok (disp, h')
         ∧ ∀ m l, dict !! m = Some l →
             l ≠ disp
             ∧ ∃ T, h_pre !! l = Some T ∧ h' !! l = Some T
                    ∧ select [granularity eval; m] X = Ok T)
    ∧ ∃ D, h' !! disp = Some D
           ∧ df_index D
             = [(Some (granularity eval),
                 if use_cv then labels ++ [CStr "Avg"; CStr "Std"] else labels)].
Proof.
  unfold get_perf_metrics. intros Hrun.
  apply bind_inv in Hrun as (df & h1 & _ & Hrun).
  apply bind_inv in Hrun as (mdf & h2 & Hcompute & Hrun).
  apply bind_inv in Hrun as ([disp' dict'] & h3 & Hformat & Hret).
  apply ret_inv_pair in Hret as [[= -> ->] ->].
  destruct (compute_metrics_inv _ _ _ _ _ _ Hcompute) as (X0 & HX0 & Hfl & Hks).
  destruct (format_eval_results_inv _ _ _ _ _ _ _ _ _ _ Hformat)
    as (X & labels & Hlabels & Hmode & Hdom & Hpre & Hdisp).
  exists X, labels. split; [done|].
  destruct use_cv.
  - destruct Hmode as (lc & h4 & Hcv & HX & ->).
    split; [done|]. split; [|done].
    intros Hnames Hgran m Hm.
    destruct (Hfl m Hm) as (xs & Hxs).
    destruct (format_metrics_df_cv_floats _ _ _ _ _ _ _ _ m xs Hcv HX0 Hxs)
      as (X' & xs' & HX' & Hxs').
    + intros Hin. apply elem_of_cons in Hin as [->|Hin].
      * by apply Hgran, Hnames.
      * apply Hnames in Hm. unfold metric_names in Hm.
        repeat (apply elem_of_cons in Hin as [->|Hin];
                [not_elem_of_list Hm|]).
        by apply not_elem_of_nil in Hin.
    + rewrite HX in HX'. injection HX' as <-. by exists xs'.
  - rewrite HX0 in Hmode. injection Hmode as <-.
    split; [|split; [|done]].
    + intros Hg. destruct (Hks Hg) as (ks & Hks' & Hsorted & Hnd).
      rewrite Hlabels in Hks'. by inversion Hks'; subst.
    + intros _ _. exact Hfl.
Qed.

End EntryPoint.

(** ** The fold order through the entry point *)

Lemma add_seconds_times (n : Z) (s e : list cell) :
  series_map (add_seconds n) s = Ok e → ∃ ts, s = CTime <$> ts.
Proof.
  unfold series_map. revert e. induction s as [|c s IH]; intros e He.
  - by exists [].
  - simpl in He. apply result_bind_inv in He as (y & Hy & He).
    apply result_bind_inv in He as (ys & Hys & _).
    destruct (IH _ Hys) as (ts & ->).
    destruct c; try discriminate. by exists (t :: ts).
Qed.

Lemma nrows_take_rows (idx : list nat) (d : DataFrame) :
  (∀ i, i ∈ idx → i < nrows d) → nrows d = length idx →
  nrows (take_rows idx d) = length idx.
Proof.
  unfold nrows, take_rows. destruct d as [[|[n c] index] cols]; simpl.
  - intros _ Hlen. exact Hlen.
  - intros Hb _. by apply length_take_cells.
Qed.

Lemma sort_values_desc_Ok (name : string) (d d' : DataFrame) (keys : list cell) :
  getitem name d = Ok keys →
  sort_values name false d = Ok d' → d' = take_rows (nargsort false keys) d.
Proof.
  unfold sort_values. intros ->. cbn [mbind result_bind].
  destruct (homogeneous keys); [|discriminate]. by intros [= <-].
Qed.

Section CvRows.

Context `{Externals}.

(** The relabelling seen from its result: the column that becomes "Valid
    Start" holds timestamps [ts]; the rows of the table come out in the
    order [cv_order ts], the one of [sort_values] on the rendered
    timestamps, and every other column moves with its rows. *)
Lemma format_metrics_df_cv_rows (l : loc) (dates : dates_config)
    (eval : eval_config) (resampling : resampling_config)
    (h h' : list DataFrame) (lc : loc) (X0 : DataFrame) :
  __format_metrics_df_cv l dates eval resampling h = Ok (lc, h') →
  h !! l = Some X0 →
  ∃ (X : DataFrame) (ts : list Z),
    h' !! lc = Some X
    ∧ getitem "Valid Start" (rename "cutoff" "Valid Start" X0) = Ok (CTime <$> ts)
    ∧ getitem (granularity eval) X = Ok (fold_labels (length ts))
    ∧ (granularity eval ≠ "Valid Start" →
       getitem "Valid Start" X
       = Ok (render_time <$> (cutoff_at ts <$> cv_order ts)))
    ∧ (∀ m col, m ∉ [granularity eval; "cutoff"; "Valid Start"; "Valid End"] →
         getitem m X0 = Ok col →
         getitem m X = Ok (take_cells (cv_order ts) col)).
Proof.
  unfold __format_metrics_df_cv. intros Hrun HX0.
  apply bind_inv in Hrun as (l1 & h1 & Hnew & Hrun).
  apply new_from_inv_pair in Hnew as (X0' & D1 & HX0' & HD1 & -> & ->).
  rewrite HX0 in HX0'. injection HX0' as <-. injection HD1 as <-.
  apply bind_inv in Hrun as (fq & h2 & Hfq & Hrun).
  apply lift_inv_pair in Hfq as [_ ->].
  apply bind_inv in Hrun as ([] & h3 & Hend & Hrun).
  assert (∃ D2 ts ends,
            h3 = h ++ [D2]
            ∧ getitem "Valid Start" (rename "cutoff" "Valid Start" X0)
              = Ok (CTime <$> ts)
            ∧ setitem "Valid End" ends (rename "cutoff" "Valid Start" X0) = Ok D2)
    as (D2 & ts & ends & -> & Hts & Hset2).
  { destruct (bool_decide _) in Hend;
      apply bind_inv in Hend as (d & h4 & Hload & Hend);
      apply load_inv_pair in Hload as [Hd0 ->];
      rewrite lookup_snoc_last in Hd0; injection Hd0 as <-;
      apply bind_inv in Hend as (s & h5 & Hs & Hend);
      apply lift_inv_pair in Hs as [Hs ->];
      apply bind_inv in Hend as (e & h6 & He & Hend);
      apply lift_inv_pair in He as [He ->];
      apply mutate_inv_pair in Hend as (d1 & d2 & Hd1 & Hset & ->);
      rewrite lookup_snoc_last in Hd1; injection Hd1 as <-;
      apply add_seconds_times in He as (ts & ->);
      exists d2, ts; eexists; rewrite insert_snoc_last;
      (split; [reflexivity|]); (split; [exact Hs|exact Hset]). }
  apply bind_inv in Hrun as ([] & h4 & Hstart & Hrun).
  assert (h4 = h ++ [mkDataFrame (df_index D2)
                       (assoc_set "Valid Start" (render_time <$> ts)
                          (df_columns D2))]
          ∧ length ts = nrows D2) as (-> & Hlen).
  { apply bind_inv in Hstart as (d & h5 & Hload & Hstart).
    apply load_inv_pair in Hload as [Hd0 ->].
    rewrite lookup_snoc_last in Hd0. injection Hd0 as <-.
    apply bind_inv in Hstart as (s & h6 & Hs & Hstart).
    apply lift_inv_pair in Hs as [Hs ->].
    apply mutate_inv_pair in Hstart as (d1 & d2 & Hd1 & Hset & ->).
    rewrite lookup_snoc_last in Hd1. injection Hd1 as <-.
    rewrite (setitem_other _ _ _ _ _ Hset2) in Hs by done.
    rewrite Hts in Hs. injection Hs as <-.
    rewrite <- list_fmap_compose in Hset.
    apply setitem_inv in Hset as (Hidx & Hcols & Hlen).
    rewrite length_fmap in Hlen.
    rewrite insert_snoc_last. split; [|exact Hlen].
    do 2 f_equal. destruct d2 as [i2 c2]. simpl in *. by subst. }
  set (D3 := mkDataFrame (df_index D2) _) in *.
  apply bind_inv in Hrun as (l2 & h5 & Hsort & Hrun).
  apply new_from_inv_pair in Hsort as (D3' & D4 & HD3 & HD4 & -> & ->).
  rewrite lookup_snoc_last in HD3. injection HD3 as <-.
  apply result_bind_inv in HD4 as (D3s & Hsorted & [= <-]).
  assert (getitem "Valid Start" D3 = Ok (render_time <$> ts)) as Hkeys.
  { unfold getitem, D3. simpl. by rewrite assoc_set_eq. }
  apply (sort_values_desc_Ok _ _ _ _ Hkeys) in Hsorted as ->.
  change (nargsort false (render_time <$> ts)) with (cv_order ts) in *.
  apply bind_inv in Hrun as ([] & h6 & Hlabel & Hret).
  apply ret_inv_pair in Hret as [-> ->].
  apply bind_inv in Hlabel as (d & h7 & Hload & Hlabel).
  apply load_inv_pair in Hload as [Hd0 ->].
  rewrite lookup_snoc_last in Hd0. injection Hd0 as <-.
  apply mutate_inv_pair in Hlabel as (d1 & X & Hd1 & Hset & ->).
  rewrite lookup_snoc_last in Hd1. injection Hd1 as <-.
  assert (nrows (reset_index_drop (take_rows (cv_order ts) D3)) = length ts)
    as Hrows.
  { unfold reset_index_drop, nrows at 1. simpl.
    rewrite length_fmap, length_seq.
    assert (length (cv_order ts) = length ts) as Hperm.
    { rewrite cv_order_Permutation. apply length_seq. }
    rewrite nrows_take_rows; [exact Hperm| |].
    - intros i Hi. apply cv_order_bound in Hi.
      unfold nrows, D3. simpl. fold (nrows D2). lia.
    - unfold nrows, D3. simpl. fold (nrows D2). lia. }
  rewrite Hrows in Hset.
  exists X, ts. split.
  { rewrite insert_snoc_last. apply lookup_snoc_last. }
  split; [exact Hts|].
  pose proof Hset as Hset'. apply setitem_inv in Hset' as (_ & Hcols & _).
  split.
  { unfold getitem. by rewrite Hcols, assoc_set_eq. }
  split.
  { intros Hg. rewrite (setitem_other _ _ _ _ _ Hset) by done.
    unfold getitem. simpl. rewrite assoc_map_values, assoc_set_eq. simpl.
    rewrite (take_cells_fmap _ 0%Z) by (intros i; apply cv_order_bound).
    by rewrite <- list_fmap_compose. }
  intros m col Hm Hcol.
  assert (m ≠ granularity eval ∧ m ≠ "cutoff" ∧ m ≠ "Valid Start"
          ∧ m ≠ "Valid End") as (Hn1 & Hn2 & Hn3 & Hn4).
  { repeat split; intros ->; apply Hm; elem_of_list. }
  rewrite (setitem_other _ _ _ _ _ Hset) by done.
  unfold getitem. simpl. rewrite assoc_map_values.
  rewrite assoc_set_ne by done.
  apply setitem_inv in Hset2 as (_ & Hcols2 & _). rewrite Hcols2.
  rewrite assoc_set_ne by done.
  destruct X0 as [idx0 cols0]. rewrite assoc_rename_other by done.
  unfold getitem in Hcol. simpl in Hcol.
  destruct (assoc m cols0); [|discriminate]. by injection Hcol as ->.
Qed.

End CvRows.

Lemma set_index_three_levels (n1 n2 n3 : string) (s d : DataFrame) :
  set_index [n1; n2; n3] s = Ok d →
  ∃ c1 c2 c3, getitem n1 s = Ok c1 ∧ getitem n2 s = Ok c2
              ∧ getitem n3 s = Ok c3
              ∧ df_index d = [(Some n1, c1); (Some n2, c2); (Some n3, c3)].
Proof.
  unfold set_index. intros Hs.
  apply result_bind_inv in Hs as (levels & Hlv & [= <-]). simpl in Hlv.
  apply result_bind_inv in Hlv as ([n1' c1] & Hn1 & Hlv).
  apply result_bind_inv in Hn1 as (c1' & Hc1 & [= <- <-]).
  apply result_bind_inv in Hlv as (lv & Hlv & [= <-]).
  apply result_bind_inv in Hlv as ([n2' c2] & Hn2 & Hlv).
  apply result_bind_inv in Hn2 as (c2' & Hc2 & [= <- <-]).
  apply result_bind_inv in Hlv as (lv' & Hlv & [= <-]).
  apply result_bind_inv in Hlv as ([n3' c3] & Hn3 & [= <-]).
  apply result_bind_inv in Hn3 as (c3' & Hc3 & [= <- <-]).
  by exists c1', c2', c3'.
Qed.

Lemma set_index_single_cols (n : string) (s d : DataFrame) :
  set_index [n] s = Ok d →
  df_columns d = filter (λ c : string * list cell, c.1 ∉ [n]) (df_columns s).
Proof.
  unfold set_index. intros Hs.
  by apply result_bind_inv in Hs as (levels & _ & [= <-]).
Qed.

Lemma select_second_getitem (n1 n2 : string) (names : list string)
    (d s : DataFrame) :
  select (n1 :: n2 :: names) d = Ok s → n1 ≠ n2 →
  ∃ c, getitem n2 d = Ok c ∧ getitem n2 s = Ok c.
Proof.
  intros Hs Hne. apply select_inv in Hs as (_ & cs & Hcols & Hall).
  inversion Hall as [|? c1 ? cs1 Hn1 Hall1]; subst.
  inversion Hall1 as [|? c2 ? cs2 Hn2 _]; subst.
  exists c2. unfold getitem. rewrite Hn2, Hcols. simpl.
  rewrite decide_False by (intros Heq; by apply Hne).
  by rewrite decide_True.
Qed.

Lemma add_avg_std_metrics_starts (l : loc) (eval : eval_config)
    (h h' : list DataFrame) (l' : loc) (X : DataFrame)
    (labels starts : list cell) :
  h !! l = Some X →
  getitem (granularity eval) X = Ok labels →
  getitem "Valid Start" X = Ok starts →
  granularity eval ≠ "Valid Start" →
  CStr "Avg" ∉ labels → CStr "Std" ∉ labels →
  __add_avg_std_metrics l eval h = Ok (l', h') →
  ∃ D, h' !! l' = Some D
       ∧ getitem "Valid Start" D = Ok (starts ++ [CStr ""; CStr ""]).
Proof.
  intros HX Hlabels Hstarts Hgran Havg Hstd. unfold __add_avg_std_metrics.
  intros Hrun.
  apply bind_inv in Hrun as (l1 & h1 & Hnew & Hrun).
  apply new_from_inv_pair in Hnew as (X0 & F0 & HX0 & HF0 & -> & ->).
  rewrite HX in HX0. injection HX0 as <-.
  apply result_bind_inv in HF0 as (s & Hsel & Hidx).
  apply set_index_three_levels in Hidx as (c1 & c2 & c3 & Hc1 & Hc2 & _ & Hidx).
  pose proof Hsel as Hsel2.
  apply select_cons_getitem in Hsel as (c & Hc & Hc').
  rewrite Hlabels in Hc. injection Hc as <-.
  rewrite Hc' in Hc1. injection Hc1 as <-.
  apply select_second_getitem in Hsel2 as (c & Hc & Hc''); [|exact Hgran].
  rewrite Hstarts in Hc. injection Hc as <-.
  rewrite Hc'' in Hc2. injection Hc2 as <-.
  apply bind_inv in Hrun as ([] & h2 & Havg_step & Hrun).
  apply bind_inv in Havg_step as (d & h3 & Hload & Hmut).
  apply load_inv_pair in Hload as [Hd0 ->].
  rewrite lookup_snoc_last in Hd0. injection Hd0 as <-.
  apply bind_inv in Hmut as (avg & h4 & Hlift & Hmut).
  apply lift_inv_pair in Hlift as [_ ->].
  apply mutate_inv_pair in Hmut as (d1 & F1 & Hd1 & Hset & ->).
  rewrite lookup_snoc_last in Hd1. injection Hd1 as <-.
  rewrite insert_snoc_last in Hrun.
  destruct F0 as [idx0 cols0]. simpl in Hidx. subst idx0.
  apply loc_set_three_inv in Hset; [|exact Havg].
  apply bind_inv in Hrun as ([] & h5 & Hstd_step & Hrun).
  apply bind_inv in Hstd_step as (d & h6 & Hload & Hmut).
  apply load_inv_pair in Hload as [Hd0' ->].
  rewrite lookup_snoc_last in Hd0'. injection Hd0' as <-.
  apply bind_inv in Hmut as (std & h7 & Hlift & Hmut).
  apply lift_inv_pair in Hlift as [_ ->].
  apply mutate_inv_pair in Hmut as (d1 & F2 & Hd1' & Hset' & ->).
  rewrite lookup_snoc_last in Hd1'. injection Hd1' as <-.
  rewrite insert_snoc_last in Hrun.
  destruct F1 as [idx1 cols1]. simpl in Hset. subst idx1.
  apply loc_set_three_inv in Hset'.
  2:{ intros Hin. apply elem_of_app in Hin as [Hin|Hin]; [by apply Hstd|].
      by apply list_elem_of_singleton in Hin. }
  apply bind_inv in Hrun as (l2 & h8 & Hnew & Hret).
  apply ret_inv_pair in Hret as [-> ->].
  apply new_from_inv_pair in Hnew as (F2' & F3 & HF2 & HF3 & -> & ->).
  rewrite lookup_snoc_last in HF2. injection HF2 as <-.
  apply result_bind_inv in HF3 as (r & Hreset & Hidx3).
  destruct F2 as [idx2 cols2]. simpl in Hset'. subst idx2.
  apply reset_index_three_inv in Hreset.
  apply set_index_single_cols in Hidx3.
  exists F3. split; [apply lookup_snoc_last|].
  unfold getitem. rewrite Hidx3, Hreset. simpl.
  rewrite filter_cons, decide_False by (intros Hn; apply Hn; simpl; by left).
  rewrite filter_cons, decide_True.
  2:{ simpl. intros Hin. apply list_elem_of_singleton in Hin.
      apply Hgran. by symmetry. }
  simpl. by rewrite <- !app_assoc.
Qed.

Section CvDisplay.

Context `{Externals}.
Context (dates : dates_config) (eval : eval_config)
        (resampling : resampling_config) (config : format_config).

(** The final formatting rewrites the metric columns of the display table
    and no other column. *)
Lemma format_metrics_values_other (l r : loc) (h h' : list DataFrame)
    (d : DataFrame) (c : string) :
  __format_metrics_values l eval config h = Ok (r, h') →
  h !! l = Some d → c ∉ metrics eval →
  ∃ d', h' !! l = Some d' ∧ getitem c d' = getitem c d.
Proof.
  unfold __format_metrics_values. intros Hrun Hd Hc.
  apply bind_inv in Hrun as ([] & h1 & Hfor & Hret).
  apply ret_inv_pair in Hret as [-> ->].
  revert Hfor.
  apply (for_inv_invariant
           (λ h1, ∃ d', h1 !! l = Some d' ∧ getitem c d' = getitem c d)).
  - by exists d.
  - intros col h2 h3 Hcol (d' & Hd' & Hsame) Hbody.
    apply bind_inv in Hbody as (d0 & h4 & Hload & Hbody).
    apply load_inv_pair in Hload as [Hd0 ->].
    apply bind_inv in Hbody as (s & h5 & Hget & Hbody).
    apply lift_inv_pair in Hget as [_ ->].
    apply bind_inv in Hbody as (s' & h6 & Hmap & Hbody).
    apply lift_inv_pair in Hmap as [_ ->].
    apply mutate_inv_pair in Hbody as (d1 & d2 & Hd1 & Hset & ->).
    rewrite Hd' in Hd1. injection Hd1 as <-.
    exists d2. split.
    + apply list_lookup_insert_eq. by eapply lookup_lt_Some.
    + rewrite (setitem_other _ _ _ _ _ Hset); [exact Hsame|].
      intros ->. by apply Hc.
Qed.

(** Cross-validation mode, from the table of scores [X0] to the results:
    the column that is renamed to "Valid Start" holds the fold starts
    [ts]; the rows are rearranged by [cv_order ts] and labelled "Fold 1",
    "Fold 2", ...; a per-metric table holds these labels and the scores,
    moved with their rows; the display table holds the labels and the
    rendered starts, followed by the two summary rows. *)
Lemma format_eval_results_cv_rows (mdf : loc) (h h' : list DataFrame)
    (disp : loc) (dict : gmap string loc) (X0 : DataFrame) :
  _format_eval_results mdf dates eval resampling true config h
  = Ok ((disp, dict), h') →
  h !! mdf = Some X0 →
  ∃ (ts : list Z) (D : DataFrame),
    getitem "Valid Start" (rename "cutoff" "Valid Start" X0) = Ok (CTime <$> ts)
    ∧ h' !! disp = Some D
    ∧ df_index D
      = [(Some (granularity eval),
          fold_labels (length ts) ++ [CStr "Avg"; CStr "Std"])]
    ∧ (granularity eval ≠ "Valid Start" → "Valid Start" ∉ metrics eval →
       getitem "Valid Start" D
       = Ok ((render_time <$> (cutoff_at ts <$> cv_order ts))
             ++ [CStr ""; CStr ""]))
    ∧ (∀ m l, dict !! m = Some l →
         ∃ T, h' !! l = Some T
              ∧ getitem (granularity eval) T = Ok (fold_labels (length ts))
              ∧ (m ∉ [granularity eval; "cutoff"; "Valid Start"; "Valid End"] →
                 ∀ col, getitem m X0 = Ok col →
                   getitem m T = Ok (take_cells (cv_order ts) col))).
Proof.
  intros Hrun HX0.
  destruct (format_eval_results_inv _ _ _ _ _ _ _ _ _ _ Hrun)
    as (X & labels & Hlabels & (lc & h1 & Hcv & HX & ->) & _ & (h_pre & _ & Htables)
        & D & HD & Hidx).
  destruct (format_metrics_df_cv_rows _ _ _ _ _ _ _ _ Hcv HX0)
    as (X' & ts & HX' & Hts & Hfold & Hstart & Hother).
  rewrite HX in HX'. injection HX' as <-.
  rewrite Hlabels in Hfold. injection Hfold as Hfold.
  exists ts, D. split; [exact Hts|]. split; [exact HD|].
  split; [by rewrite Hidx, Hfold|].
  split.
  - intros Hgran Hvs. specialize (Hstart Hgran).
    unfold _format_eval_results in Hrun.
    apply bind_inv in Hrun as ([ld dict0] & h2 & Hbranch & Hfmt).
    apply bind_inv in Hfmt as (r & h3 & Hvals & Hret).
    apply ret_inv_pair in Hret as [[= -> ->] ->].
    apply bind_inv in Hbranch as (lc' & h1' & Hcv' & Hbranch).
    rewrite Hcv in Hcv'. injection Hcv' as <- <-.
    apply bind_inv in Hbranch as (dict1 & h4 & Hdict & Hbranch).
    apply bind_inv in Hbranch as (ld' & h5 & Hadd & Hret).
    apply ret_inv_pair in Hret as [[= -> ->] ->].
    destruct (dict_comp_select_inv _ _ _ _ _ _ _ _ HX Hdict) as ((new & ->) & _).
    assert ((h1 ++ new) !! lc = Some X) as HXn.
    { rewrite lookup_app_l; [exact HX|]. by eapply lookup_lt_Some. }
    rewrite Hfold in Hlabels.
    destruct (add_avg_std_metrics_starts _ _ _ _ _ _ _ _ HXn Hlabels Hstart Hgran
                (fold_label_not_summary _ "Avg" (or_introl eq_refl))
                (fold_label_not_summary _ "Std" (or_intror eq_refl)) Hadd)
      as (D0 & HD0 & Hcol0).
    destruct (format_metrics_values_frame _ _ _ _ _ _ Hvals) as (-> & _).
    destruct (format_metrics_values_other _ _ _ _ _ _ Hvals HD0 Hvs)
      as (D' & HD' & Hcol').
    rewrite HD in HD'. injection HD' as <-. by rewrite Hcol', Hcol0.
  - intros m l Hl. destruct (Htables m l Hl) as (_ & T & _ & HT & Hsel).
    exists T. split; [exact HT|].
    apply select_pair_inv in Hsel as [Hg Hm]. split.
    + by rewrite Hg, Hlabels, Hfold.
    + intros Hnames col Hcol. rewrite Hm. by apply Hother.
Qed.

End CvDisplay.

Lemma cv_order_starts_sorted `{Externals} (ts : list Z) :
  Sorted (λ a b, cell_leb b a = true)
    (render_time <$> (cutoff_at ts <$> cv_order ts)).
Proof.
  rewrite <- list_fmap_compose.
  apply (Sorted_fmap _ (λ i j, cell_leb (render_time (cutoff_at ts j))
                               (render_time (cutoff_at ts i)) = true)).
  - intros i j Hij. exact Hij.
  - unfold cv_order. apply nargsort_desc_Sorted.
    intros i c Hi. rewrite list_lookup_fmap in Hi. unfold cutoff_at.
    destruct (ts !! i); simpl in *; congruence.
Qed.

(** C3.  For every call to the public entry point that returns, the keys
    of the per-metric mapping are exactly the requested metric names, and
    every per-metric table has the same group-key column [labels] as the
    display table has group labels (in cross-validation mode the display
    table has the two summary rows "Avg" and "Std" after them).

    In plain mode [labels] is in ascending key order, each group once
    (unless a metric bears the key's name).

    In cross-validation mode the table of scores [X0] has one row per
    fold; the column that the code renames to "Valid Start" (the column
    "cutoff", when no column has the new name already) holds the fold
    starts [ts].  The rows are rearranged by [cv_order ts], the order of
    [sort_values(ascending=False)] on the rendered starts, and then
    labelled "Fold 1", ..., "Fold N": the rendered starts come out in
    descending order, and the starts themselves in strictly decreasing
    order when they are distinct and rendered by a conversion that keeps
    their order (as ISO dates do).  The display table shows the rendered
    starts in that order, and every per-metric table holds the scores in
    that order. *)
Theorem per_metric_tables_share_display_labels `{Externals}
    (evaluation_df : loc) (eval : eval_config) (dates : dates_config)
    (resampling : resampling_config) (use_cv : bool) (config : format_config)
    (h h' : list DataFrame) (disp : loc) (dict : gmap string loc) :
  get_perf_metrics evaluation_df eval dates resampling use_cv config h
  = Ok ((disp, dict), h') →
  (∀ m, is_Some (dict !! m) ↔ m ∈ metrics eval)
  ∧ ∃ (labels : list cell) (D : DataFrame),
      h' !! disp = Some D
      ∧ df_index D
        = [(Some (granularity eval),
            if use_cv then labels ++ [CStr "Avg"; CStr "Std"] else labels)]
      ∧ (∀ m l, dict !! m = Some l →
           ∃ T, h' !! l = Some T ∧ getitem (granularity eval) T = Ok labels)
      ∧ (if use_cv
         then
           ∃ (E X0 : DataFrame) (lm : loc) (h0 : list DataFrame) (ts : list Z),
             let order := cutoff_at ts <$> cv_order ts in
             let starts := render_time <$> order in
             h !! evaluation_df = Some E
             ∧ _compute_metrics (length h) error_functions eval (h ++ [E])
               = Ok (lm, h0)
             ∧ h0 !! lm = Some X0
             ∧ getitem "Valid Start" (rename "cutoff" "Valid Start" X0)
               = Ok (CTime <$> ts)
             ∧ (assoc "Valid Start" (df_columns X0) = None →
                getitem "cutoff" X0 = Ok (CTime <$> ts))
             ∧ labels = (λ i, CStr ("Fold " +:+ pretty i)) <$> seq 1 (length ts)
             ∧ order ≡ₚ ts
             ∧ Sorted (λ a b, cell_leb b a = true) starts
             ∧ (NoDup ts →
                (∀ a b, a ∈ ts → b ∈ ts → (a < b)%Z →
                   String.ltb (astype_str (CTime a)) (astype_str (CTime b))
                   = true) →
                StronglySorted (λ a b, (b < a)%Z) order)
             ∧ (granularity eval ≠ "Valid Start" →
                "Valid Start" ∉ metrics eval →
                getitem "Valid Start" D = Ok (starts ++ [CStr ""; CStr ""]))
             ∧ (∀ m l col, dict !! m = Some l →
                  m ∉ [granularity eval; "cutoff"; "Valid Start"; "Valid End"] →
                  getitem m X0 = Ok col →
                  ∃ T, h' !! l = Some T
                       ∧ getitem m T = Ok (take_cells (cv_order ts) col))
         else granularity eval ∉ metrics eval →
              Sorted (λ a b, cell_leb a b = true) labels ∧ NoDup labels).
Proof.
  intros Hrun.
  destruct (get_perf_metrics_inv _ _ _ _ _ _ _ _ _ _ Hrun)
    as (X & labels & Hlabels & Hmode & _ & Hdom & (h_pre & _ & Htables) & D & HD & Hidx).
  split; [intros m; by rewrite Hdom|].
  exists labels, D. split; [exact HD|]. split; [exact Hidx|]. split.
  { intros m l Hl. destruct (Htables m l Hl) as (_ & T & _ & HT & Hsel).
    exists T. split; [exact HT|].
    apply select_pair_inv in Hsel as [Hg _]. by rewrite Hg. }
  destruct use_cv; [|exact Hmode].
  clear Hmode Htables.
  unfold get_perf_metrics in Hrun.
  apply bind_inv in Hrun as (df & h1 & Hpre & Hrun).
  apply bind_inv in Hrun as (lm & h0 & Hcompute & Hrun).
  apply bind_inv in Hrun as ([disp' dict'] & h3 & Hformat & Hret).
  apply ret_inv_pair in Hret as [[= -> ->] ->].
  unfold _preprocess_eval_df in Hpre.
  apply bind_inv in Hpre as (df' & h1' & Hnew & Hret).
  apply ret_inv_pair in Hret as [-> ->].
  apply new_from_inv_pair in Hnew as (E & E' & HE & [= <-] & -> & ->).
  destruct (compute_metrics_inv _ _ _ _ _ _ Hcompute) as (X0 & HX0 & _).
  destruct (format_eval_results_cv_rows _ _ _ _ _ _ _ _ _ _ Hformat HX0)
    as (ts & D' & Hts & HD' & Hidx' & Hstart & Hrows).
  rewrite HD in HD'. injection HD' as <-.
  rewrite Hidx in Hidx'. injection Hidx' as Hfold.
  apply app_inv_tail in Hfold.
  exists E, X0, lm, h0, ts. cbv zeta.
  split; [exact HE|]. split; [exact Hcompute|]. split; [exact HX0|].
  split; [exact Hts|].
  split.
  { intros Hnone. unfold getitem in Hts |- *. destruct X0 as [idx0 cols0].
    simpl in Hnone |- *. rewrite assoc_rename in Hts by exact Hnone.
    destruct (assoc "cutoff" cols0); [exact Hts|discriminate Hts]. }
  split; [exact Hfold|].
  split; [apply cv_order_times_Permutation|].
  split; [apply cv_order_starts_sorted|].
  split; [intros Hnd Hmono; by apply cv_order_decreasing|].
  split; [exact Hstart|].
  intros m l col Hl Hm Hcol.
  destruct (Hrows m l Hl) as (T & HT & _ & Hscores).
  exists T. split; [exact HT|]. by apply Hscores.
Qed.

Lemma per_metric_tables_share_display_labels_witness :
  ∃ (disp : loc) (dict : gmap string loc) (h' : list DataFrame)
    (labels : list cell) (D : DataFrame) (ts : list Z),
    let starts := render_time (H := sample_externals)
                    <$> (cutoff_at ts <$> cv_order (H := sample_externals) ts) in
    get_perf_metrics (H := sample_externals) 0 example_eval_cv example_dates
      example_resampling true example_config [example_evaluation_cv]
    = Ok ((disp, dict), h')
    ∧ (∀ m, is_Some (dict !! m) ↔ m ∈ ["MAE"])
    ∧ h' !! disp = Some D
    ∧ df_index D = [(Some "cutoff", labels ++ [CStr "Avg"; CStr "Std"])]
    ∧ (∀ m l, dict !! m = Some l →
         ∃ T, h' !! l = Some T ∧ getitem "cutoff" T = Ok labels)
    ∧ labels = (λ i, CStr ("Fold " +:+ pretty i)) <$> seq 1 (length ts)
    ∧ Sorted (λ a b, cell_leb b a = true) starts
    ∧ getitem "Valid Start" D = Ok (starts ++ [CStr ""; CStr ""]).
Proof.
  destruct (get_perf_metrics (H := sample_externals) 0 example_eval_cv
              example_dates example_resampling true example_config
              [example_evaluation_cv])
    as [[[disp dict] h']|e] eqn:Hrun;
    [|vm_compute in Hrun; discriminate Hrun].
  destruct (per_metric_tables_share_display_labels (H := sample_externals)
              _ _ _ _ _ _ _ _ _ _ Hrun)
    as (Hdom & labels & D & HD & Hidx & Htables & E & X0 & lm & h0 & ts & Hcv).
  clear Hrun. cbv zeta in Hcv.
  destruct Hcv as (_ & _ & _ & _ & _ & Hfold & _ & Hsorted & _ & Hstart & _).
  exists disp, dict, h', labels, D, ts. cbv zeta.
  split; [reflexivity|]. split; [exact Hdom|]. split; [exact HD|].
  split; [exact Hidx|]. split; [exact Htables|]. split; [exact Hfold|].
  split; [exact Hsorted|].
  apply Hstart.
  - discriminate.
  - intros Hin. simpl in Hin. not_elem_of_list Hin.
Defined.

(** C8.  For every call to the public entry point that returns (with the
    requested metrics among the five error functions and a grouping key
    that is not named like one), each per-metric table is an object of its
    own, distinct from the display table; its metric column holds floats,
    the values as computed; and the final formatting step, which turns the
    display table's entries into strings, leaves it as it was. *)
Theorem per_metric_tables_keep_raw_numbers `{Externals}
    (evaluation_df : loc) (eval : eval_config) (dates : dates_config)
    (resampling : resampling_config) (use_cv : bool) (config : format_config)
    (h h' : list DataFrame) (disp : loc) (dict : gmap string loc) :
  get_perf_metrics evaluation_df eval dates resampling use_cv config h
  = Ok ((disp, dict), h') →
  (∀ m, m ∈ metrics eval → m ∈ metric_names) →
  granularity eval ∉ metric_names →
  ∃ h_pre : list DataFrame,
    __format_metrics_values disp eval config h_pre = Ok (disp, h')
    ∧ ∀ m l, dict !! m = Some l →
        l ≠ disp
        ∧ ∃ (T : DataFrame) (xs : list npfloat),
            h_pre !! l = Some T
            ∧ h' !! l = Some T
            ∧ getitem m T = Ok (floats xs).
Proof.
  intros Hrun Hnames Hgran.
  destruct (get_perf_metrics_inv _ _ _ _ _ _ _ _ _ _ Hrun)
    as (X & labels & _ & _ & Hfl & Hdom & (h_pre & Hfmt & Htables) & _).
  exists h_pre. split; [done|].
  intros m l Hl. destruct (Htables m l Hl) as (Hne & T & Hpre & HT & Hsel).
  split; [done|].
  assert (m ∈ metrics eval) as Hm by (apply Hdom; by eexists).
  destruct (Hfl Hnames Hgran m Hm) as (xs & Hxs).
  exists T, xs. split; [done|]. split; [done|].
  apply select_pair_inv in Hsel as [_ Hcol]. by rewrite Hcol.
Qed.

Lemma per_metric_tables_keep_raw_numbers_witness :
  ∃ (disp : loc) (dict : gmap string loc) (h' h_pre : list DataFrame),
    get_perf_metrics (H := sample_externals) 0 example_eval_cv example_dates
      example_resampling true example_config [example_evaluation_cv]
    = Ok ((disp, dict), h')
    ∧ __format_metrics_values (H := sample_externals) disp example_eval_cv
        example_config h_pre = Ok (disp, h')
    ∧ ∀ m l, dict !! m = Some l →
        l ≠ disp
        ∧ ∃ (T : DataFrame) (xs : list npfloat),
            h_pre !! l = Some T ∧ h' !! l = Some T ∧ getitem m T = Ok (floats xs).
Proof.
  destruct (get_perf_metrics (H := sample_externals) 0 example_eval_cv
              example_dates example_resampling true example_config
              [example_evaluation_cv])
    as [[[disp dict] h']|e] eqn:Hrun;
    [|vm_compute in Hrun; discriminate Hrun].
  assert (∀ m, m ∈ metrics example_eval_cv → m ∈ metric_names) as Hnames.
  { clear Hrun. intros m Hm. simpl in Hm.
    apply list_elem_of_singleton in Hm as ->.
    unfold metric_names. elem_of_list. }
  assert (granularity example_eval_cv ∉ metric_names) as Hgran.
  { clear Hrun. intros Hin. simpl in Hin. unfold metric_names in Hin.
    not_elem_of_list Hin. }
  destruct (per_metric_tables_keep_raw_numbers (H := sample_externals)
              _ _ _ _ _ _ _ _ _ _ Hrun Hnames Hgran)
    as (h_pre & Hfmt & Htables).
  exists disp, dict, h', h_pre.
  split; [reflexivity|]. split; [exact Hfmt|exact Htables].
Defined.
(** * Further properties *)

(** ** The error functions on arrays *)

Lemma broadcast2_mismatch (f : npfloat → npfloat → npfloat) (a b : ndarray) :
  length a ≠ length b → length a ≠ 1 → length b ≠ 1 →
  broadcast2 f a b = Raise ValueError.
Proof.
  intros Hab Ha Hb. unfold broadcast2. rewrite decide_False by exact Hab.
  destruct a as [|x [|x' a]], b as [|y [|y' b]]; simpl in *;
    try reflexivity; try lia.
Qed.

(** Swapping the operands of an element-wise operation: under a map [h]
    that cannot tell [f x y] from [g y x], the two outcomes agree. *)
Lemma broadcast2_swap_under (h : npfloat → npfloat)
    (f g : npfloat → npfloat → npfloat) (a b : ndarray) :
  (∀ x y, h (f x y) = h (g y x)) →
  ((fmap h : ndarray → ndarray) <$> broadcast2 f a b)
  = ((fmap h : ndarray → ndarray) <$> broadcast2 g b a).
Proof.
  intros Hfg. unfold broadcast2.
  destruct (decide (length a = length b)) as [Hlen|Hlen].
  - rewrite (decide_True (P := length b = length a)) by (symmetry; exact Hlen).
    cbn. f_equal. revert b Hlen.
    induction a as [|x a IH]; intros [|y b] Hlen; simpl in *;
      try reflexivity; try discriminate.
    rewrite Hfg. f_equal. apply IH. lia.
  - rewrite (decide_False (P := length b = length a))
      by (intros Heq; apply Hlen; symmetry; exact Heq).
    destruct a as [|x [|x' a]], b as [|y [|y' b]]; simpl in *;
      try reflexivity; try (exfalso; apply Hlen; reflexivity);
      cbn; f_equal; rewrite <- ?list_fmap_compose.
    + rewrite (Hfg x y), (Hfg x y'). do 2 f_equal.
      apply list_fmap_ext. intros ? z _. cbn. apply Hfg.
    + rewrite (Hfg x y), (Hfg x' y). do 2 f_equal.
      apply list_fmap_ext. intros ? z _. cbn. apply Hfg.
Qed.

Lemma fabs_sub_swap (x y : npfloat) : fabs (sub x y) = fabs (sub y x).
Proof. destruct x, y; simpl; try reflexivity. f_equal. apply Rabs_minus_sym. Qed.

Lemma square_sub_swap (x y : npfloat) : square (sub x y) = square (sub y x).
Proof. destruct x, y; simpl; try reflexivity. f_equal. ring. Qed.

Lemma add_swap (x y : npfloat) : add x y = add y x.
Proof. destruct x, y; simpl; try reflexivity. f_equal. ring. Qed.

Lemma broadcast2_add_swap (a b : ndarray) :
  broadcast2 add a b = broadcast2 add b a.
Proof.
  pose proof (broadcast2_swap_under (@Datatypes.id npfloat) add add a b add_swap) as Hs.
  destruct (broadcast2 add a b) as [s|e], (broadcast2 add b a) as [s'|e'];
    cbn in Hs; try discriminate; injection Hs as Hs.
  - f_equal. by rewrite !list_fmap_id in Hs.
  - by subst.
Qed.

Lemma MAE_swap (a b : arg) : MAE a b = MAE b a.
Proof.
  unfold MAE.
  pose proof (broadcast2_swap_under fabs sub sub (ravel a) (ravel b)
                fabs_sub_swap) as Hs.
  destruct (broadcast2 sub (ravel a) (ravel b)) as [d|e],
           (broadcast2 sub (ravel b) (ravel a)) as [d'|e'];
    cbn in Hs; try discriminate; injection Hs as Hs; cbn.
  - by rewrite Hs.
  - by subst.
Qed.

Lemma MSE_swap (a b : arg) : MSE a b = MSE b a.
Proof.
  unfold MSE.
  pose proof (broadcast2_swap_under square sub sub (ravel a) (ravel b)
                square_sub_swap) as Hs.
  destruct (broadcast2 sub (ravel a) (ravel b)) as [d|e],
           (broadcast2 sub (ravel b) (ravel a)) as [d'|e'];
    cbn in Hs; try discriminate; injection Hs as Hs; cbn.
  - by rewrite Hs.
  - by subst.
Qed.

(** X1. the three plain error functions do not depend on which argument is
    called the truth: for all arguments, arrays or single numbers, of any
    shape, [MAE], [MSE] and [RMSE] return the same value, or raise the same
    exception, when the two are exchanged. *)
Theorem MAE_MSE_RMSE_symmetric (a b : arg) :
  MAE a b = MAE b a ∧ MSE a b = MSE b a ∧ RMSE a b = RMSE b a.
Proof.
  split; [apply MAE_swap|]. split; [apply MSE_swap|].
  unfold RMSE. cbn zeta.
  by rewrite (MSE_swap (Series (ravel a)) (Series (ravel b))).
Qed.

(** X2. [SMAPE] is symmetric too, faults included: whatever the arguments,
    exchanging them gives the same value. *)
Theorem SMAPE_symmetric (a b : arg) : SMAPE a b = SMAPE b a.
Proof.
  unfold SMAPE. cbn zeta.
  rewrite (broadcast2_add_swap (fabs <$> ravel b) (fabs <$> ravel a)).
  destruct (broadcast2 add (fabs <$> ravel a) (fabs <$> ravel b)) as [s|e];
    [|reflexivity].
  cbn.
  destruct (take (ravel a) (where_ (ne0 <$> s))) as [ta|ea],
           (take (ravel b) (where_ (ne0 <$> s))) as [tb|eb]; cbn;
    try reflexivity.
  pose proof (broadcast2_swap_under fabs sub sub ta tb fabs_sub_swap) as Hs.
  rewrite (broadcast2_add_swap (fabs <$> tb) (fabs <$> ta)).
  destruct (broadcast2 sub ta tb) as [d|e], (broadcast2 sub tb ta) as [d'|e'];
    cbn in Hs; try discriminate; injection Hs as Hs; cbn; [|reflexivity].
  by rewrite Hs.
Qed.


(** X3. on arrays whose lengths differ (neither being a single value, which
    numpy would stretch), [MAE], [MSE] and [RMSE] raise numpy's shape error,
    whereas [SMAPE], which wraps the same fault in its bare [except],
    returns 0. *)
Theorem shape_mismatch_raises_except_in_SMAPE (a b : ndarray) :
  length a ≠ length b → length a ≠ 1 → length b ≠ 1 →
  MAE (Series a) (Series b) = Raise ValueError
  ∧ MSE (Series a) (Series b) = Raise ValueError
  ∧ RMSE (Series a) (Series b) = Raise ValueError
  ∧ SMAPE (Series a) (Series b) = Ok (Fin 0).
Proof.
  intros Hab Ha Hb.
  unfold MAE, MSE, RMSE, MSE, SMAPE. cbn [ravel].
  rewrite (broadcast2_mismatch sub a b Hab Ha Hb).
  rewrite (broadcast2_mismatch add (fabs <$> a) (fabs <$> b))
    by (rewrite !length_fmap; assumption).
  repeat split; reflexivity.
Qed.

Lemma shape_mismatch_raises_except_in_SMAPE_witness :
  MAE (Series (reals [1%R; 2%R; 3%R])) (Series (reals [1%R; 2%R]))
  = Raise ValueError
  ∧ SMAPE (Series (reals [1%R; 2%R; 3%R])) (Series (reals [1%R; 2%R]))
    = Ok (Fin 0).
Proof.
  destruct (shape_mismatch_raises_except_in_SMAPE
              (reals [1%R; 2%R; 3%R]) (reals [1%R; 2%R]))
    as (Hmae & _ & _ & Hsmape); [simpl; lia..|].
  split; [exact Hmae|exact Hsmape].
Defined.

Lemma elem_of_where_from (c : list bool) (k i : nat) :
  c !! i = Some true → k + i ∈ where_from k c.
Proof.
  revert k i. induction c as [|b c IH]; intros k i Hi; [done|].
  destruct i as [|i]; simpl in *.
  - injection Hi as ->. rewrite Nat.add_0_r. by left.
  - apply elem_of_app. right. replace (k + S i) with (S k + i) by lia.
    by apply IH.
Qed.

Lemma where_from_bound (c : list bool) (k i : nat) :
  i ∈ where_from k c → i < k + length c.
Proof.
  revert k. induction c as [|b c IH]; intros k Hi; simpl in *.
  - by apply not_elem_of_nil in Hi.
  - apply elem_of_app in Hi as [Hi|Hi].
    + destruct b; [|by apply not_elem_of_nil in Hi].
      apply list_elem_of_singleton in Hi. lia.
    + apply IH in Hi. lia.
Qed.

Lemma result_mapM_Raise {A B} (f : A → result B) (l : list A) (x : A) (e : exn) :
  x ∈ l → f x = Raise e → ∃ e', result_mapM f l = Raise e'.
Proof.
  intros Hx Hf. induction l as [|y l IH]; [by apply not_elem_of_nil in Hx|].
  simpl. apply elem_of_cons in Hx as [->|Hx].
  - rewrite Hf. by eexists.
  - destruct (f y); [|by eexists]. destruct (IH Hx) as [e' ->]. by eexists.
Qed.

Lemma result_mapM_ext {A B} (f g : A → result B) (l : list A) :
  (∀ x, x ∈ l → f x = g x) → result_mapM f l = result_mapM g l.
Proof.
  intros Hfg. induction l as [|x l IH]; [done|]. simpl.
  rewrite Hfg by (by left). rewrite IH; [done|].
  intros y Hy. apply Hfg. by right.
Qed.

(** X4. [MAPE] checks no shapes.  Its mask comes from the truth array
    alone, so a forecast array that is too short to be read at a kept
    position is an index fault, which the bare [except] turns into 0. *)
Theorem MAPE_short_forecast_gives_zero (y_true y_pred : ndarray)
    (i : nat) (t : npfloat) :
  y_true !! i = Some t → ne0 t = true → length y_pred ≤ i →
  MAPE (Series y_true) (Series y_pred) = Ok (Fin 0).
Proof.
  intros Hi Ht Hshort. unfold MAPE. cbn [ravel].
  assert (i ∈ where_ (ne0 <$> y_true)) as Hin.
  { apply (elem_of_where_from _ 0 i). by rewrite list_lookup_fmap, Hi; simpl; rewrite Ht. }
  assert (∃ e, take y_pred (where_ (ne0 <$> y_true)) = Raise e) as [e He].
  { unfold take. eapply result_mapM_Raise; [exact Hin|].
    by rewrite lookup_ge_None_2. }
  rewrite He.
  by destruct (take y_true _).
Qed.

Lemma MAPE_short_forecast_gives_zero_witness :
  MAPE (Series (reals [0%R; 2%R])) (Series (reals [7%R])) = Ok (Fin 0).
Proof.
  apply (MAPE_short_forecast_gives_zero (reals [0%R; 2%R]) (reals [7%R])
           1 (Fin 2)).
  - reflexivity.
  - simpl. apply bool_decide_eq_true. lra.
  - simpl. lia.
Defined.

(** X5. for the same reason a forecast array that is longer than the truth
    array is accepted, and its surplus entries are never read. *)
Theorem MAPE_ignores_surplus_forecast (y_true y_pred : ndarray) :
  length y_true ≤ length y_pred →
  MAPE (Series y_true) (Series y_pred)
  = MAPE (Series y_true) (Series (firstn (length y_true) y_pred)).
Proof.
  intros Hlen. unfold MAPE. cbn [ravel].
  assert (take y_pred (where_ (ne0 <$> y_true))
          = take (firstn (length y_true) y_pred) (where_ (ne0 <$> y_true)))
    as ->; [|reflexivity].
  apply result_mapM_ext. intros j Hj.
  apply where_from_bound in Hj. rewrite length_fmap in Hj. simpl in Hj.
  by rewrite lookup_take_lt.
Qed.

Lemma MAPE_ignores_surplus_forecast_witness :
  MAPE (Series (reals [2%R])) (Series (reals [1%R; 9%R]))
  = MAPE (Series (reals [2%R])) (Series (reals [1%R])).
Proof.
  apply (MAPE_ignores_surplus_forecast (reals [2%R]) (reals [1%R; 9%R])).
  simpl. lia.
Defined.

(** X6. neither [MAPE] nor [SMAPE] lets an exception out: for all
    arguments, of any shape, each returns a float. *)
Theorem MAPE_SMAPE_always_return (y_true y_pred : arg) :
  (∃ v, MAPE y_true y_pred = Ok v) ∧ (∃ v, SMAPE y_true y_pred = Ok v).
Proof. split; [apply MAPE_never_raises|apply SMAPE_never_raises]. Qed.

(** ** The error functions on columns of numbers *)

(** X7. on two columns of numbers of the same length, [MAPE] is the mean
    of |t - f| / |t| over the rows whose truth [t] is not zero, and nan when
    there is no such row. *)
Theorem MAPE_averages_rows_with_nonzero_truth (y_true y_pred : list R) :
  length y_true = length y_pred →
  let kept := mape_kept y_true y_pred in
  MAPE (Series (reals y_true)) (Series (reals y_pred))
  = Ok (if decide (kept = []) then NaN
        else Fin (Rsum ((λ p, Rabs (p.1 - p.2) / Rabs p.1)%R <$> kept)
                  / INR (length kept))).
Proof.
  intros Hlen kept. rewrite MAPE_on_reals by exact Hlen. fold kept.
  assert (mape_term <$> kept = (λ p, Rabs (p.1 - p.2) / Rabs p.1)%R <$> kept)
    as Hterms.
  { apply list_fmap_ext. intros i p Hp. apply list_elem_of_lookup_2 in Hp.
    apply list_elem_of_filter in Hp as [Hp _]. unfold mape_term.
    unfold Rdiv. rewrite Rabs_mult, Rabs_inv. reflexivity. }
  f_equal. destruct (decide (kept = [])) as [->|Hne]; [reflexivity|].
  rewrite mean_reals by (by destruct kept).
  unfold Rmean. by rewrite Hterms, !length_fmap.
Qed.

Lemma MAPE_averages_rows_with_nonzero_truth_witness :
  MAPE (Series (reals [2%R; 0%R])) (Series (reals [1%R; 3%R]))
  = Ok (if decide (mape_kept [2%R; 0%R] [1%R; 3%R] = []) then NaN
        else Fin (Rsum ((λ p, Rabs (p.1 - p.2) / Rabs p.1)%R
                          <$> mape_kept [2%R; 0%R] [1%R; 3%R])
                  / INR (length (mape_kept [2%R; 0%R] [1%R; 3%R])))).
Proof.
  apply (MAPE_averages_rows_with_nonzero_truth [2%R; 0%R] [1%R; 3%R]).
  reflexivity.
Defined.

(** X8. on two columns of numbers of the same length, [SMAPE] is the mean
    of 2 |t - f| / (|t| + |f|) over the rows where |t| + |f| is not zero,
    and nan when there is no such row. *)
Theorem SMAPE_averages_rows_with_nonzero_denominator (y_true y_pred : list R) :
  length y_true = length y_pred →
  let kept := smape_kept y_true y_pred in
  SMAPE (Series (reals y_true)) (Series (reals y_pred))
  = Ok (if decide (kept = []) then NaN
        else Fin (Rsum ((λ p, 2 * Rabs (p.1 - p.2) / (Rabs p.1 + Rabs p.2))%R
                          <$> kept)
                  / INR (length kept))).
Proof.
  intros Hlen kept. rewrite SMAPE_on_reals by exact Hlen. fold kept.
  f_equal. destruct (decide (kept = [])) as [->|Hne]; [reflexivity|].
  rewrite mean_reals by (by destruct kept).
  unfold Rmean. by rewrite !length_fmap.
Qed.

Lemma SMAPE_averages_rows_with_nonzero_denominator_witness :
  SMAPE (Series (reals [2%R; 0%R])) (Series (reals [1%R; 0%R]))
  = Ok (if decide (smape_kept [2%R; 0%R] [1%R; 0%R] = []) then NaN
        else Fin (Rsum ((λ p, 2 * Rabs (p.1 - p.2) / (Rabs p.1 + Rabs p.2))%R
                          <$> smape_kept [2%R; 0%R] [1%R; 0%R])
                  / INR (length (smape_kept [2%R; 0%R] [1%R; 0%R])))).
Proof.
  apply (SMAPE_averages_rows_with_nonzero_denominator [2%R; 0%R] [1%R; 0%R]).
  reflexivity.
Defined.

Lemma MAE_on_reals (y_true y_pred : list R) :
  length y_true = length y_pred →
  MAE (Series (reals y_true)) (Series (reals y_pred))
  = Ok (mean (reals (zip_with (λ t f, Rabs (t - f)) y_true y_pred))).
Proof.
  intros Hlen. unfold MAE. cbn [ravel].
  rewrite broadcast2_same_length by (unfold reals; by rewrite !length_fmap).
  cbn. rewrite (zip_with_reals sub Rminus) by done.
  unfold fabs. rewrite fmap_lift1_reals. do 3 f_equal.
  clear. revert y_pred. induction y_true as [|t y_true IH];
    intros [|f y_pred]; simpl; [done..|]. by rewrite IH.
Qed.

Lemma MSE_on_reals (y_true y_pred : list R) :
  length y_true = length y_pred →
  MSE (Series (reals y_true)) (Series (reals y_pred))
  = Ok (mean (reals (zip_with (λ t f, (t - f) * (t - f))%R y_true y_pred))).
Proof.
  intros Hlen. unfold MSE. cbn [ravel].
  rewrite broadcast2_same_length by (unfold reals; by rewrite !length_fmap).
  cbn. rewrite (zip_with_reals sub Rminus) by done.
  unfold square. rewrite fmap_lift1_reals. do 3 f_equal.
  clear. revert y_pred. induction y_true as [|t y_true IH];
    intros [|f y_pred]; simpl; [done..|]. by rewrite IH.
Qed.

Lemma RMSE_on_reals (y_true y_pred : list R) :
  RMSE (Series (reals y_true)) (Series (reals y_pred))
  = (m ← MSE (Series (reals y_true)) (Series (reals y_pred)); Ok (Np.sqrt m)).
Proof. reflexivity. Qed.

Lemma zip_with_nonempty {A B C} (g : A → B → C) (a : list A) (b : list B) :
  length a = length b → a ≠ [] → zip_with g a b ≠ [].
Proof. destruct a, b; simpl; intros; done. Qed.

Lemma zip_with_diag_zero (g : R → R → R) (a : list R) :
  (∀ x, g x x = 0%R) → Forall (λ x, x = 0%R) (zip_with g a a).
Proof.
  intros Hg. induction a as [|x a IH]; simpl; [constructor|].
  constructor; [apply Hg|exact IH].
Qed.

(** X9. on two non-empty float columns of the same length, [MAE] is the
    mean of |t - f|, [MSE] the mean of (t - f)^2 and [RMSE] the square root
    of that mean; when the forecast equals the truth in every row the
    three functions return 0. *)
Theorem MAE_MSE_RMSE_closed_forms (y_true y_pred : list R) :
  length y_true = length y_pred → y_true ≠ [] →
  let mae := Rmean (zip_with (λ t f, Rabs (t - f)) y_true y_pred) in
  let mse := Rmean (zip_with (λ t f, (t - f) * (t - f))%R y_true y_pred) in
  MAE (Series (reals y_true)) (Series (reals y_pred)) = Ok (Fin mae)
  ∧ MSE (Series (reals y_true)) (Series (reals y_pred)) = Ok (Fin mse)
  ∧ RMSE (Series (reals y_true)) (Series (reals y_pred))
    = Ok (Np.sqrt (Fin mse))
  ∧ (y_true = y_pred →
     MAE (Series (reals y_true)) (Series (reals y_pred)) = Ok (Fin 0)
     ∧ MSE (Series (reals y_true)) (Series (reals y_pred)) = Ok (Fin 0)
     ∧ RMSE (Series (reals y_true)) (Series (reals y_pred)) = Ok (Fin 0)).
Proof.
  intros Hlen Hne mae mse.
  set (ad := zip_with (λ t f, Rabs (t - f)) y_true y_pred) in *.
  set (sq := zip_with (λ t f, (t - f) * (t - f))%R y_true y_pred) in *.
  assert (ad ≠ []) as Had by (by apply zip_with_nonempty).
  assert (sq ≠ []) as Hsq by (by apply zip_with_nonempty).
  assert (MAE (Series (reals y_true)) (Series (reals y_pred)) = Ok (Fin mae))
    as Hmae by (by rewrite MAE_on_reals, mean_reals).
  assert (MSE (Series (reals y_true)) (Series (reals y_pred)) = Ok (Fin mse))
    as Hmse by (by rewrite MSE_on_reals, mean_reals).
  assert (RMSE (Series (reals y_true)) (Series (reals y_pred))
          = Ok (Np.sqrt (Fin mse))) as Hrmse
    by (by rewrite RMSE_on_reals, Hmse).
  split; [exact Hmae|]. split; [exact Hmse|]. split; [exact Hrmse|].
  intros Heq.
  assert (mae = 0%R) as Hmae0.
  { unfold mae, ad. rewrite <- Heq. apply Rmean_all_zero.
    - apply zip_with_nonempty; [reflexivity|exact Hne].
    - apply zip_with_diag_zero. intros x. rewrite Rminus_diag. apply Rabs_R0. }
  assert (mse = 0%R) as Hmse0.
  { unfold mse, sq. rewrite <- Heq. apply Rmean_all_zero.
    - apply zip_with_nonempty; [reflexivity|exact Hne].
    - apply zip_with_diag_zero. intros x. ring. }
  rewrite Hmae, Hmse, Hrmse, Hmae0, Hmse0.
  split; [reflexivity|]. split; [reflexivity|].
  unfold Np.sqrt. rewrite decide_False by lra. by rewrite sqrt_0.
Qed.

Lemma MAE_MSE_RMSE_closed_forms_witness :
  MAE (Series (reals [3%R; 1%R])) (Series (reals [3%R; 1%R])) = Ok (Fin 0)
  ∧ MSE (Series (reals [3%R; 1%R])) (Series (reals [3%R; 1%R])) = Ok (Fin 0)
  ∧ RMSE (Series (reals [3%R; 1%R])) (Series (reals [3%R; 1%R])) = Ok (Fin 0).
Proof.
  apply (MAE_MSE_RMSE_closed_forms [3%R; 1%R] [3%R; 1%R]);
    [reflexivity|discriminate|reflexivity].
Defined.


(** ** The summary rows *)







(** ** Aggregate mode, the percentage errors *)

Lemma scalar_score_MAPE (a b : R) :
  scalar_score MAPE a b
  = if decide (a = 0%R) then NaN else Fin (Rabs (a - b) / Rabs a).
Proof.
  unfold scalar_score.
  change (MAPE (Scalar (Fin a)) (Scalar (Fin b)))
    with (MAPE (Series (reals [a])) (Series (reals [b]))).
  rewrite MAPE_on_reals by reflexivity.
  unfold mape_kept. cbn [zip zip_with]. rewrite filter_cons, filter_nil.
  cbn [fst]. destruct (decide (a = 0%R)) as [Ha|Ha].
  - by rewrite decide_False by (intros Hn; by apply Hn).
  - rewrite decide_True by exact Ha. cbn. f_equal. rewrite Rmean_singleton.
    unfold mape_term, Rdiv. cbn [fst snd]. by rewrite Rabs_mult, Rabs_inv.
Qed.

Lemma scalar_score_SMAPE (a b : R) :
  scalar_score SMAPE a b
  = if decide ((Rabs a + Rabs b)%R = 0%R) then NaN
    else Fin (2 * Rabs (a - b) / (Rabs a + Rabs b)).
Proof.
  unfold scalar_score.
  change (SMAPE (Scalar (Fin a)) (Scalar (Fin b)))
    with (SMAPE (Series (reals [a])) (Series (reals [b]))).
  rewrite SMAPE_on_reals by reflexivity.
  unfold smape_kept. cbn [zip zip_with]. rewrite filter_cons, filter_nil.
  cbn [fst snd]. destruct (decide ((Rabs a + Rabs b)%R = 0%R)) as [Ha|Ha].
  - by rewrite decide_False by (intros Hn; by apply Hn).
  - rewrite decide_True by exact Ha. cbn. f_equal. by rewrite Rmean_singleton.
Qed.

(** X13. in aggregate mode the two percentage errors are taken on the group
    totals too: the "MAPE" entry of a group is |S_t - S_f| / |S_t|, and nan
    when the truth total S_t is 0; its "SMAPE" entry is
    2 |S_t - S_f| / (|S_t| + |S_f|), and nan when both totals are 0.  The
    table also keeps the two totals, as columns "truth" and "forecast". *)
Theorem aggregate_mode_percentage_errors (eval : eval_config)
    (h : list DataFrame) (l : loc) (df : DataFrame)
    (keys : list cell) (ts fs : list R) :
  h !! l = Some df →
  get_perf_on_agg_forecast eval = true →
  getitem (granularity eval) df = Ok keys →
  getitem "truth" df = Ok (floats (reals ts)) →
  getitem "forecast" df = Ok (floats (reals fs)) →
  homogeneous keys = true →
  (∃ k, k ∈ keys ∧ notna k = true) →
  granularity eval ∉ "truth" :: "forecast" :: metric_names →
  (∀ m, m ∈ metrics eval → m ∈ metric_names) →
  let S_t g := group_total g keys ts in
  let S_f g := group_total g keys fs in
  ∃ (gs : list cell) (table : DataFrame),
    _compute_metrics l error_functions eval h = Ok (length h, h ++ [table])
    ∧ getitem (granularity eval) table = Ok gs
    ∧ getitem "truth" table = Ok ((λ g, CFloat (Fin (S_t g))) <$> gs)
    ∧ getitem "forecast" table = Ok ((λ g, CFloat (Fin (S_f g))) <$> gs)
    ∧ ("MAPE" ∈ metrics eval →
         getitem "MAPE" table
         = Ok ((λ g, CFloat (if decide (S_t g = 0%R) then NaN
                             else Fin (Rabs (S_t g - S_f g) / Rabs (S_t g))))
                 <$> gs))
    ∧ ("SMAPE" ∈ metrics eval →
         getitem "SMAPE" table
         = Ok ((λ g, CFloat (if decide ((Rabs (S_t g) + Rabs (S_f g))%R = 0%R)
                             then NaN
                             else Fin (2 * Rabs (S_t g - S_f g)
                                       / (Rabs (S_t g) + Rabs (S_f g)))))
                 <$> gs)).
Proof.
  intros Hl Hagg Hkeys Ht Hf Hhom (k & Hk & Hkna) Hgran Hms S_t S_f.
  destruct (group_keys_Ok keys Hhom) as (gs & Hgs & Hnd & Hin).
  assert (gs ≠ []) as Hne.
  { intros ->. assert (k ∈ []) as Hk' by by apply Hin.
    by apply not_elem_of_nil in Hk'. }
  exists gs, (agg_table (granularity eval) gs keys ts fs (metrics eval)).
  split; [by apply (compute_metrics_aggregate eval df)|].
  split; [by apply (agg_table_keys eval df)|].
  split.
  { unfold getitem.
    by rewrite (agg_table_truth eval df keys ts fs gs Hagg Hkeys Ht Hf Hgs Hne Hgran Hms
                 (metrics eval) Hms). }
  split.
  { unfold getitem.
    by rewrite (agg_table_forecast eval df keys ts fs gs Hagg Hkeys Ht Hf Hgs Hne Hgran
                 Hms (metrics eval) Hms). }
  split.
  - intros Hm. rewrite (agg_table_score eval df keys ts fs gs Hagg Hkeys Ht Hf Hgs Hne
                            Hgran Hms (metrics eval) "MAPE" Hm).
    unfold score_col.
    change (error_functions !! "MAPE") with (Some MAPE). cbn iota. f_equal.
    apply list_fmap_ext. intros _ g _. by rewrite scalar_score_MAPE.
  - intros Hm. rewrite (agg_table_score eval df keys ts fs gs Hagg Hkeys Ht Hf Hgs Hne
                            Hgran Hms (metrics eval) "SMAPE" Hm).
    unfold score_col.
    change (error_functions !! "SMAPE") with (Some SMAPE). cbn iota. f_equal.
    apply list_fmap_ext. intros _ g _. by rewrite scalar_score_SMAPE.
Qed.

Lemma aggregate_mode_percentage_errors_witness :
  ∃ (gs : list cell) (table : DataFrame),
    _compute_metrics 0 error_functions example_eval_percentage [example_table]
    = Ok (1, [example_table; table])
    ∧ getitem "bucket" table = Ok gs
    ∧ getitem "MAPE" table
      = Ok ((λ g, CFloat
               (if decide (group_total g [CStr "A"; CStr "A"; CStr "B"; CStr "B"]
                             [10%R; 10%R; 0%R; 0%R] = 0%R)
                then NaN
                else Fin (Rabs
                       (group_total g [CStr "A"; CStr "A"; CStr "B"; CStr "B"]
                          [10%R; 10%R; 0%R; 0%R]
                        - group_total g [CStr "A"; CStr "A"; CStr "B"; CStr "B"]
                            [10%R; 10%R; 5%R; 5%R])
                     / Rabs
                         (group_total g [CStr "A"; CStr "A"; CStr "B"; CStr "B"]
                            [10%R; 10%R; 0%R; 0%R])))) <$> gs).
Proof.
  destruct (aggregate_mode_percentage_errors example_eval_percentage
              [example_table] 0 example_table
              [CStr "A"; CStr "A"; CStr "B"; CStr "B"]
              [10%R; 10%R; 0%R; 0%R] [10%R; 10%R; 5%R; 5%R])
    as (gs & table & Hrun & Hkeys & _ & _ & Hmape & _).
  - reflexivity.
  - reflexivity.
  - reflexivity.
  - reflexivity.
  - reflexivity.
  - reflexivity.
  - exists (CStr "A"). split; [by left|reflexivity].
  - intros Hin. simpl in Hin. unfold metric_names in Hin. not_elem_of_list Hin.
  - intros m Hm. simpl in Hm. unfold metric_names.
    repeat (apply elem_of_cons in Hm as [->|Hm]; [elem_of_list|]).
    by apply not_elem_of_nil in Hm.
  - exists gs, table. split; [exact Hrun|]. split; [exact Hkeys|].
    apply Hmape. simpl. by left.
Defined.

(** ** Per-group mode *)

Lemma filter_all {A} (P : A → Prop) `{∀ x, Decision (P x)} (l : list A) :
  (∀ x, x ∈ l → P x) → filter P l = l.
Proof.
  induction l as [|x l IH]; intros Hall; [done|].
  rewrite filter_cons, decide_True by (apply Hall; by left).
  f_equal. apply IH. intros y Hy. apply Hall. by right.
Qed.

Lemma rows_where_length {A B} (g : cell) (keys : list cell)
    (a : list A) (b : list B) :
  length a = length b →
  length (rows_where g keys a) = length (rows_where g keys b).
Proof.
  unfold rows_where. rewrite !length_fmap. revert a b.
  induction keys as [|k keys IH]; intros [|x a] [|y b] Hlen;
    simpl in *; try done.
  rewrite !filter_cons. simpl.
  destruct (decide (k = g)); simpl; [f_equal|]; apply IH; lia.
Qed.

Lemma rows_where_nonempty {A} (g : cell) (keys : list cell) (a : list A) :
  length a = length keys → g ∈ keys → rows_where g keys a ≠ [].
Proof.
  unfold rows_where. revert a.
  induction keys as [|k keys IH]; intros [|x a] Hlen Hg; simpl in *;
    try done; try (by apply not_elem_of_nil in Hg).
  rewrite filter_cons. simpl. destruct (decide (k = g)) as [->|Hne]; [done|].
  apply IH; [lia|]. apply elem_of_cons in Hg as [->|Hg]; done.
Qed.

Lemma series_score_Ok (m : string) (f : metric_fn) (a b : list R) :
  error_functions !! m = Some f →
  length a = length b →
  f (Series (reals a)) (Series (reals b)) = Ok (series_score f a b).
Proof.
  intros Hm Hlen. unfold series_score.
  assert (∃ v, f (Series (reals a)) (Series (reals b)) = Ok v) as [v ->];
    [|reflexivity].
  unfold error_functions in Hm.
  repeat (apply lookup_insert_Some in Hm as [[_ <-]|[_ Hm]];
          [first [apply MAPE_never_raises | apply SMAPE_never_raises
                 | rewrite RMSE_on_reals, MSE_on_reals by exact Hlen;
                   by eexists
                 | rewrite MSE_on_reals by exact Hlen; by eexists
                 | rewrite MAE_on_reals by exact Hlen; by eexists]|]).
  by rewrite lookup_empty in Hm.
Qed.

Lemma series_score_MAE (a b : list R) :
  length a = length b → a ≠ [] →
  series_score MAE a b = Fin (Rmean (zip_with (λ t f, Rabs (t - f)) a b)).
Proof.
  intros Hlen Hne. unfold series_score. rewrite MAE_on_reals by exact Hlen.
  rewrite mean_reals; [reflexivity|]. by apply zip_with_nonempty.
Qed.

Section PerGroup.

Context (eval : eval_config) (df : DataFrame).
Context (keys : list cell) (ts fs : list R) (gs : list cell).

Hypothesis Hagg : get_perf_on_agg_forecast eval = false.
Hypothesis Hkeys : getitem (granularity eval) df = Ok keys.
Hypothesis Htruth : getitem "truth" df = Ok (floats (reals ts)).
Hypothesis Hforecast : getitem "forecast" df = Ok (floats (reals fs)).
Hypothesis Hlen : length ts = length fs.
Hypothesis Hnotna : ∀ k, k ∈ keys → notna k = true.
Hypothesis Hgs : group_keys keys = Ok gs.
Hypothesis Hnonempty : gs ≠ [].
Hypothesis Hgran : granularity eval ∉ metric_names.
Hypothesis Hmetrics : ∀ m, m ∈ metrics eval → m ∈ metric_names.

Lemma sorted_unique_keys : sorted_cells (remove_dups keys) = Ok gs.
Proof using Hnotna Hgs.
  unfold group_keys in Hgs. rewrite filter_all in Hgs; [exact Hgs|].
  intros k Hk. apply Is_true_true. by apply Hnotna.
Qed.

Lemma group_table_keys (computed : list string) :
  (∀ m, m ∈ computed → m ∈ metric_names) →
  getitem (granularity eval)
    (group_table (granularity eval) gs keys ts fs computed)
  = Ok gs.
Proof using Hgran.
  intros Hc. unfold getitem, group_table. simpl. rewrite assoc_foldl_set_notin.
  - simpl. by rewrite decide_True.
  - intros Hin. by apply Hgran, Hc.
Qed.

Lemma group_table_score (computed : list string) (m : string) :
  m ∈ computed →
  getitem m (group_table (granularity eval) gs keys ts fs computed)
  = Ok (group_score_col gs keys ts fs m).
Proof using Type.
  intros Hm. unfold getitem, group_table. simpl.
  by rewrite (assoc_foldl_set_in (group_score_col gs keys ts fs)).
Qed.

Lemma group_table_no_other (computed : list string) (c : string) :
  c ∉ computed → c ≠ granularity eval →
  getitem c (group_table (granularity eval) gs keys ts fs computed)
  = Raise (KeyError c).
Proof using Type.
  intros Hc Hne. unfold getitem, group_table. simpl.
  rewrite assoc_foldl_set_notin by exact Hc. simpl.
  by rewrite decide_False.
Qed.

(** Scoring the groups of the input table with the metric [m]. *)
Lemma groupby_apply_scores (m : string) :
  m ∈ metric_names →
  groupby_apply (granularity eval) ["truth"; "forecast"]
    (λ x, f ← dict_get error_functions m;
          t ← attr_series "truth" x;
          p ← attr_series "forecast" x;
          r ← f t p;
          Ok (CFloat r))
    df
  = Ok (group_score_col gs keys ts fs m).
Proof using Hkeys Htruth Hforecast Hlen Hgs Hnonempty.
  intros Hm. destruct (error_functions_names m Hm) as [f Hf].
  unfold groupby_apply. rewrite Hkeys. cbn [mbind result_bind].
  rewrite Hgs. cbn [mbind result_bind result_mapM].
  rewrite Htruth, Hforecast. cbn [mbind result_bind].
  destruct gs as [|g0 gs'] eqn:Egs; [done|]. rewrite <- Egs.
  unfold group_score_col. rewrite Hf.
  apply result_mapM_Ok. intros g _.
  unfold dict_get. rewrite Hf. cbn [mbind result_bind].
  unfold attr_series. cbn [fmap list_fmap assoc fst snd].
  repeat (case_decide; try congruence).
  unfold floats, reals. rewrite !rows_where_fmap.
  fold (reals (rows_where g keys ts)). fold (reals (rows_where g keys fs)).
  fold (floats (reals (rows_where g keys ts))).
  fold (floats (reals (rows_where g keys fs))).
  rewrite !as_float_floats. cbn [mbind result_bind].
  rewrite (series_score_Ok m f) by (exact Hf || by apply rows_where_length).
  reflexivity.
Qed.

Lemma group_loop_body (h : list DataFrame) (l : loc) (computed : list string)
    (m : string) :
  h !! l = Some df →
  m ∈ metric_names →
  (d ← load l;
   col ← lift (groupby_apply (granularity eval) ["truth"; "forecast"]
                 (λ x, f ← dict_get error_functions m;
                       t ← attr_series "truth" x;
                       p ← attr_series "forecast" x;
                       r ← f t p;
                       Ok (CFloat r))
                 d);
   mutate (length h) (setitem m col))
    (h ++ [group_table (granularity eval) gs keys ts fs computed])
  = Ok ((), h ++ [group_table (granularity eval) gs keys ts fs (computed ++ [m])]).
Proof using Hkeys Htruth Hforecast Hlen Hgs Hnonempty.
  intros Hl Hm.
  assert ((h ++ [group_table (granularity eval) gs keys ts fs computed]) !! l
          = Some df) as Hl'.
  { rewrite lookup_app_l; [exact Hl|]. by eapply lookup_lt_Some. }
  rewrite bind_run, (load_Ok _ _ _ Hl'), bind_run.
  unfold lift at 1. rewrite (groupby_apply_scores m Hm).
  rewrite (mutate_Ok _ _ _ _
             (group_table (granularity eval) gs keys ts fs (computed ++ [m]))
             (lookup_snoc_last _ _)).
  - by rewrite insert_snoc_last.
  - assert (length (group_score_col gs keys ts fs m) = length gs) as Hcol.
    { destruct (error_functions_names m Hm) as [f Hf].
      unfold group_score_col. by rewrite Hf, length_fmap. }
    unfold setitem, nrows, group_table. cbn [df_index range_index].
    rewrite decide_True by (by rewrite Hcol, length_fmap, length_seq).
    cbn [df_columns]. by rewrite foldl_app.
Qed.

(** Per-group mode returns a new table with one row per group; the input
    table is left as it was. *)
Lemma compute_metrics_per_group (h : list DataFrame) (l : loc) :
  h !! l = Some df →
  _compute_metrics l error_functions eval h
  = Ok (length h,
        h ++ [group_table (granularity eval) gs keys ts fs (metrics eval)]).
Proof using All.
  intros Hl. unfold _compute_metrics. rewrite Hagg.
  rewrite bind_run, (load_Ok _ _ _ Hl), bind_run.
  unfold lift at 1. rewrite Hkeys. rewrite bind_run.
  unfold lift at 1. rewrite sorted_unique_keys. rewrite bind_run.
  unfold alloc at 1. rewrite bind_run.
  destruct (for_invariant
              (λ computed h',
                 h' = h ++ [group_table (granularity eval) gs keys ts fs computed])
              (λ m,
                 d ← load l;
                 col ← lift (groupby_apply (granularity eval) ["truth"; "forecast"]
                               (λ x, f ← dict_get error_functions m;
                                     t ← attr_series "truth" x;
                                     p ← attr_series "forecast" x;
                                     r ← f t p;
                                     Ok (CFloat r))
                               d);
                 mutate (length h) (setitem m col))
              [] (metrics eval)
              (h ++ [group_table (granularity eval) gs keys ts fs []]) eq_refl)
    as (h' & Hfor & ->).
  - intros pre m post h1 Heq _ ->. eexists. split; [|reflexivity].
    simpl in Heq. apply group_loop_body; [exact Hl|].
    apply Hmetrics. rewrite Heq. apply elem_of_app. right. by left.
  - unfold of_dict.
    change (mkDataFrame (range_index (length gs)) [(granularity eval, gs)])
      with (group_table (granularity eval) gs keys ts fs []).
    rewrite Hfor. reflexivity.
Qed.

End PerGroup.

(** X14. per-group mode.  The function returns a new table and leaves the
    input as it was.  The table has one row per distinct group key, in
    ascending key order, and for every requested metric a column that holds
    the error function applied to the truth and forecast entries of the
    group's rows; for "MAE" that is the mean of |t - f| over those rows.
    Unlike the table of aggregate mode it has no "truth" column. *)
Theorem per_group_mode_scores_group_rows (eval : eval_config)
    (h : list DataFrame) (l : loc) (df : DataFrame)
    (keys : list cell) (ts fs : list R) :
  h !! l = Some df →
  get_perf_on_agg_forecast eval = false →
  getitem (granularity eval) df = Ok keys →
  getitem "truth" df = Ok (floats (reals ts)) →
  getitem "forecast" df = Ok (floats (reals fs)) →
  length ts = length keys →
  length fs = length keys →
  homogeneous keys = true →
  keys ≠ [] →
  (∀ k, k ∈ keys → notna k = true) →
  granularity eval ∉ "truth" :: "forecast" :: metric_names →
  (∀ m, m ∈ metrics eval → m ∈ metric_names) →
  let rows_t g := rows_where g keys ts in
  let rows_f g := rows_where g keys fs in
  ∃ (gs : list cell) (table : DataFrame),
    _compute_metrics l error_functions eval h = Ok (length h, h ++ [table])
    ∧ getitem (granularity eval) table = Ok gs
    ∧ Sorted (λ a b, cell_leb a b = true) gs
    ∧ NoDup gs
    ∧ (∀ g, g ∈ gs ↔ g ∈ keys)
    ∧ (∀ m f, m ∈ metrics eval → error_functions !! m = Some f →
         getitem m table
         = Ok ((λ g, CFloat (series_score f (rows_t g) (rows_f g))) <$> gs)
         ∧ ∀ g, f (Series (reals (rows_t g))) (Series (reals (rows_f g)))
                = Ok (series_score f (rows_t g) (rows_f g)))
    ∧ ("MAE" ∈ metrics eval →
         getitem "MAE" table
         = Ok ((λ g, CFloat (Fin (Rmean (zip_with (λ t f, Rabs (t - f))
                                           (rows_t g) (rows_f g))))) <$> gs))
    ∧ getitem "truth" table = Raise (KeyError "truth").
Proof.
  intros Hl Hagg Hkeys Ht Hf Hlt Hlf Hhom Hne Hnotna Hgran0 Hms rows_t rows_f.
  assert (granularity eval ∉ metric_names) as Hgran.
  { intros Hin. apply Hgran0. by do 2 right. }
  destruct (group_keys_Ok keys Hhom) as (gs & Hgs & Hnd & Hin).
  assert (∀ g, g ∈ gs ↔ g ∈ keys) as Hin'.
  { intros g. rewrite Hin. split; [by intros [? _]|].
    intros Hg. split; [exact Hg|by apply Hnotna]. }
  assert (gs ≠ []) as Hgne.
  { intros ->. destruct keys as [|k keys']; [done|].
    assert (k ∈ []) as Hk by (apply Hin'; by left).
    by apply not_elem_of_nil in Hk. }
  assert (length ts = length fs) as Hlen by congruence.
  pose proof (sorted_unique_keys keys gs Hnotna Hgs) as Hsorted.
  apply sorted_cells_inv in Hsorted as [Hsorted _].
  exists gs, (group_table (granularity eval) gs keys ts fs (metrics eval)).
  split.
  { exact (compute_metrics_per_group eval df keys ts fs gs Hagg Hkeys Ht Hf Hlen
             Hnotna Hgs Hgne Hgran Hms h l Hl). }
  split; [exact (group_table_keys eval keys ts fs gs Hgran (metrics eval) Hms)|].
  split; [exact Hsorted|]. split; [exact Hnd|]. split; [exact Hin'|].
  split.
  { intros m f Hm Hmf. split.
    - rewrite (group_table_score eval keys ts fs gs (metrics eval) m Hm).
      unfold group_score_col. by rewrite Hmf.
    - intros g. apply (series_score_Ok m f _ _ Hmf).
      by apply rows_where_length. }
  split.
  { intros Hm.
    rewrite (group_table_score eval keys ts fs gs (metrics eval) "MAE" Hm).
    unfold group_score_col.
    change (error_functions !! "MAE") with (Some MAE). cbn iota. f_equal.
    apply list_fmap_ext. intros i g Hg. apply list_elem_of_lookup_2 in Hg.
    rewrite series_score_MAE; [reflexivity|by apply rows_where_length|].
    apply rows_where_nonempty; [exact Hlt|by apply Hin']. }
  apply group_table_no_other.
  - intros Hin0. apply Hms in Hin0. unfold metric_names in Hin0.
    not_elem_of_list Hin0.
  - intros Heq. apply Hgran0. rewrite <- Heq. by left.
Qed.

Lemma per_group_mode_scores_group_rows_witness :
  ∃ (gs : list cell) (table : DataFrame),
    _compute_metrics 0 error_functions example_eval_per_group [example_table]
    = Ok (1, [example_table; table])
    ∧ getitem "bucket" table = Ok gs
    ∧ getitem "MAE" table
      = Ok ((λ g, CFloat (Fin (Rmean
               (zip_with (λ t f, Rabs (t - f))
                  (rows_where g [CStr "A"; CStr "A"; CStr "B"; CStr "B"]
                     [10%R; 10%R; 0%R; 0%R])
                  (rows_where g [CStr "A"; CStr "A"; CStr "B"; CStr "B"]
                     [10%R; 10%R; 5%R; 5%R]))))) <$> gs).
Proof.
  destruct (per_group_mode_scores_group_rows example_eval_per_group
              [example_table] 0 example_table
              [CStr "A"; CStr "A"; CStr "B"; CStr "B"]
              [10%R; 10%R; 0%R; 0%R] [10%R; 10%R; 5%R; 5%R])
    as (gs & table & Hrun & Hkeys & _ & _ & _ & _ & Hmae & _).
  - reflexivity.
  - reflexivity.
  - reflexivity.
  - reflexivity.
  - reflexivity.
  - reflexivity.
  - reflexivity.
  - reflexivity.
  - discriminate.
  - intros k Hk. repeat (apply elem_of_cons in Hk as [->|Hk]; [reflexivity|]).
    by apply not_elem_of_nil in Hk.
  - intros Hin. simpl in Hin. unfold metric_names in Hin. not_elem_of_list Hin.
  - intros m Hm. simpl in Hm. apply list_elem_of_singleton in Hm as ->.
    unfold metric_names. elem_of_list.
  - exists gs, table. split; [exact Hrun|]. split; [exact Hkeys|].
    apply Hmae. simpl. by left.
Defined.

(** ** The two modes on one-row groups *)

Lemma rows_where_notin {A} (g : cell) (keys : list cell) (a : list A) :
  g ∉ keys → rows_where g keys a = [].
Proof.
  unfold rows_where. revert a.
  induction keys as [|k keys IH]; intros [|x a] Hg; simpl; try reflexivity.
  rewrite filter_cons. simpl. rewrite decide_False.
  - apply IH. intros Hin. apply Hg. by right.
  - intros ->. apply Hg. by left.
Qed.

Lemma rows_where_unique {A} (g : cell) (keys : list cell) (a : list A)
    (i : nat) (x : A) :
  NoDup keys → keys !! i = Some g → a !! i = Some x →
  rows_where g keys a = [x].
Proof.
  intros Hnd. revert a i. induction Hnd as [|k keys Hk Hnd IH];
    intros [|y a] i Hi Hx; try done.
  destruct i as [|i]; simpl in *.
  - injection Hi as ->. injection Hx as ->.
    unfold rows_where. simpl. rewrite filter_cons. simpl.
    rewrite decide_True by reflexivity. simpl. f_equal.
    by apply (rows_where_notin g keys a).
  - assert (k ≠ g) as Hne.
    { intros ->. apply Hk. by eapply list_elem_of_lookup_2. }
    unfold rows_where. simpl. rewrite filter_cons. simpl.
    rewrite decide_False by exact Hne. by apply (IH a i).
Qed.

Lemma scalar_series_agree (m : string) (f : metric_fn) (t p : R) :
  error_functions !! m = Some f →
  scalar_score f (Rsum [t]) (Rsum [p]) = series_score f [t] [p].
Proof.
  intros Hm.
  assert (Rsum [t] = t) as -> by (unfold Rsum; simpl; lra).
  assert (Rsum [p] = p) as -> by (unfold Rsum; simpl; lra).
  unfold error_functions in Hm.
  repeat (apply lookup_insert_Some in Hm as [[_ <-]|[_ Hm]]; [reflexivity|]).
  by rewrite lookup_empty in Hm.
Qed.

(** X15. when every group has exactly one row the two modes score alike:
    for the same table, grouping key and metrics, aggregate mode and
    per-group mode return tables with the same group keys and the same
    metric columns. *)
Theorem modes_agree_on_one_row_groups (gran : string) (ms : list string)
    (h : list DataFrame) (l : loc) (df : DataFrame)
    (keys : list cell) (ts fs : list R) :
  h !! l = Some df →
  getitem gran df = Ok keys →
  getitem "truth" df = Ok (floats (reals ts)) →
  getitem "forecast" df = Ok (floats (reals fs)) →
  length ts = length keys →
  length fs = length keys →
  homogeneous keys = true →
  keys ≠ [] →
  (∀ k, k ∈ keys → notna k = true) →
  NoDup keys →
  gran ∉ "truth" :: "forecast" :: metric_names →
  (∀ m, m ∈ ms → m ∈ metric_names) →
  ∃ (gs : list cell) (aggregate per_group : DataFrame),
    _compute_metrics l error_functions (mkEval gran ms true) h
    = Ok (length h, h ++ [aggregate])
    ∧ _compute_metrics l error_functions (mkEval gran ms false) h
      = Ok (length h, h ++ [per_group])
    ∧ getitem gran aggregate = Ok gs
    ∧ getitem gran per_group = Ok gs
    ∧ ∀ m, m ∈ ms →
        ∃ col, getitem m aggregate = Ok col ∧ getitem m per_group = Ok col.
Proof.
  intros Hl Hkeys Ht Hf Hlt Hlf Hhom Hne Hnotna Hnd Hgran0 Hms.
  assert (gran ∉ metric_names) as Hgran.
  { intros Hin. apply Hgran0. by do 2 right. }
  destruct (group_keys_Ok keys Hhom) as (gs & Hgs & Hgnd & Hin).
  assert (∀ g, g ∈ gs → g ∈ keys) as Hin' by (intros g Hg; by apply Hin).
  assert (gs ≠ []) as Hgne.
  { intros ->. destruct keys as [|k keys']; [done|].
    assert (k ∈ []) as Hk by (apply Hin; split; [by left|apply Hnotna; by left]).
    by apply not_elem_of_nil in Hk. }
  assert (length ts = length fs) as Hlen by congruence.
  set (ea := mkEval gran ms true). set (eg := mkEval gran ms false).
  exists gs, (agg_table gran gs keys ts fs ms), (group_table gran gs keys ts fs ms).
  split.
  { exact (compute_metrics_aggregate ea df keys ts fs gs eq_refl Hkeys Ht Hf
             Hgs Hgne Hgran0 Hms h l Hl). }
  split.
  { exact (compute_metrics_per_group eg df keys ts fs gs eq_refl Hkeys Ht Hf
             Hlen Hnotna Hgs Hgne Hgran Hms h l Hl). }
  split.
  { exact (agg_table_keys ea df keys ts fs gs eq_refl Hkeys Ht Hf Hgs Hgne
             Hgran0 Hms ms Hms). }
  split; [exact (group_table_keys eg keys ts fs gs Hgran ms Hms)|].
  intros m Hm. exists (group_score_col gs keys ts fs m). split.
  - assert (getitem m (agg_table gran gs keys ts fs ms)
            = Ok (score_col gs keys ts fs m)) as ->.
    { exact (agg_table_score ea df keys ts fs gs eq_refl Hkeys Ht Hf Hgs Hgne
               Hgran0 Hms ms m Hm). }
    f_equal. unfold score_col, group_score_col.
    destruct (error_functions !! m) as [f|] eqn:Hf0; [|reflexivity].
    apply list_fmap_ext. intros j g Hg. apply list_elem_of_lookup_2 in Hg.
    apply Hin', list_elem_of_lookup in Hg as [i Hi].
    destruct (lookup_lt_is_Some_2 ts i) as [t Hti].
    { rewrite Hlt. by eapply lookup_lt_Some. }
    destruct (lookup_lt_is_Some_2 fs i) as [p Hpi].
    { rewrite Hlf. by eapply lookup_lt_Some. }
    unfold group_total.
    rewrite (rows_where_unique g keys ts i t Hnd Hi Hti).
    rewrite (rows_where_unique g keys fs i p Hnd Hi Hpi).
    f_equal. by apply (scalar_series_agree m).
  - exact (group_table_score eg keys ts fs gs ms m Hm).
Qed.

Lemma modes_agree_on_one_row_groups_witness :
  ∃ (gs : list cell) (aggregate per_group : DataFrame),
    _compute_metrics 0 error_functions (mkEval "bucket" ["MAE"; "MAPE"] true)
      [example_single_rows]
    = Ok (1, [example_single_rows; aggregate])
    ∧ _compute_metrics 0 error_functions (mkEval "bucket" ["MAE"; "MAPE"] false)
        [example_single_rows]
      = Ok (1, [example_single_rows; per_group])
    ∧ getitem "MAPE" aggregate = getitem "MAPE" per_group.
Proof.
  destruct (modes_agree_on_one_row_groups "bucket" ["MAE"; "MAPE"]
              [example_single_rows] 0 example_single_rows
              [CStr "A"; CStr "B"] [10%R; 0%R] [10%R; 5%R])
    as (gs & ta & tg & Hra & Hrg & _ & _ & Hcols).
  - reflexivity.
  - reflexivity.
  - reflexivity.
  - reflexivity.
  - reflexivity.
  - reflexivity.
  - reflexivity.
  - discriminate.
  - intros k Hk. repeat (apply elem_of_cons in Hk as [->|Hk]; [reflexivity|]).
    by apply not_elem_of_nil in Hk.
  - repeat constructor; intros Hin; not_elem_of_list Hin.
  - intros Hin. unfold metric_names in Hin. not_elem_of_list Hin.
  - intros m Hm. unfold metric_names.
    repeat (apply elem_of_cons in Hm as [->|Hm]; [elem_of_list|]).
    by apply not_elem_of_nil in Hm.
  - exists gs, ta, tg. split; [exact Hra|]. split; [exact Hrg|].
    destruct (Hcols "MAPE") as (col & Ha & Hg); [by right; left|].
    by rewrite Ha, Hg.
Defined.

(** ** A metric that is not one of the five *)

Lemma for_app {A} (body : A → M unit) (l1 l2 : list A) (h : list DataFrame) :
  for_ (l1 ++ l2) body h
  = match for_ l1 body h with
    | Ok (_, h1) => for_ l2 body h1
    | Raise e => Raise e
    end.
Proof.
  revert h. induction l1 as [|x l1 IH]; intros h; [reflexivity|].
  cbn [app for_]. rewrite !bind_run.
  destruct (body x h) as [[[] h1]|e]; [apply IH|reflexivity].
Qed.

Lemma dict_get_unknown (m : string) :
  m ∉ metric_names → dict_get error_functions m = Raise (KeyError m).
Proof.
  intros Hm. unfold dict_get.
  destruct (error_functions !! m) as [f|] eqn:Hf; [|reflexivity].
  exfalso. apply Hm. by eapply error_functions_dom.
Qed.

(** X16. a requested metric that is not one of the five names of the
    dictionary of error functions makes the computation fail with the
    [KeyError] of the dictionary lookup, in both modes, once the metrics
    listed before it have been computed. *)
Theorem unknown_metric_raises_KeyError (eval : eval_config)
    (h : list DataFrame) (l : loc) (df : DataFrame)
    (keys : list cell) (ts fs : list R) (pre post : list string) (m : string) :
  h !! l = Some df →
  getitem (granularity eval) df = Ok keys →
  getitem "truth" df = Ok (floats (reals ts)) →
  getitem "forecast" df = Ok (floats (reals fs)) →
  length ts = length fs →
  homogeneous keys = true →
  keys ≠ [] →
  (∀ k, k ∈ keys → notna k = true) →
  granularity eval ∉ "truth" :: "forecast" :: metric_names →
  metrics eval = pre ++ m :: post →
  (∀ m', m' ∈ pre → m' ∈ metric_names) →
  m ∉ metric_names →
  _compute_metrics l error_functions eval h = Raise (KeyError m).
Proof.
  intros Hl Hkeys Ht Hf Hlen Hhom Hne Hnotna Hgran0 Hms Hpre Hm.
  assert (granularity eval ∉ metric_names) as Hgran.
  { intros Hin. apply Hgran0. by do 2 right. }
  destruct (group_keys_Ok keys Hhom) as (gs & Hgs & Hgnd & Hin).
  assert (gs ≠ []) as Hgne.
  { intros ->. destruct keys as [|k keys']; [done|].
    assert (k ∈ []) as Hk by (apply Hin; split; [by left|apply Hnotna; by left]).
    by apply not_elem_of_nil in Hk. }
  pose proof (dict_get_unknown m Hm) as Hget.
  unfold _compute_metrics. rewrite Hms.
  destruct (get_perf_on_agg_forecast eval) eqn:Hflag.
  - set (e' := mkEval (granularity eval) pre true).
    pose proof (compute_metrics_aggregate e' df keys ts fs gs eq_refl Hkeys Ht Hf
                  Hgs Hgne Hgran0 Hpre h l Hl) as Hrun.
    unfold _compute_metrics in Hrun. cbn [get_perf_on_agg_forecast e'] in Hrun.
    apply bind_inv in Hrun as (lm & h1 & Hnew & Hrun).
    apply bind_inv in Hrun as ([] & h2 & Hfor & Hret).
    apply ret_inv_pair in Hret as [Hlm <-]. subst lm.
    cbn [granularity metrics e'] in Hnew, Hfor.
    rewrite bind_run, Hnew, bind_run, for_app, Hfor.
    cbn [for_]. rewrite !bind_run.
    rewrite (load_Ok _ _ _ (lookup_snoc_last _ _)), bind_run.
    pose proof (agg_table_truth e' df keys ts fs gs eq_refl Hkeys Ht Hf Hgs Hgne
                  Hgran0 Hpre pre Hpre) as HT.
    pose proof (agg_table_forecast e' df keys ts fs gs eq_refl Hkeys Ht Hf Hgs
                  Hgne Hgran0 Hpre pre Hpre) as HF.
    cbn [granularity e'] in HT, HF.
    unfold lift at 1, select, getitem. cbn [result_mapM].
    rewrite HT, HF. cbn [mbind result_bind]. rewrite bind_run.
    unfold lift at 1, apply_axis1, nrows.
    cbn [df_index agg_table range_index].
    rewrite length_fmap, length_seq.
    destruct gs as [|g0 gs']; [done|].
    cbn [length seq result_mapM]. by rewrite Hget.
  - set (e' := mkEval (granularity eval) pre false).
    assert (length ts = length fs) as Hlen' by exact Hlen.
    pose proof (compute_metrics_per_group e' df keys ts fs gs eq_refl Hkeys Ht Hf
                  Hlen Hnotna Hgs Hgne Hgran Hpre h l Hl) as Hrun.
    unfold _compute_metrics in Hrun. cbn [get_perf_on_agg_forecast e'] in Hrun.
    apply bind_inv in Hrun as (d & h1 & Hload & Hrun).
    apply bind_inv in Hrun as (ks0 & h2 & Hk0 & Hrun).
    apply bind_inv in Hrun as (ks & h3 & Hks & Hrun).
    apply bind_inv in Hrun as (lm & h4 & Halloc & Hrun).
    apply bind_inv in Hrun as ([] & h5 & Hfor & Hret).
    apply ret_inv_pair in Hret as [Hlm <-]. subst lm.
    cbn [granularity metrics e'] in Hload, Hk0, Hks, Halloc, Hfor.
    rewrite bind_run, Hload, bind_run, Hk0, bind_run, Hks, bind_run, Halloc.
    rewrite bind_run, for_app, Hfor.
    cbn [for_]. rewrite !bind_run.
    assert ((h ++ [group_table (granularity eval) gs keys ts fs pre]) !! l
            = Some df) as Hl'.
    { rewrite lookup_app_l; [exact Hl|]. by eapply lookup_lt_Some. }
    rewrite (load_Ok _ _ _ Hl'), bind_run.
    unfold lift at 1, groupby_apply. rewrite Hkeys. cbn [mbind result_bind].
    rewrite Hgs. cbn [mbind result_bind result_mapM].
    rewrite Ht, Hf. cbn [mbind result_bind].
    destruct gs as [|g0 gs']; [done|].
    cbn [result_mapM]. by rewrite Hget.
Qed.

Lemma unknown_metric_raises_KeyError_witness :
  _compute_metrics 0 error_functions (mkEval "bucket" ["MAE"; "R2"] false)
    [example_table]
  = Raise (KeyError "R2").
Proof.
  apply (unknown_metric_raises_KeyError (mkEval "bucket" ["MAE"; "R2"] false)
           [example_table] 0 example_table
           [CStr "A"; CStr "A"; CStr "B"; CStr "B"]
           [10%R; 10%R; 0%R; 0%R] [10%R; 10%R; 5%R; 5%R] ["MAE"] [] "R2").
  - reflexivity.
  - reflexivity.
  - reflexivity.
  - reflexivity.
  - reflexivity.
  - reflexivity.
  - discriminate.
  - intros k Hk. repeat (apply elem_of_cons in Hk as [->|Hk]; [reflexivity|]).
    by apply not_elem_of_nil in Hk.
  - intros Hin. simpl in Hin. unfold metric_names in Hin. not_elem_of_list Hin.
  - reflexivity.
  - intros m Hm. apply list_elem_of_singleton in Hm as ->.
    unfold metric_names. elem_of_list.
  - intros Hin. unfold metric_names in Hin. not_elem_of_list Hin.
Defined.

(** ** Formatting the display table *)

Lemma assoc_set_names {V} (k : string) (v w : V) (l : list (string * V)) :
  assoc k l = Some w → (assoc_set k v l).*1 = l.*1.
Proof.
  induction l as [|[k' v'] l IH]; intros Hk; [done|].
  simpl in *. destruct (decide (k = k')) as [->|Hne]; [done|].
  simpl. f_equal. by apply IH.
Qed.

Section FormatRun.

Context `{Externals}.
Context (config : format_config) (l : loc) (h : list DataFrame) (d : DataFrame).
Context (xs : string → list npfloat) (nd : string → nat).

Hypothesis Hl : h !! l = Some d.

Lemma format_body_run (done_ : list string) (m : string) (d1 : DataFrame) :
  formatted d xs nd done_ d1 →
  m ∉ done_ →
  getitem m d = Ok (floats (xs m)) →
  length (xs m) = nrows d →
  config_metrics config !! m = Some (nd m) →
  ∃ d2, format_body config l m (<[l := d1]> h) = Ok ((), <[l := d2]> h)
        ∧ formatted d xs nd (done_ ++ [m]) d2.
Proof using Hl.
  intros (Hidx & Hnames & Hcols) Hm Hcol Hlen Hnd.
  assert (l < length h) as Hlt by (by eapply lookup_lt_Some).
  assert (getitem m d1 = Ok (floats (xs m))) as Hcol1.
  { rewrite Hcols, decide_False by exact Hm. exact Hcol. }
  set (out := (λ x, CStr (py_format (nd m) (py_round x (nd m)))) <$> xs m).
  set (d2 := mkDataFrame (df_index d) (assoc_set m out (df_columns d1))).
  exists d2. split.
  - unfold format_body.
    rewrite bind_run, (load_Ok _ _ d1) by (by apply list_lookup_insert_eq).
    rewrite bind_run. unfold lift at 1. rewrite Hcol1. rewrite bind_run.
    unfold lift at 1, series_map, floats. rewrite result_mapM_fmap.
    rewrite (result_mapM_Ok _ (λ x, CStr (py_format (nd m) (py_round x (nd m)))))
      by (intros x _; unfold dict_get; by rewrite Hnd).
    assert (setitem m out d1 = Ok d2) as Hset.
    { unfold setitem, nrows. rewrite Hidx. fold (nrows d).
      unfold out. rewrite length_fmap. by rewrite decide_True by exact Hlen. }
    fold out. rewrite (mutate_Ok _ _ _ d1 d2 (list_lookup_insert_eq _ _ _ Hlt) Hset).
    by rewrite list_insert_insert_eq.
  - split; [reflexivity|]. split.
    + cbn [d2 df_columns]. rewrite <- Hnames.
      apply getitem_inv in Hcol1. by eapply assoc_set_names.
    + intros c. unfold getitem at 1. cbn [d2 df_columns].
      destruct (decide (c = m)) as [->|Hne].
      * rewrite assoc_set_eq, decide_True by (apply elem_of_app; right; by left).
        reflexivity.
      * rewrite assoc_set_ne by (intros Heq; by apply Hne).
        fold (getitem c d1). rewrite Hcols.
        destruct (decide (c ∈ done_)) as [Hc|Hc].
        -- by rewrite decide_True by (apply elem_of_app; by left).
        -- rewrite decide_False; [reflexivity|].
           intros Hin. apply elem_of_app in Hin as [Hin|Hin]; [done|].
           by apply list_elem_of_singleton in Hin.
Qed.

Lemma format_loop_run (ms : list string) :
  NoDup ms →
  (∀ m, m ∈ ms →
     getitem m d = Ok (floats (xs m)) ∧ length (xs m) = nrows d
     ∧ config_metrics config !! m = Some (nd m)) →
  ∃ d', for_ ms (format_body config l) h = Ok ((), <[l := d']> h)
        ∧ formatted d xs nd ms d'.
Proof using Hl.
  intros Hnd Hms.
  destruct (for_invariant
              (λ done_ h', ∃ d', h' = <[l := d']> h ∧ formatted d xs nd done_ d')
              (format_body config l) [] ms h) as (h' & Hfor & d' & -> & Hd').
  - exists d. split; [by rewrite list_insert_id|].
    split; [reflexivity|]. split; [reflexivity|].
    intros c. rewrite decide_False; [reflexivity|]. apply not_elem_of_nil.
  - intros pre m post h1 Heq _ (d1 & -> & Hd1). simpl in Heq.
    assert (m ∈ ms) as Hm.
    { rewrite Heq. apply elem_of_app. right. by left. }
    destruct (Hms m Hm) as (Hcol & Hlen & Hprec).
    assert (m ∉ pre) as Hfresh.
    { rewrite Heq in Hnd. apply NoDup_app in Hnd as (_ & Hdisj & _).
      intros Hin. apply (Hdisj m Hin). by left. }
    destruct (format_body_run pre m d1 Hd1 Hfresh Hcol Hlen Hprec)
      as (d2 & Hrun & Hd2).
    exists (<[l := d2]> h). split; [exact Hrun|]. by exists d2.
  - by exists d'.
Qed.

End FormatRun.

(** X17. what the final formatting does.  On a display table that has a
    column of floats for each requested metric (the metrics being
    distinct, each with a number of decimals in the configuration), the
    function works in place: it returns the reference it was given, and in
    the object behind it every requested metric column holds the strings
    obtained by rounding each entry to the metric's decimals and formatting
    it with as many decimals; the index, the column order and the other
    columns are as before, and no other object is touched. *)
Theorem format_metrics_values_formats_in_place `{Externals}
    (eval : eval_config) (config : format_config)
    (h : list DataFrame) (l : loc) (d : DataFrame)
    (xs : string → list npfloat) (nd : string → nat) :
  h !! l = Some d →
  NoDup (metrics eval) →
  (∀ m, m ∈ metrics eval →
     getitem m d = Ok (floats (xs m)) ∧ length (xs m) = nrows d
     ∧ config_metrics config !! m = Some (nd m)) →
  ∃ d', __format_metrics_values l eval config h = Ok (l, <[l := d']> h)
        ∧ df_index d' = df_index d
        ∧ (df_columns d').*1 = (df_columns d).*1
        ∧ (∀ m, m ∈ metrics eval →
             getitem m d'
             = Ok ((λ x, CStr (py_format (nd m) (py_round x (nd m)))) <$> xs m))
        ∧ (∀ c, c ∉ metrics eval → getitem c d' = getitem c d).
Proof.
  intros Hl Hnd Hms.
  destruct (format_loop_run config l h d xs nd Hl (metrics eval) Hnd Hms)
    as (d' & Hfor & Hidx & Hnames & Hcols).
  exists d'. split.
  { unfold __format_metrics_values. cbn zeta. rewrite bind_run.
    unfold format_body in Hfor. by rewrite Hfor. }
  split; [exact Hidx|]. split; [exact Hnames|]. split.
  - intros m Hm. by rewrite Hcols, decide_True.
  - intros c Hc. by rewrite Hcols, decide_False.
Qed.

Lemma format_metrics_values_formats_in_place_witness :
  ∃ d', __format_metrics_values (H := sample_externals) 0 example_eval_per_group
          example_config [example_display]
        = Ok (0, [d'])
        ∧ df_index d' = [(Some "bucket", [CStr "A"; CStr "B"])]
        ∧ getitem "MAE" d' = Ok [CStr "#"; CStr "#"].
Proof.
  destruct (format_metrics_values_formats_in_place (H := sample_externals)
              example_eval_per_group example_config [example_display] 0
              example_display (λ _, reals [1%R; 3%R]) (λ _, 2))
    as (d' & Hrun & Hidx & _ & Hcols & _).
  - reflexivity.
  - repeat constructor; intros Hin; not_elem_of_list Hin.
  - intros m Hm. simpl in Hm. apply list_elem_of_singleton in Hm as ->.
    repeat split; reflexivity.
  - exists d'. split; [exact Hrun|]. split; [exact Hidx|].
    apply (Hcols "MAE"). simpl. by left.
Defined.

(** X18. the failures of the final formatting.  Once the metrics listed
    before it have been formatted, a requested metric makes the function
    raise [KeyError] when the display table has no column of that name, and
    also when the table has rows and the configuration gives the metric no
    number of decimals. *)
Theorem format_metrics_values_raises_KeyError `{Externals}
    (eval : eval_config) (config : format_config)
    (h : list DataFrame) (l : loc) (d : DataFrame)
    (xs : string → list npfloat) (nd : string → nat)
    (pre post : list string) (m : string) :
  h !! l = Some d →
  metrics eval = pre ++ m :: post →
  NoDup (pre ++ [m]) →
  (∀ m', m' ∈ pre →
     getitem m' d = Ok (floats (xs m')) ∧ length (xs m') = nrows d
     ∧ config_metrics config !! m' = Some (nd m')) →
  getitem m d = Raise (KeyError m)
  ∨ (∃ c col, getitem m d = Ok (c :: col) ∧ config_metrics config !! m = None) →
  __format_metrics_values l eval config h = Raise (KeyError m).
Proof.
  intros Hl Hms Hnd Hpre Hbad.
  apply NoDup_app in Hnd as (Hndpre & Hdisj & _).
  assert (m ∉ pre) as Hm by (intros Hin; apply (Hdisj m Hin); by left).
  destruct (format_loop_run config l h d xs nd Hl pre Hndpre Hpre)
    as (d1 & Hfor & _ & _ & Hcols).
  assert (l < length h) as Hlt by (by eapply lookup_lt_Some).
  unfold __format_metrics_values. cbn zeta. rewrite bind_run, Hms, for_app.
  unfold format_body in Hfor. rewrite Hfor. cbn [for_]. rewrite !bind_run.
  rewrite (load_Ok _ _ d1) by (by apply list_lookup_insert_eq).
  rewrite bind_run. unfold lift at 1.
  rewrite Hcols, decide_False by exact Hm.
  destruct Hbad as [->|(c & col & -> & Hnone)]; [reflexivity|].
  rewrite bind_run. unfold lift at 1, series_map. cbn [result_mapM].
  unfold dict_get. by rewrite Hnone.
Qed.

Lemma format_metrics_values_raises_KeyError_witness :
  __format_metrics_values (H := sample_externals) 0
    (mkEval "bucket" ["MAE"; "MSE"] false) (mkFormat (<["MAE" := 2]> ∅))
    [example_display]
  = Raise (KeyError "MSE").
Proof.
  apply (format_metrics_values_raises_KeyError (H := sample_externals)
           (mkEval "bucket" ["MAE"; "MSE"] false) (mkFormat (<["MAE" := 2]> ∅))
           [example_display] 0 example_display (λ _, reals [1%R; 3%R]) (λ _, 2)
           ["MAE"] [] "MSE").
  - reflexivity.
  - reflexivity.
  - repeat constructor; intros Hin; not_elem_of_list Hin.
  - intros m Hm. apply list_elem_of_singleton in Hm as ->.
    repeat split; reflexivity.
  - left. reflexivity.
Defined.

Lemma Forall_strings (c : list cell) :
  Forall (λ x, ∃ s, x = CStr s) c → ∃ ss, c = CStr <$> ss.
Proof.
  induction 1 as [|x c [s ->] _ [ss ->]]; [by exists []|by exists (s :: ss)].
Qed.

(** Whatever the table, the columns that the formatting has gone through
    hold strings. *)
Lemma format_metrics_values_strings `{Externals} (l : loc) (eval : eval_config)
    (config : format_config) (h h' : list DataFrame) (r : loc) :
  __format_metrics_values l eval config h = Ok (r, h') →
  ∀ m, m ∈ metrics eval →
    ∃ d' ss, h' !! l = Some d' ∧ getitem m d' = Ok (CStr <$> ss).
Proof.
  unfold __format_metrics_values. cbn zeta. intros Hrun.
  apply bind_inv in Hrun as ([] & h1 & Hfor & Hret).
  apply ret_inv_pair in Hret as [_ ->].
  revert Hfor.
  apply (for_inv_indexed
           (λ done_ hc, ∀ m, m ∈ done_ →
              ∃ d' ss, hc !! l = Some d' ∧ getitem m d' = Ok (CStr <$> ss))).
  - intros m Hm. by apply not_elem_of_nil in Hm.
  - intros pre col post h2 h3 _ Hinv Hbody.
    apply bind_inv in Hbody as (d1 & h4 & Hload & Hbody).
    apply load_inv_pair in Hload as [Hd1 ->].
    apply bind_inv in Hbody as (s & h5 & Hs & Hbody).
    apply lift_inv_pair in Hs as [_ ->].
    apply bind_inv in Hbody as (s' & h6 & Hs' & Hbody).
    apply lift_inv_pair in Hs' as [Hs' ->].
    apply mutate_inv_pair in Hbody as (d3 & d2 & Hd3 & Hset & ->).
    rewrite Hd1 in Hd3. injection Hd3 as <-.
    assert (∃ ss, s' = CStr <$> ss) as [ss ->].
    { apply Forall_strings. eapply result_mapM_Forall; [|exact Hs'].
      intros x y Hy.
      apply result_bind_inv in Hy as (fmt & _ & Hy).
      apply result_bind_inv in Hy as (n & _ & Hy).
      apply result_bind_inv in Hy as (v & _ & [= <-]). by eexists. }
    assert (<[l := d2]> h2 !! l = Some d2) as Hd2.
    { apply list_lookup_insert_eq. by eapply lookup_lt_Some. }
    intros m Hm. exists d2. destruct (decide (m = col)) as [->|Hne].
    + exists ss. split; [exact Hd2|].
      apply setitem_inv in Hset as (_ & Hcols & _).
      unfold getitem. by rewrite Hcols, assoc_set_eq.
    + apply elem_of_app in Hm as [Hm|Hm];
        [|apply list_elem_of_singleton in Hm; contradiction].
      destruct (Hinv m Hm) as (d' & ss' & Hd' & Hcol).
      rewrite Hd1 in Hd'. injection Hd' as <-.
      exists ss'. split; [exact Hd2|].
      by rewrite (setitem_other _ _ _ _ _ Hset).
Qed.

(** X19. in the display table that the entry point returns, every
    requested metric column holds strings (it is the per-metric tables
    that keep the numbers). *)
Theorem display_table_holds_strings `{Externals}
    (evaluation_df : loc) (eval : eval_config) (dates : dates_config)
    (resampling : resampling_config) (use_cv : bool) (config : format_config)
    (h h' : list DataFrame) (disp : loc) (dict : gmap string loc) :
  get_perf_metrics evaluation_df eval dates resampling use_cv config h
  = Ok ((disp, dict), h') →
  ∃ D, h' !! disp = Some D
       ∧ ∀ m, m ∈ metrics eval → ∃ ss, getitem m D = Ok (CStr <$> ss).
Proof.
  intros Hrun.
  destruct (get_perf_metrics_inv _ _ _ _ _ _ _ _ _ _ Hrun)
    as (X & labels & _ & _ & _ & _ & (h_pre & Hfmt & _) & D & HD & _).
  exists D. split; [exact HD|]. intros m Hm.
  destruct (format_metrics_values_strings _ _ _ _ _ _ Hfmt m Hm)
    as (d' & ss & Hd' & Hcol).
  rewrite HD in Hd'. injection Hd' as <-. by exists ss.
Qed.

Lemma display_table_holds_strings_witness :
  ∃ (disp : loc) (dict : gmap string loc) (h' : list DataFrame) (D : DataFrame),
    get_perf_metrics (H := sample_externals) 0 example_eval_plain example_dates
      example_resampling false example_config [example_table]
    = Ok ((disp, dict), h')
    ∧ h' !! disp = Some D
    ∧ ∀ m, m ∈ ["MAE"; "MSE"] → ∃ ss, getitem m D = Ok (CStr <$> ss).
Proof.
  destruct (get_perf_metrics (H := sample_externals) 0 example_eval_plain
              example_dates example_resampling false example_config
              [example_table])
    as [[[disp dict] h']|e] eqn:Hrun;
    [|vm_compute in Hrun; discriminate Hrun].
  destruct (display_table_holds_strings (H := sample_externals)
              _ _ _ _ _ _ _ _ _ _ Hrun)
    as (D & HD & Hcols).
  exists disp, dict, h', D.
  split; [reflexivity|]. split; [exact HD|exact Hcols].
Defined.

(** ** The cross-validation table: the end of each fold *)

(** X20. the "Valid End" column.  The horizon is counted in seconds when
    the last character of the resampling frequency is "s" or "H", and in
    days otherwise; each row's "Valid End" is the rendering of its own
    "Valid Start" timestamp moved by that horizon, the rows having been
    sorted together.  The function returns a new table with a fresh range
    index and leaves the table it was given as it was. *)
Theorem valid_end_is_start_plus_horizon `{Externals}
    (eval : eval_config) (dates : dates_config) (resampling : resampling_config)
    (h : list DataFrame) (l : loc) (df : DataFrame) (ts : list Z) (fq : string) :
  h !! l = Some df →
  df_index df = range_index (length ts) →
  getitem "cutoff" df = Ok (CTime <$> ts) →
  assoc "Valid Start" (df_columns df) = None →
  last_char (freq resampling) = Ok fq →
  granularity eval ∉ ["Valid Start"; "Valid End"] →
  let horizon :=
    (if bool_decide (fq ∈ ["s"; "H"])
     then convert_into_nb_of_seconds fq (folds_horizon dates)
     else 86400 * convert_into_nb_of_days fq (folds_horizon dates))%Z in
  ∃ (l' : loc) (h' : list DataFrame) (table : DataFrame) (perm : list nat),
    __format_metrics_df_cv l dates eval resampling h = Ok (l', h')
    ∧ h' !! l' = Some table
    ∧ h' !! l = Some df
    ∧ l' ≠ l
    ∧ df_index table = range_index (length ts)
    ∧ perm ≡ₚ seq 0 (length ts)
    ∧ getitem "Valid Start" table
      = Ok ((λ i, CStr (astype_str (CTime (cutoff_at ts i)))) <$> perm)
    ∧ getitem "Valid End" table
      = Ok ((λ i, CStr (astype_str (CTime (cutoff_at ts i + horizon)))) <$> perm).
Proof.
  intros Hl Hidx Hcut Hfresh Hfq Hgran horizon.
  pose proof (format_metrics_df_cv_run eval dates resampling df ts fq
                Hidx Hcut Hfresh Hfq h l Hl) as Hrun.
  assert (l < length h) as Hlt by (by eapply lookup_lt_Some).
  eexists _, _, _, (cv_order ts).
  split; [exact Hrun|].
  split.
  { rewrite lookup_app_r by lia. by rewrite Nat.sub_succ_l, Nat.sub_diag. }
  split; [by rewrite lookup_app_l|].
  split; [lia|].
  split; [reflexivity|].
  split; [apply cv_order_Permutation|].
  split.
  { rewrite (cv_table_valid_start (granularity eval) (df_columns df) ts _ Hgran).
    by rewrite <- list_fmap_compose. }
  rewrite (cv_table_valid_end (granularity eval) (df_columns df) ts _ Hgran).
  by rewrite <- list_fmap_compose.
Qed.

Lemma valid_end_is_start_plus_horizon_witness :
  ∃ (l' : loc) (h' : list DataFrame) (table : DataFrame) (perm : list nat),
    __format_metrics_df_cv (H := sample_externals) 0 example_dates example_eval_cv
      example_resampling [example_metrics_table] = Ok (l', h')
    ∧ h' !! l' = Some table
    ∧ getitem "Valid End" table
      = Ok ((λ i, CStr (astype_str (Externals := sample_externals)
                          (CTime (cutoff_at example_folds i + 86400 * 7))))
              <$> perm).
Proof.
  destruct (valid_end_is_start_plus_horizon (H := sample_externals)
              example_eval_cv example_dates example_resampling
              [example_metrics_table] 0 example_metrics_table example_folds "D")
    as (l' & h' & table & perm & Hrun & Htable & _ & _ & _ & _ & _ & Hend).
  - reflexivity.
  - reflexivity.
  - reflexivity.
  - reflexivity.
  - reflexivity.
  - intros Hin. simpl in Hin. not_elem_of_list Hin.
  - exists l', h', table, perm.
    split; [exact Hrun|]. split; [exact Htable|exact Hend].
Defined.

Lemma assoc_rename_absent (old new : string) idx
    (cols : list (string * list cell)) :
  assoc old cols = None → assoc new cols = None →
  assoc new (df_columns (rename old new (mkDataFrame idx cols))) = None.
Proof.
  intros Hold Hnew. unfold rename. cbn [df_columns].
  induction cols as [|[k v] cols IH]; [reflexivity|].
  cbn [assoc] in Hold, Hnew. cbn [fmap list_fmap fst snd].
  destruct (decide (old = k)) as [->|Hko]; [discriminate|].
  destruct (decide (new = k)) as [->|Hkn]; [discriminate|].
  rewrite decide_False by (intros Heq; by apply Hko).
  cbn [assoc]. rewrite decide_False by exact Hkn. by apply IH.
Qed.

(** X21. the failures of the relabelling.  An empty resampling frequency
    makes the function raise [IndexError] (its last character is asked
    for); a metrics table with neither a "cutoff" nor a "Valid Start"
    column makes it raise [KeyError] on "Valid Start", the renaming of a
    column that is not there being silent. *)
Theorem format_metrics_df_cv_faults `{Externals}
    (eval : eval_config) (dates : dates_config) (resampling : resampling_config)
    (h : list DataFrame) (l : loc) (df : DataFrame) :
  h !! l = Some df →
  (freq resampling = "" →
   __format_metrics_df_cv l dates eval resampling h = Raise IndexError)
  ∧ (freq resampling ≠ "" →
     assoc "cutoff" (df_columns df) = None →
     assoc "Valid Start" (df_columns df) = None →
     __format_metrics_df_cv l dates eval resampling h
     = Raise (KeyError "Valid Start")).
Proof.
  intros Hl. split.
  - intros Hfreq. unfold __format_metrics_df_cv.
    rewrite bind_run,
      (new_from_Ok l (λ d, Ok (rename "cutoff" "Valid Start" d)) h df _ Hl eq_refl).
    rewrite bind_run. unfold lift at 1. by rewrite Hfreq.
  - intros Hfreq Hcut Hstart. unfold __format_metrics_df_cv.
    destruct (last_char_Ok _ Hfreq) as [fq Hfq].
    rewrite bind_run,
      (new_from_Ok l (λ d, Ok (rename "cutoff" "Valid Start" d)) h df _ Hl eq_refl).
    rewrite bind_run. unfold lift at 1. rewrite Hfq. rewrite bind_run.
    assert (getitem "Valid Start" (rename "cutoff" "Valid Start" df)
            = Raise (KeyError "Valid Start")) as Hget.
    { unfold getitem. destruct df as [idx cols]. cbn [df_columns] in Hcut, Hstart.
      by rewrite assoc_rename_absent. }
    destruct (bool_decide (fq ∈ ["s"; "H"]));
      rewrite !bind_run, (load_Ok _ _ _ (lookup_snoc_last _ _)), bind_run;
      unfold lift at 1; by rewrite Hget.
Qed.

Lemma format_metrics_df_cv_faults_witness :
  __format_metrics_df_cv (H := sample_externals) 0 example_dates example_eval_cv
    (mkResampling "") [example_metrics_table]
  = Raise IndexError.
Proof.
  apply (format_metrics_df_cv_faults (H := sample_externals) example_eval_cv
           example_dates (mkResampling "") [example_metrics_table] 0
           example_metrics_table); reflexivity.
Defined.

(** ** What a call leaves untouched *)

Lemma preserves_ret {A} (k : nat) (Q : A → Prop) (a : A) :
  Q a → preserves k Q (mret a).
Proof. intros HQ h r h' Hk Hr. apply ret_inv_pair in Hr as [-> ->]. done. Qed.

Lemma preserves_bind {A B} (k : nat) (Q : A → Prop) (Q' : B → Prop)
    (m : M A) (f : A → M B) :
  preserves k Q m → (∀ a, Q a → preserves k Q' (f a)) →
  preserves k Q' (m ≫= f).
Proof.
  intros Hm Hf h r h' Hk Hr. apply bind_inv in Hr as (a & h1 & Ha & Hr).
  destruct (Hm h a h1 Hk Ha) as (Heq1 & Hk1 & HQ).
  destruct (Hf a HQ h1 r h' Hk1 Hr) as (Heq2 & Hk2 & HQ').
  split; [congruence|done].
Qed.

Lemma preserves_weaken {A} (k : nat) (Q Q' : A → Prop) (m : M A) :
  preserves k Q m → (∀ a, Q a → Q' a) → preserves k Q' m.
Proof.
  intros Hm HQ h r h' Hk Hr. destruct (Hm h r h' Hk Hr) as (? & ? & ?).
  split; [done|]. split; [done|]. by apply HQ.
Qed.

Lemma preserves_lift {A} (k : nat) (x : result A) :
  preserves k (λ _, True) (lift x).
Proof. intros h r h' Hk Hr. apply lift_inv_pair in Hr as [_ ->]. done. Qed.

Lemma preserves_load (k : nat) (l : loc) : preserves k (λ _, True) (load l).
Proof. intros h r h' Hk Hr. apply load_inv_pair in Hr as [_ ->]. done. Qed.

Lemma preserves_alloc (k : nat) (d : DataFrame) :
  preserves k (λ r, k ≤ r) (alloc d).
Proof.
  intros h r h' Hk Hr. unfold alloc in Hr. injection Hr as <- <-.
  rewrite take_app_le by exact Hk. rewrite length_app. split; [done|]. lia.
Qed.

Lemma preserves_new_from (k : nat) (l : loc) f :
  preserves k (λ r, k ≤ r) (new_from l f).
Proof.
  intros h r h' Hk Hr.
  apply new_from_inv_pair in Hr as (d & d' & _ & _ & -> & ->).
  rewrite take_app_le by exact Hk. rewrite length_app. split; [done|]. lia.
Qed.

Lemma preserves_mutate (k : nat) (l : loc) f :
  k ≤ l → preserves k (λ _, True) (mutate l f).
Proof.
  intros Hl h r h' Hk Hr.
  apply mutate_inv_pair in Hr as (d & d' & _ & _ & ->).
  rewrite take_insert_ge by exact Hl. by rewrite length_insert.
Qed.

Lemma preserves_for {A} (k : nat) (body : A → M unit) (l : list A) :
  (∀ x, preserves k (λ _, True) (body x)) →
  preserves k (λ _, True) (for_ l body).
Proof.
  intros Hbody. induction l as [|x l IH]; cbn [for_].
  - by apply preserves_ret.
  - eapply preserves_bind; [apply Hbody|]. intros _ _. exact IH.
Qed.

Lemma preserves_dict_comp (k : nat) (f : string → M loc) (keys : list string)
    (acc : gmap string loc) :
  (∀ x, preserves k (λ r, k ≤ r) (f x)) →
  (∀ m l, acc !! m = Some l → k ≤ l) →
  preserves k (λ dict, ∀ m l, dict !! m = Some l → k ≤ l) (dict_comp keys f acc).
Proof.
  intros Hf. revert acc. induction keys as [|x keys IH]; intros acc Hacc;
    cbn [dict_comp].
  - by apply preserves_ret.
  - eapply preserves_bind; [apply Hf|]. intros v Hv. apply IH.
    intros m l Hl. apply lookup_insert_Some in Hl as [[_ <-]|[_ Hl]];
      [exact Hv|by eapply Hacc].
Qed.

Ltac preserves_leaf :=
  first [ apply preserves_load | apply preserves_lift | apply preserves_alloc
        | apply preserves_new_from
        | apply preserves_mutate; assumption
        | apply preserves_ret; first [assumption | exact I] ].

Ltac preserves_steps :=
  repeat first
    [ preserves_leaf
    | apply preserves_for; intros ?
    | eapply preserves_bind; [|intros ? ?] ].

Section Preserved.

Context `{Externals}.
Context (k : nat).

Lemma preserves_compute_metrics (df : loc) (fns : gmap string metric_fn)
    (eval : eval_config) :
  preserves k (λ r, k ≤ r) (_compute_metrics df fns eval).
Proof using Type.
  unfold _compute_metrics. destruct (get_perf_on_agg_forecast eval);
    preserves_steps.
Qed.

Lemma preserves_format_metrics_df_cv (l : loc) (dates : dates_config)
    (eval : eval_config) (resampling : resampling_config) :
  preserves k (λ r, k ≤ r) (__format_metrics_df_cv l dates eval resampling).
Proof using Type.
  unfold __format_metrics_df_cv.
  eapply preserves_bind; [preserves_leaf|intros l1 Hl1].
  eapply preserves_bind; [preserves_leaf|intros fq _].
  eapply preserves_bind.
  { destruct (bool_decide (fq ∈ ["s"; "H"])); preserves_steps. }
  intros _ _. preserves_steps.
Qed.

Lemma preserves_add_avg_std_metrics (l : loc) (eval : eval_config) :
  preserves k (λ r, k ≤ r) (__add_avg_std_metrics l eval).
Proof using Type. unfold __add_avg_std_metrics. cbn zeta. preserves_steps. Qed.

Lemma preserves_format_metrics_values (l : loc) (eval : eval_config)
    (config : format_config) :
  k ≤ l → preserves k (λ r, k ≤ r) (__format_metrics_values l eval config).
Proof using Type.
  intros Hl. unfold __format_metrics_values. cbn zeta. preserves_steps.
Qed.

Lemma preserves_format_eval_results (l : loc) (dates : dates_config)
    (eval : eval_config) (resampling : resampling_config) (use_cv : bool)
    (config : format_config) :
  preserves k
    (λ r : loc * gmap string loc,
       k ≤ r.1 ∧ ∀ m l', r.2 !! m = Some l' → k ≤ l')
    (_format_eval_results l dates eval resampling use_cv config).
Proof using Type.
  unfold _format_eval_results.
  eapply (preserves_bind k
            (λ r : loc * gmap string loc,
               k ≤ r.1 ∧ ∀ m l', r.2 !! m = Some l' → k ≤ l')).
  - destruct use_cv.
    + eapply preserves_bind; [apply preserves_format_metrics_df_cv|].
      intros lc Hlc.
      eapply preserves_bind.
      { apply preserves_dict_comp; [intros; apply preserves_new_from|].
        intros m l' Hl'. by rewrite lookup_empty in Hl'. }
      intros dict Hdict.
      eapply preserves_bind; [apply preserves_add_avg_std_metrics|].
      intros ld Hld. by apply preserves_ret.
    + eapply preserves_bind.
      { apply preserves_dict_comp; [intros; apply preserves_new_from|].
        intros m l' Hl'. by rewrite lookup_empty in Hl'. }
      intros dict Hdict.
      eapply preserves_bind; [apply preserves_new_from|].
      intros ld Hld. by apply preserves_ret.
  - intros [ld dict] [Hld Hdict]. cbn [fst snd] in Hld, Hdict.
    eapply preserves_bind; [by apply preserves_format_metrics_values|].
    intros ld' Hld'. by apply preserves_ret.
Qed.

End Preserved.

(** X22. a call never modifies an object that existed before it.  In
    cross-validation mode the evaluation table is copied first; in plain
    mode the time-bucket helper is called on it, so this is assumed of the
    helper.  Every later assignment goes to a table the call has created
    itself: the store the call returns is the one it started from followed
    by new objects, and the display table and every per-metric table are
    among the new ones. *)
Theorem get_perf_metrics_leaves_store_untouched `{Externals}
    (evaluation_df : loc) (eval : eval_config) (dates : dates_config)
    (resampling : resampling_config) (use_cv : bool) (config : format_config)
    (h h' : list DataFrame) (disp : loc) (dict : gmap string loc) :
  (use_cv = false →
   ∀ r h1, add_time_groupers evaluation_df h = Ok (r, h1) → ∃ new, h1 = h ++ new) →
  get_perf_metrics evaluation_df eval dates resampling use_cv config h
  = Ok ((disp, dict), h') →
  (∃ new, h' = h ++ new)
  ∧ length h ≤ disp
  ∧ ∀ m l, dict !! m = Some l → length h ≤ l.
Proof.
  intros Hhelper Hrun. unfold get_perf_metrics in Hrun. cbn zeta in Hrun.
  apply bind_inv in Hrun as (df & h1 & Hpre & Hrun).
  assert (∃ new, h1 = h ++ new) as [new ->].
  { unfold _preprocess_eval_df in Hpre. destruct use_cv.
    - apply bind_inv in Hpre as (l1 & h2 & Hnew & Hret).
      apply ret_inv_pair in Hret as [_ <-].
      apply new_from_inv_pair in Hnew as (d & d' & _ & _ & _ & ->). by eexists.
    - apply bind_inv in Hpre as (l1 & h2 & Hatg & Hret).
      apply ret_inv_pair in Hret as [_ <-].
      by apply (Hhelper eq_refl l1). }
  assert (preserves (length h)
            (λ r : loc * gmap string loc,
               length h ≤ r.1 ∧ ∀ m l', r.2 !! m = Some l' → length h ≤ l')
            (metrics_df ← _compute_metrics df error_functions eval;
             '(metrics_df, metrics_dict) ←
               _format_eval_results metrics_df dates eval resampling use_cv config;
             mret (metrics_df, metrics_dict))) as Hpres.
  { eapply preserves_bind; [apply preserves_compute_metrics|].
    intros lm Hlm.
    eapply preserves_bind; [apply preserves_format_eval_results|].
    intros [ld dict0] HQ. by apply preserves_ret. }
  destruct (Hpres (h ++ new) (disp, dict) h') as (Heq & Hlen & Hdisp & Hdict).
  { rewrite length_app. lia. }
  { exact Hrun. }
  cbn [fst snd] in Hdisp, Hdict.
  split; [|split; [exact Hdisp|exact Hdict]].
  exists (skipn (length h) h').
  rewrite take_app_le, firstn_all in Heq by lia.
  by rewrite <- Heq at 1; rewrite take_drop.
Qed.

Lemma get_perf_metrics_leaves_store_untouched_witness :
  ∃ (disp : loc) (dict : gmap string loc) (h' new : list DataFrame),
    get_perf_metrics (H := sample_externals) 0 example_eval_cv example_dates
      example_resampling true example_config [example_evaluation_cv]
    = Ok ((disp, dict), h')
    ∧ h' = [example_evaluation_cv] ++ new
    ∧ 1 ≤ disp.
Proof.
  destruct (get_perf_metrics (H := sample_externals) 0 example_eval_cv
              example_dates example_resampling true example_config
              [example_evaluation_cv])
    as [[[disp dict] h']|e] eqn:Hrun;
    [|vm_compute in Hrun; discriminate Hrun].
  destruct (get_perf_metrics_leaves_store_untouched (H := sample_externals)
              _ _ _ _ _ _ _ _ _ _ (λ Hcv, False_rect _ (diff_true_false Hcv)) Hrun)
    as ((new & Hnew) & Hdisp & _).
  exists disp, dict, h', new.
  split; [reflexivity|]. split; [exact Hnew|exact Hdisp].
Defined.

(** ** Plain mode, from the metrics table to the results *)

Lemma dict_comp_select_Ok (gran : string) (src : loc) (X : DataFrame)
    (keys : list string) (acc : gmap string loc) (h : list DataFrame) :
  h !! src = Some X →
  (∀ m, m ∈ keys → ∃ T, select [gran; m] X = Ok T) →
  ∃ dict h', dict_comp keys (λ m, new_from src (select [gran; m])) acc h
             = Ok (dict, h').
Proof.
  intros HX. revert acc h HX.
  induction keys as [|k keys IH]; intros acc h HX Hsel; cbn [dict_comp].
  - by eexists _, _.
  - destruct (Hsel k) as [T HT]; [by left|].
    rewrite bind_run, (new_from_Ok src (select [gran; k]) h X T HX HT).
    apply IH.
    + rewrite lookup_app_l; [exact HX|]. by eapply lookup_lt_Some.
    + intros m Hm. apply Hsel. by right.
Qed.

Lemma select_pair_Ok (gran m : string) (X : DataFrame) (gs col : list cell) :
  getitem gran X = Ok gs → getitem m X = Ok col →
  select [gran; m] X = Ok (mkDataFrame (df_index X) [(gran, gs); (m, col)]).
Proof.
  intros Hg Hm. unfold select. cbn [result_mapM]. by rewrite Hg, Hm.
Qed.

Section PlainResults.

Context `{Externals}.
Context (dates : dates_config) (eval : eval_config)
        (resampling : resampling_config) (config : format_config).
Context (X : DataFrame) (gs : list cell).
Context (xs : string → list npfloat) (nd : string → nat).

Hypothesis Hkeys : getitem (granularity eval) X = Ok gs.
Hypothesis Hcols :
  ∀ m, m ∈ metrics eval →
    getitem m X = Ok (floats (xs m)) ∧ length (xs m) = length gs.
Hypothesis Hnodup : NoDup (metrics eval).
Hypothesis Hgran : granularity eval ∉ metrics eval.
Hypothesis Hprec :
  ∀ m, m ∈ metrics eval → config_metrics config !! m = Some (nd m).

Lemma plain_display_unformatted :
  (s ← select (granularity eval :: metrics eval) X;
   set_index [granularity eval] s)
  = Ok (mkDataFrame [(Some (granularity eval), gs)]
          ((λ m, (m, floats (xs m))) <$> metrics eval)).
Proof using Hkeys Hcols Hgran.
  unfold select. cbn [result_mapM]. rewrite Hkeys. cbn [mbind result_bind].
  rewrite (result_mapM_Ok _ (λ m, (m, floats (xs m))))
    by (intros m Hm; by destruct (Hcols m Hm) as [-> _]).
  cbn [mbind result_bind].
  unfold set_index, getitem. cbn [result_mapM df_columns assoc].
  rewrite decide_True by reflexivity. cbn [mbind result_bind].
  do 2 f_equal. rewrite filter_cons. cbn [fst].
  rewrite decide_False by (intros Hn; apply Hn; by left).
  apply filter_columns_notin. intros m Hm Hin.
  apply list_elem_of_singleton in Hin as ->. by apply Hgran.
Qed.

(** Plain mode on a metrics table [X] with key column [gs] and a float
    column for each (distinct) requested metric. *)
Lemma format_eval_results_plain_run (h : list DataFrame) (lm : loc) :
  h !! lm = Some X →
  ∃ (disp : loc) (dict : gmap string loc) (h' : list DataFrame) (D : DataFrame),
    _format_eval_results lm dates eval resampling false config h
    = Ok ((disp, dict), h')
    ∧ (∃ new, h' = h ++ new)
    ∧ h' !! disp = Some D
    ∧ df_index D = [(Some (granularity eval), gs)]
    ∧ (df_columns D).*1 = metrics eval
    ∧ (∀ m, m ∈ metrics eval →
         getitem m D
         = Ok ((λ x, CStr (py_format (nd m) (py_round x (nd m)))) <$> xs m))
    ∧ (∀ m, m ∈ metrics eval ↔ is_Some (dict !! m))
    ∧ (∀ m l, dict !! m = Some l →
         l ≠ disp
         ∧ h' !! l
           = Some (mkDataFrame (df_index X)
                     [(granularity eval, gs); (m, floats (xs m))])).
Proof using All.
  intros HX.
  assert (∀ m, m ∈ metrics eval →
            select [granularity eval; m] X
            = Ok (mkDataFrame (df_index X)
                    [(granularity eval, gs); (m, floats (xs m))])) as Hsel.
  { intros m Hm. destruct (Hcols m Hm) as [Hm' _]. by apply select_pair_Ok. }
  destruct (dict_comp_select_Ok (granularity eval) lm X (metrics eval) ∅ h HX)
    as (dict & h1 & Hdict).
  { intros m Hm. eexists. by apply Hsel. }
  destruct (dict_comp_select_inv _ _ _ _ _ _ _ _ HX Hdict)
    as ((new & ->) & Htables).
  assert ((h ++ new) !! lm = Some X) as HX'.
  { rewrite lookup_app_l; [exact HX|]. by eapply lookup_lt_Some. }
  set (D0 := mkDataFrame [(Some (granularity eval), gs)]
               ((λ m, (m, floats (xs m))) <$> metrics eval)).
  destruct (format_loop_run config (length (h ++ new)) ((h ++ new) ++ [D0]) D0
              xs nd (lookup_snoc_last _ _) (metrics eval) Hnodup)
    as (D & Hfor & Hidx & Hnames & HDcols).
  { intros m Hm. destruct (Hcols m Hm) as [_ Hlen].
    split; [|split; [exact Hlen|by apply Hprec]].
    unfold getitem, D0. cbn [df_columns].
    by rewrite (assoc_fmap_in (λ m, floats (xs m))). }
  rewrite insert_snoc_last in Hfor.
  exists (length (h ++ new)), dict, ((h ++ new) ++ [D]), D.
  split.
  { unfold _format_eval_results. rewrite bind_run, bind_run, Hdict. cbn iota.
    rewrite bind_run.
    rewrite (new_from_Ok _ _ _ _ _ HX' plain_display_unformatted).
    fold D0. cbn [mret M_ret]. cbn iota.
    unfold __format_metrics_values. cbn zeta. rewrite !bind_run.
    unfold format_body in Hfor. rewrite Hfor. reflexivity. }
  split; [exists (new ++ [D]); by rewrite app_assoc|].
  split; [apply lookup_snoc_last|].
  split; [exact Hidx|].
  split.
  { rewrite Hnames. unfold D0. cbn [df_columns].
    rewrite <- list_fmap_compose. apply list_fmap_id. }
  split.
  { intros m Hm. by rewrite HDcols, decide_True. }
  split.
  { intros m. split.
    - intros Hm. apply (dict_comp_dom _ _ _ _ _ _ Hdict). by left.
    - intros [l Hl]. destruct (Htables m l Hl) as [Hempty|(Hm & _)]; [|done].
      by rewrite lookup_empty in Hempty. }
  intros m l Hl. destruct (Htables m l Hl) as [Hempty|(Hm & _ & T & HT & HselT)].
  { by rewrite lookup_empty in Hempty. }
  assert (l < length (h ++ new)) as Hlt by (by eapply lookup_lt_Some).
  split; [lia|]. rewrite lookup_app_l by exact Hlt. rewrite HT.
  rewrite (Hsel m Hm) in HselT. by injection HselT as <-.
Qed.

End PlainResults.

(** X23. plain mode from end to end.  Given the table that the time-bucket
    helper returns (well formed: a key column without nan, and "truth" and
    "forecast" columns of numbers), a grouping key that is not named like a
    column the function uses, and distinct known metrics, each with a number
    of decimals, the entry point returns.  The display table is indexed by
    the group keys in ascending order, each once; its columns are the
    requested metrics in the requested order, each holding the rendering of
    the group's score.  The per-metric table of a metric has the group keys
    and the scores themselves, as numbers.  The score of a group is the
    error function applied to the group's two totals in aggregate mode and
    to the truth and forecast entries of its rows otherwise. *)
Theorem plain_mode_end_to_end `{Externals}
    (evaluation_df : loc) (eval : eval_config) (dates : dates_config)
    (resampling : resampling_config) (config : format_config)
    (h h1 : list DataFrame) (ldf : loc) (df : DataFrame)
    (keys : list cell) (ts fs : list R) (nd : string → nat) :
  add_time_groupers evaluation_df h = Ok (ldf, h1) →
  h1 !! ldf = Some df →
  getitem (granularity eval) df = Ok keys →
  getitem "truth" df = Ok (floats (reals ts)) →
  getitem "forecast" df = Ok (floats (reals fs)) →
  length ts = length keys →
  length fs = length keys →
  homogeneous keys = true →
  keys ≠ [] →
  (∀ k, k ∈ keys → notna k = true) →
  granularity eval ∉ "truth" :: "forecast" :: metric_names →
  (∀ m, m ∈ metrics eval → m ∈ metric_names) →
  NoDup (metrics eval) →
  (∀ m, m ∈ metrics eval → config_metrics config !! m = Some (nd m)) →
  let score (f : metric_fn) (g : cell) : npfloat :=
    if get_perf_on_agg_forecast eval
    then scalar_score f (group_total g keys ts) (group_total g keys fs)
    else series_score f (rows_where g keys ts) (rows_where g keys fs) in
  ∃ (gs : list cell) (disp : loc) (dict : gmap string loc)
    (h' : list DataFrame) (D : DataFrame),
    get_perf_metrics evaluation_df eval dates resampling false config h
    = Ok ((disp, dict), h')
    ∧ (∃ new, h' = h1 ++ new)
    ∧ Sorted (λ a b, cell_leb a b = true) gs
    ∧ NoDup gs
    ∧ (∀ g, g ∈ gs ↔ g ∈ keys)
    ∧ h' !! disp = Some D
    ∧ df_index D = [(Some (granularity eval), gs)]
    ∧ (df_columns D).*1 = metrics eval
    ∧ (∀ m, m ∈ metrics eval ↔ is_Some (dict !! m))
    ∧ ∀ m f, m ∈ metrics eval → error_functions !! m = Some f →
        getitem m D
        = Ok ((λ g, CStr (py_format (nd m) (py_round (score f g) (nd m))))
                <$> gs)
        ∧ ∃ l, dict !! m = Some l
               ∧ h' !! l
                 = Some (mkDataFrame (range_index (length gs))
                           [(granularity eval, gs);
                            (m, (λ g, CFloat (score f g)) <$> gs)]).
Proof.
  intros Hatg Hdf Hkeys Ht Hf Hlt Hlf Hhom Hne Hnotna Hgran0 Hms Hnd Hprec score.
  assert (granularity eval ∉ metric_names) as Hgran.
  { intros Hin. apply Hgran0. by do 2 right. }
  assert (granularity eval ∉ metrics eval) as Hgm.
  { intros Hin. by apply Hgran, Hms. }
  destruct (group_keys_Ok keys Hhom) as (gs & Hgs & Hgnd & Hin).
  assert (∀ g, g ∈ gs ↔ g ∈ keys) as Hin'.
  { intros g. rewrite Hin. split; [by intros [? _]|].
    intros Hg. split; [exact Hg|by apply Hnotna]. }
  assert (gs ≠ []) as Hgne.
  { intros ->. destruct keys as [|k keys']; [done|].
    assert (k ∈ []) as Hk by (apply Hin'; by left).
    by apply not_elem_of_nil in Hk. }
  assert (length ts = length fs) as Hlen by congruence.
  pose proof (sorted_unique_keys keys gs Hnotna Hgs) as Hsorted.
  apply sorted_cells_inv in Hsorted as [Hsorted _].
  set (xs := λ m, match error_functions !! m with
                  | Some f => (λ g, score f g) <$> gs
                  | None => []
                  end).
  assert (∃ X, _compute_metrics ldf error_functions eval h1
               = Ok (length h1, h1 ++ [X])
               ∧ df_index X = range_index (length gs)
               ∧ getitem (granularity eval) X = Ok gs
               ∧ ∀ m, m ∈ metrics eval →
                   getitem m X = Ok (floats (xs m))
                   ∧ length (xs m) = length gs) as (X & Hcompute & HXidx & HXkeys & HXcols).
  { unfold xs, score. destruct (get_perf_on_agg_forecast eval) eqn:Hflag.
    - exists (agg_table (granularity eval) gs keys ts fs (metrics eval)).
      split.
      { exact (compute_metrics_aggregate eval df keys ts fs gs Hflag Hkeys Ht Hf
                 Hgs Hgne Hgran0 Hms h1 ldf Hdf). }
      split; [reflexivity|]. split.
      { exact (agg_table_keys eval df keys ts fs gs Hflag Hkeys Ht Hf Hgs Hgne
                 Hgran0 Hms (metrics eval) Hms). }
      intros m Hm. destruct (error_functions_names m (Hms m Hm)) as [f Hmf].
      rewrite (agg_table_score eval df keys ts fs gs Hflag Hkeys Ht Hf Hgs Hgne
                 Hgran0 Hms (metrics eval) m Hm).
      unfold score_col, floats. rewrite Hmf, <- list_fmap_compose, length_fmap.
      done.
    - exists (group_table (granularity eval) gs keys ts fs (metrics eval)).
      split.
      { exact (compute_metrics_per_group eval df keys ts fs gs Hflag Hkeys Ht Hf
                 Hlen Hnotna Hgs Hgne Hgran Hms h1 ldf Hdf). }
      split; [reflexivity|]. split.
      { exact (group_table_keys eval keys ts fs gs Hgran (metrics eval) Hms). }
      intros m Hm. destruct (error_functions_names m (Hms m Hm)) as [f Hmf].
      rewrite (group_table_score eval keys ts fs gs (metrics eval) m Hm).
      unfold group_score_col, floats.
      rewrite Hmf, <- list_fmap_compose, length_fmap. done. }
  destruct (format_eval_results_plain_run dates eval resampling config X gs xs nd
              HXkeys HXcols Hnd Hgm Hprec (h1 ++ [X]) (length h1)
              (lookup_snoc_last _ _))
    as (disp & dict & h' & D & Hformat & (new & ->) & HD & HDidx & HDnames
        & HDcols & Hdom & Htables).
  exists gs, disp, dict, ((h1 ++ [X]) ++ new), D.
  split.
  { unfold get_perf_metrics. cbn zeta. rewrite bind_run.
    unfold _preprocess_eval_df. rewrite bind_run, Hatg. cbn [mret M_ret].
    cbn iota. rewrite bind_run, Hcompute, bind_run, Hformat. reflexivity. }
  split; [exists ([X] ++ new); by rewrite app_assoc|].
  split; [exact Hsorted|]. split; [exact Hgnd|]. split; [exact Hin'|].
  split; [exact HD|]. split; [exact HDidx|]. split; [exact HDnames|].
  split; [exact Hdom|].
  intros m f Hm Hmf. split.
  - rewrite (HDcols m Hm). unfold xs. rewrite Hmf.
    by rewrite <- list_fmap_compose.
  - destruct (proj1 (Hdom m) Hm) as [l Hl]. exists l. split; [exact Hl|].
    destruct (Htables m l Hl) as [_ ->]. rewrite HXidx.
    unfold xs, floats. rewrite Hmf. by rewrite <- list_fmap_compose.
Qed.

Lemma plain_mode_end_to_end_witness :
  ∃ (gs : list cell) (disp : loc) (dict : gmap string loc)
    (h' : list DataFrame) (D : DataFrame),
    get_perf_metrics (H := sample_externals) 0 example_eval_plain example_dates
      example_resampling false example_config [example_table]
    = Ok ((disp, dict), h')
    ∧ h' !! disp = Some D
    ∧ df_index D = [(Some "bucket", gs)]
    ∧ (df_columns D).*1 = ["MAE"; "MSE"].
Proof.
  destruct (plain_mode_end_to_end (H := sample_externals) 0 example_eval_plain
              example_dates example_resampling example_config
              [example_table] [example_table; example_table] 1 example_table
              [CStr "A"; CStr "A"; CStr "B"; CStr "B"]
              [10%R; 10%R; 0%R; 0%R] [10%R; 10%R; 5%R; 5%R]
              (λ m, if decide (m = "MAE") then 2 else 1))
    as (gs & disp & dict & h' & D & Hrun & _ & _ & _ & _ & HD & Hidx & Hnames & _).
  - reflexivity.
  - reflexivity.
  - reflexivity.
  - reflexivity.
  - reflexivity.
  - reflexivity.
  - reflexivity.
  - reflexivity.
  - discriminate.
  - intros k Hk. repeat (apply elem_of_cons in Hk as [->|Hk]; [reflexivity|]).
    by apply not_elem_of_nil in Hk.
  - intros Hin. simpl in Hin. unfold metric_names in Hin. not_elem_of_list Hin.
  - intros m Hm. simpl in Hm. unfold metric_names.
    repeat (apply elem_of_cons in Hm as [->|Hm]; [elem_of_list|]).
    by apply not_elem_of_nil in Hm.
  - repeat constructor; intros Hin; not_elem_of_list Hin.
  - intros m Hm. simpl in Hm.
    repeat (apply elem_of_cons in Hm as [->|Hm]; [reflexivity|]).
    by apply not_elem_of_nil in Hm.
  - exists gs, disp, dict, h', D.
    split; [exact Hrun|]. split; [exact HD|]. split; [exact Hidx|exact Hnames].
Defined.

(** X24. the shape of a per-metric table.  For every call that returns and
    every metric of the mapping, the table has exactly two columns, the
    grouping key and the metric, in this order. *)
Theorem per_metric_tables_have_two_columns `{Externals}
    (evaluation_df : loc) (eval : eval_config) (dates : dates_config)
    (resampling : resampling_config) (use_cv : bool) (config : format_config)
    (h h' : list DataFrame) (disp : loc) (dict : gmap string loc) :
  get_perf_metrics evaluation_df eval dates resampling use_cv config h
  = Ok ((disp, dict), h') →
  ∀ m l, dict !! m = Some l →
    ∃ T, h' !! l = Some T ∧ (df_columns T).*1 = [granularity eval; m].
Proof.
  intros Hrun m l Hl.
  destruct (get_perf_metrics_inv _ _ _ _ _ _ _ _ _ _ Hrun)
    as (X & labels & _ & _ & _ & _ & (h_pre & _ & Htables) & _).
  destruct (Htables m l Hl) as (_ & T & _ & HT & Hsel).
  exists T. split; [exact HT|].
  apply select_inv in Hsel as (_ & cs & -> & Hcs).
  apply Forall2_length in Hcs. rewrite fst_zip; [reflexivity|]. by rewrite Hcs.
Qed.

Lemma per_metric_tables_have_two_columns_witness :
  ∃ (disp : loc) (dict : gmap string loc) (h' : list DataFrame),
    get_perf_metrics (H := sample_externals) 0 example_eval_cv example_dates
      example_resampling true example_config [example_evaluation_cv]
    = Ok ((disp, dict), h')
    ∧ ∀ m l, dict !! m = Some l →
        ∃ T, h' !! l = Some T ∧ (df_columns T).*1 = ["cutoff"; m].
Proof.
  destruct (get_perf_metrics (H := sample_externals) 0 example_eval_cv
              example_dates example_resampling true example_config
              [example_evaluation_cv])
    as [[[disp dict] h']|e] eqn:Hrun;
    [|vm_compute in Hrun; discriminate Hrun].
  pose proof (per_metric_tables_have_two_columns (H := sample_externals)
                _ _ _ _ _ _ _ _ _ _ Hrun) as Hshape.
  exists disp, dict, h'. split; [reflexivity|exact Hshape].
Defined.

(** ** A missing group key *)

Lemma notna_false (c : cell) : notna c = false → c = CFloat NaN.
Proof. destruct c as [[x|]| | |]; simpl; intros; done. Qed.

Lemma remove_dups_with_nan (keys : list cell) :
  CFloat NaN ∈ keys →
  remove_dups keys ≡ₚ CFloat NaN :: remove_dups (filter (λ c, notna c) keys).
Proof.
  intros Hnan. apply NoDup_Permutation.
  - apply NoDup_remove_dups.
  - constructor; [|apply NoDup_remove_dups].
    intros Hin. apply elem_of_remove_dups, list_elem_of_filter in Hin as [Hna _].
    done.
  - intros x. rewrite elem_of_remove_dups, elem_of_cons,
      elem_of_remove_dups, list_elem_of_filter.
    split.
    + intros Hx. destruct (notna x) eqn:Hna.
      * right. split; [by apply Is_true_true|exact Hx].
      * left. by apply notna_false.
    + intros [->|[_ Hx]]; [exact Hnan|exact Hx].
Qed.

Lemma lift_Ok {A} (a : A) (h : list DataFrame) : lift (Ok a) h = Ok (a, h).
Proof. reflexivity. Qed.

(** X25. a missing value among the group keys breaks per-group mode.  The
    key column of the new table lists every distinct key, the missing one
    included, whereas the grouping drops the rows without a key: the first
    score column is one entry short and its assignment raises [ValueError].
    When the keys are not numbers, sorting them with the missing value (a
    float) raises [TypeError] before that. *)
Theorem missing_group_key_breaks_per_group_mode (eval : eval_config)
    (h : list DataFrame) (l : loc) (df : DataFrame)
    (keys : list cell) (ts fs : list R) (m : string) (rest : list string) :
  h !! l = Some df →
  get_perf_on_agg_forecast eval = false →
  getitem (granularity eval) df = Ok keys →
  getitem "truth" df = Ok (floats (reals ts)) →
  getitem "forecast" df = Ok (floats (reals fs)) →
  length ts = length fs →
  CFloat NaN ∈ keys →
  (homogeneous keys = false →
   _compute_metrics l error_functions eval h = Raise TypeError)
  ∧ (homogeneous keys = true →
     (∃ k, k ∈ keys ∧ notna k = true) →
     metrics eval = m :: rest →
     m ∈ metric_names →
     _compute_metrics l error_functions eval h = Raise ValueError).
Proof.
  intros Hl Hflag Hkeys Ht Hf Hlen Hnan.
  unfold _compute_metrics. rewrite Hflag.
  rewrite bind_run, (load_Ok _ _ _ Hl), bind_run.
  rewrite Hkeys, lift_Ok. cbn beta iota. rewrite bind_run.
  split.
  - intros Hhom. unfold lift at 1, sorted_cells.
    destruct (homogeneous (remove_dups keys)) eqn:Hhom'; [|reflexivity].
    rewrite (homogeneous_incl (remove_dups keys) keys Hhom') in Hhom;
      [discriminate|].
    intros c Hc. by apply elem_of_remove_dups.
  - intros Hhom (k & Hk & Hkna) Hms Hm.
    destruct (group_keys_Ok keys Hhom) as (gs & Hgs & Hgnd & Hin).
    assert (gs ≠ []) as Hgne.
    { intros ->. assert (k ∈ []) as Hk' by by apply Hin.
      by apply not_elem_of_nil in Hk'. }
    destruct (sorted_cells_Ok (remove_dups keys)) as (ks & Hks & Hperm).
    { apply (homogeneous_incl keys); [exact Hhom|].
      intros c Hc. exact (proj1 (elem_of_remove_dups keys c) Hc). }
    assert (length ks = S (length gs)) as Hlenks.
    { rewrite Hperm, (remove_dups_with_nan keys Hnan). cbn [length]. f_equal.
      unfold group_keys in Hgs. apply sorted_cells_inv in Hgs as [_ Hgp].
      by rewrite Hgp. }
    rewrite Hks, lift_Ok. cbn beta iota. rewrite bind_run.
    unfold alloc at 1. cbn beta iota. rewrite bind_run, Hms. cbn [for_].
    rewrite !bind_run.
    assert ((h ++ [of_dict (granularity eval) ks]) !! l = Some df) as Hl'.
    { rewrite lookup_app_l; [exact Hl|]. by eapply lookup_lt_Some. }
    rewrite (load_Ok _ _ _ Hl'). cbn beta iota. rewrite bind_run.
    rewrite (groupby_apply_scores eval df keys ts fs gs Hkeys Ht Hf Hlen Hgs
               Hgne m Hm), lift_Ok. cbn beta iota.
    unfold mutate. rewrite !bind_run.
    rewrite (load_Ok _ _ _ (lookup_snoc_last _ _)). cbn beta iota.
    unfold setitem, nrows, of_dict. cbn [df_index range_index].
    rewrite decide_False; [reflexivity|].
    destruct (error_functions_names m Hm) as [f Hmf].
    unfold group_score_col. rewrite Hmf, !length_fmap, length_seq. lia.
Qed.

Lemma missing_group_key_breaks_per_group_mode_witness :
  _compute_metrics 0 error_functions example_eval_per_group [example_nan_key]
  = Raise ValueError.
Proof.
  apply (missing_group_key_breaks_per_group_mode example_eval_per_group
           [example_nan_key] 0 example_nan_key [CFloat (Fin 1); CFloat NaN]
           [10%R; 0%R] [10%R; 5%R] "MAE" []).
  - reflexivity.
  - reflexivity.
  - reflexivity.
  - reflexivity.
  - reflexivity.
  - reflexivity.
  - by right; left.
  - reflexivity.
  - exists (CFloat (Fin 1)). split; [by left|reflexivity].
  - reflexivity.
  - unfold metric_names. elem_of_list.
Defined.
